(** * QuackMesh: a shallow embedding of the mesh message engine

    The development follows the C++ sources:
    - [QuackMeshTypes.h]    : the records exchanged between the layers,
    - [ESPNowClient.{h,cpp}]: the link adapter over the ESP-NOW driver,
    - [QuackMeshDevice.{h,cpp}]: the per-node device state machine,
    - [QuackMeshRouter.{h,cpp}]: forwarding and the routing table.

    Conventions.  Every C++ integer is a [Z]; where the source stores a
    value into a fixed-width field the wrap-around is written out.  A
    [std::vector] or [std::queue] is a [list] (front of the queue = head of
    the list).  [millis()] is an argument [now] of the function that reads
    it; one call of [update()] sees one value of the clock.  A
    [std::function] member is a [bool] saying whether a target is
    bound; an invocation of an application callback is logged in the
    device's [app_trace].  The value the driver returns from
    [esp_now_send] is an argument of the function that reaches the call. *)

From Stdlib Require Import ZArith List Bool Lia.
Import ListNotations.
Local Open Scope Z_scope.

(** ** Fixed-width integers *)

Definition wrap (w x : Z) : Z := x mod 2 ^ w.

(** [uint8_t]. *)
Definition u8 (x : Z) : Z := wrap 8 x.

(** [u_long] is [unsigned long]; both targets (ESP8266, ESP32) are ILP32. *)
Definition u_long_bits : Z := 32.
Definition u_long (x : Z) : Z := wrap u_long_bits x.

(** [int16_t]: conversion keeps the low 16 bits, read in two's complement. *)
Definition i16 (x : Z) : Z :=
  let r := wrap 16 x in if r <? 2 ^ 15 then r else r - 2 ^ 16.

(** ** Faults

    Three operations of the source have no defined result on some states:
    calling an empty [std::function], [std::optional::value()] on
    [nullopt], and [std::queue::front()] on an empty queue. *)

Inductive fault : Type :=
| BadFunctionCall
| BadOptionalAccess
| FrontOfEmptyQueue.

Inductive result (A : Type) : Type :=
| Ok (a : A)
| Fault (f : fault).
Arguments Ok {A} a.
Arguments Fault {A} f.

Definition bind {A B : Type} (r : result A) (k : A -> result B) : result B :=
  match r with
  | Ok a => k a
  | Fault f => Fault f
  end.

Notation "x <- c1 ;; c2" := (bind c1 (fun x => c2))
  (at level 61, c1 at next level, right associativity).
Notation "' pat <- c1 ;; c2" := (bind c1 (fun x => match x with pat => c2 end))
  (at level 61, pat pattern, c1 at next level, right associativity).

(** ** Addresses *)

(** A MAC address: the six bytes of a [uint8_t[6]]. *)
Definition address : Type := list Z.

Fixpoint bytes_eqb (a b : list Z) : bool :=
  match a, b with
  | [], [] => true
  | x :: a', y :: b' => (x =? y) && bytes_eqb a' b'
  | _, _ => false
  end.

(** [memcmp(actualAddress, expectedAddress, 6) == 0]. *)
Definition isAddressMatching (actualAddress expectedAddress : address) : bool :=
  bytes_eqb actualAddress expectedAddress.

Definition BROADCAST_ADDRESS : address := [255; 255; 255; 255; 255; 255].

(** ** QuackMeshTypes.h *)

Module Message.
Record t : Type := mk {
  networkID : list Z;
  type : Z;
  id : Z;
  hopCount : Z;
  srcAddress : address;
  destAddress : address;
  len : Z;
  data : list Z
}.

(** The constructor: each scalar argument is a [uint8_t]; [len] bytes of
    the payload are copied. *)
Definition make (networkID : list Z) (type id hopCount : Z)
    (srcAddress destAddress : address) (len : Z) (data : list Z) : t :=
  mk networkID (u8 type) (u8 id) (u8 hopCount) srcAddress destAddress
     (u8 len) (firstn (Z.to_nat (u8 len)) data).

(** The struct read as bytes, [size] of them (the [reinterpret_cast] in
    [processNextMessage]): an 18-byte header, then the payload. *)
Definition bytes (m : t) (size : Z) : list Z :=
  firstn (Z.to_nat size)
    (networkID m ++ [type m; id m; hopCount m] ++ srcAddress m
       ++ destAddress m ++ [len m] ++ data m).

(** The struct filled from received bytes (the [memcpy] into the
    zeroed struct in [onMessageReceived]).  Of the payload array the
    bytes that were received are kept, and, where [len] names more bytes
    than were received, the bytes up to [len], which stay [0]. *)
Definition of_bytes (b : list Z) : t :=
  let payload := skipn 18 b in
  mk (firstn 2 b) (nth 2 b 0) (nth 3 b 0) (nth 4 b 0)
     (firstn 6 (skipn 5 b)) (firstn 6 (skipn 11 b)) (nth 17 b 0)
     (payload ++ repeat 0 (Z.to_nat (nth 17 b 0) - length payload)).
End Message.

Inductive EnqueuedMessageType : Type :=
| Unconfirmed
| Confirmed
| Forwarded
| Acknowledgement.

Definition EnqueuedMessageType_eqb (a b : EnqueuedMessageType) : bool :=
  match a, b with
  | Unconfirmed, Unconfirmed
  | Confirmed, Confirmed
  | Forwarded, Forwarded
  | Acknowledgement, Acknowledgement => true
  | _, _ => false
  end.

Module ConfirmedMessage.
Record t : Type := mk {
  isSent : bool;
  timestamp : Z;          (* int16_t *)
  id : Z;
  destAddress : address
}.
End ConfirmedMessage.

Module EnqueuedMessage.
Record t : Type := mk {
  type : EnqueuedMessageType;
  channel : Z;
  message : Message.t
}.
End EnqueuedMessage.

Module SeenMessageEntry.
Record t : Type := mk {
  id : Z;
  srcAddress : address;
  destAddress : address;
  timestamp : Z;          (* u_long *)
  type : EnqueuedMessageType
}.
End SeenMessageEntry.

Module RoutingEntry.
Record t : Type := mk {
  destination : address;
  link : address;
  hops : Z;
  timestamp : Z           (* int16_t *)
}.
End RoutingEntry.

(** ** ESPNowClient.h *)

Inductive ESPNowSentStatus : Type :=
| Undetermined
| SendSuccess
| SendBroadcast
| PartialFail
| Fail.

Definition ESPNowSentStatus_eqb (a b : ESPNowSentStatus) : bool :=
  match a, b with
  | Undetermined, Undetermined
  | SendSuccess, SendSuccess
  | SendBroadcast, SendBroadcast
  | PartialFail, PartialFail
  | Fail, Fail => true
  | _, _ => false
  end.

Module ReceivedData.
Record t : Type := mk {
  srcAddress : address;
  data : list Z;
  dataLength : Z
}.

(** The constructor copies [dataLength] bytes. *)
Definition make (srcAddress : address) (data : list Z) (dataLength : Z) : t :=
  mk srcAddress (firstn (Z.to_nat (u8 dataLength)) data) (u8 dataLength).

Definition default : t := mk [0; 0; 0; 0; 0; 0] [] 0.
End ReceivedData.

Module SendingData.
Record t : Type := mk {
  destAddress : address;
  data : list Z;
  dataLength : Z;           (* uint8_t *)
  maxTriesLeft : Z;         (* uint8_t *)
  channel : Z
}.

Definition set_maxTriesLeft (v : Z) (d : t) : t :=
  mk (destAddress d) (data d) (dataLength d) v (channel d).
End SendingData.

(** What the client hands to the callbacks bound by [setOnDataSentCallback]
    and [setOnDataReceivedCallback], in the order of the calls. *)
Inductive ClientEvent : Type :=
| SentCallback (status : ESPNowSentStatus)
| ReceivedCallback (data : ReceivedData.t).

Module ESPNowClient.

(** The static members and the members of the one client instance. *)
Record t : Type := mk {
  RECEIVED_DATA : list ReceivedData.t;
  NEW_RECEIVED_DATA : ReceivedData.t;
  RECIEVED_DATA_ACCESS_MUTEX : bool;
  WAITING_FOR_DATA_SENT_MUTEX : bool;
  DATA_SENT_UPDATE_MUTEX : bool;
  NEW_DATA_RECEIVED_MUTEX : bool;
  LAST_SENT_STATUS : ESPNowSentStatus;
  mNextDataToSend : option SendingData.t;
  mMessageProcessInterval : Z;
  mLastMessageProcessedTs : Z;
  mMessageSendInterval : Z;
  mLastMessageSentTs : Z;
  mMACAddress : address;
  mOnDataReceivedCallback : bool;
  mOnDataSentCallback : bool
}.

(** The initial values of the header and of the definitions at the end of
    [ESPNowClient.cpp]. *)
Definition init (mac : address) : t :=
  mk [] ReceivedData.default false false false false Undetermined None
     0 0 100 0 mac false false.

Definition set_RECEIVED_DATA v c :=
  mk v (NEW_RECEIVED_DATA c) (RECIEVED_DATA_ACCESS_MUTEX c)
     (WAITING_FOR_DATA_SENT_MUTEX c) (DATA_SENT_UPDATE_MUTEX c)
     (NEW_DATA_RECEIVED_MUTEX c) (LAST_SENT_STATUS c) (mNextDataToSend c)
     (mMessageProcessInterval c) (mLastMessageProcessedTs c)
     (mMessageSendInterval c) (mLastMessageSentTs c) (mMACAddress c)
     (mOnDataReceivedCallback c) (mOnDataSentCallback c).

Definition set_NEW_RECEIVED_DATA v c :=
  mk (RECEIVED_DATA c) v (RECIEVED_DATA_ACCESS_MUTEX c)
     (WAITING_FOR_DATA_SENT_MUTEX c) (DATA_SENT_UPDATE_MUTEX c)
     (NEW_DATA_RECEIVED_MUTEX c) (LAST_SENT_STATUS c) (mNextDataToSend c)
     (mMessageProcessInterval c) (mLastMessageProcessedTs c)
     (mMessageSendInterval c) (mLastMessageSentTs c) (mMACAddress c)
     (mOnDataReceivedCallback c) (mOnDataSentCallback c).

Definition set_RECIEVED_DATA_ACCESS_MUTEX v c :=
  mk (RECEIVED_DATA c) (NEW_RECEIVED_DATA c) v
     (WAITING_FOR_DATA_SENT_MUTEX c) (DATA_SENT_UPDATE_MUTEX c)
     (NEW_DATA_RECEIVED_MUTEX c) (LAST_SENT_STATUS c) (mNextDataToSend c)
     (mMessageProcessInterval c) (mLastMessageProcessedTs c)
     (mMessageSendInterval c) (mLastMessageSentTs c) (mMACAddress c)
     (mOnDataReceivedCallback c) (mOnDataSentCallback c).

Definition set_WAITING_FOR_DATA_SENT_MUTEX v c :=
  mk (RECEIVED_DATA c) (NEW_RECEIVED_DATA c) (RECIEVED_DATA_ACCESS_MUTEX c)
     v (DATA_SENT_UPDATE_MUTEX c)
     (NEW_DATA_RECEIVED_MUTEX c) (LAST_SENT_STATUS c) (mNextDataToSend c)
     (mMessageProcessInterval c) (mLastMessageProcessedTs c)
     (mMessageSendInterval c) (mLastMessageSentTs c) (mMACAddress c)
     (mOnDataReceivedCallback c) (mOnDataSentCallback c).

Definition set_DATA_SENT_UPDATE_MUTEX v c :=
  mk (RECEIVED_DATA c) (NEW_RECEIVED_DATA c) (RECIEVED_DATA_ACCESS_MUTEX c)
     (WAITING_FOR_DATA_SENT_MUTEX c) v
     (NEW_DATA_RECEIVED_MUTEX c) (LAST_SENT_STATUS c) (mNextDataToSend c)
     (mMessageProcessInterval c) (mLastMessageProcessedTs c)
     (mMessageSendInterval c) (mLastMessageSentTs c) (mMACAddress c)
     (mOnDataReceivedCallback c) (mOnDataSentCallback c).

Definition set_NEW_DATA_RECEIVED_MUTEX v c :=
  mk (RECEIVED_DATA c) (NEW_RECEIVED_DATA c) (RECIEVED_DATA_ACCESS_MUTEX c)
     (WAITING_FOR_DATA_SENT_MUTEX c) (DATA_SENT_UPDATE_MUTEX c)
     v (LAST_SENT_STATUS c) (mNextDataToSend c)
     (mMessageProcessInterval c) (mLastMessageProcessedTs c)
     (mMessageSendInterval c) (mLastMessageSentTs c) (mMACAddress c)
     (mOnDataReceivedCallback c) (mOnDataSentCallback c).

Definition set_LAST_SENT_STATUS v c :=
  mk (RECEIVED_DATA c) (NEW_RECEIVED_DATA c) (RECIEVED_DATA_ACCESS_MUTEX c)
     (WAITING_FOR_DATA_SENT_MUTEX c) (DATA_SENT_UPDATE_MUTEX c)
     (NEW_DATA_RECEIVED_MUTEX c) v (mNextDataToSend c)
     (mMessageProcessInterval c) (mLastMessageProcessedTs c)
     (mMessageSendInterval c) (mLastMessageSentTs c) (mMACAddress c)
     (mOnDataReceivedCallback c) (mOnDataSentCallback c).

Definition set_mNextDataToSend v c :=
  mk (RECEIVED_DATA c) (NEW_RECEIVED_DATA c) (RECIEVED_DATA_ACCESS_MUTEX c)
     (WAITING_FOR_DATA_SENT_MUTEX c) (DATA_SENT_UPDATE_MUTEX c)
     (NEW_DATA_RECEIVED_MUTEX c) (LAST_SENT_STATUS c) v
     (mMessageProcessInterval c) (mLastMessageProcessedTs c)
     (mMessageSendInterval c) (mLastMessageSentTs c) (mMACAddress c)
     (mOnDataReceivedCallback c) (mOnDataSentCallback c).

Definition set_mMessageProcessInterval v c :=
  mk (RECEIVED_DATA c) (NEW_RECEIVED_DATA c) (RECIEVED_DATA_ACCESS_MUTEX c)
     (WAITING_FOR_DATA_SENT_MUTEX c) (DATA_SENT_UPDATE_MUTEX c)
     (NEW_DATA_RECEIVED_MUTEX c) (LAST_SENT_STATUS c) (mNextDataToSend c)
     v (mLastMessageProcessedTs c)
     (mMessageSendInterval c) (mLastMessageSentTs c) (mMACAddress c)
     (mOnDataReceivedCallback c) (mOnDataSentCallback c).

Definition set_mLastMessageSentTs v c :=
  mk (RECEIVED_DATA c) (NEW_RECEIVED_DATA c) (RECIEVED_DATA_ACCESS_MUTEX c)
     (WAITING_FOR_DATA_SENT_MUTEX c) (DATA_SENT_UPDATE_MUTEX c)
     (NEW_DATA_RECEIVED_MUTEX c) (LAST_SENT_STATUS c) (mNextDataToSend c)
     (mMessageProcessInterval c) (mLastMessageProcessedTs c)
     (mMessageSendInterval c) v (mMACAddress c)
     (mOnDataReceivedCallback c) (mOnDataSentCallback c).

Definition set_mOnDataReceivedCallback v c :=
  mk (RECEIVED_DATA c) (NEW_RECEIVED_DATA c) (RECIEVED_DATA_ACCESS_MUTEX c)
     (WAITING_FOR_DATA_SENT_MUTEX c) (DATA_SENT_UPDATE_MUTEX c)
     (NEW_DATA_RECEIVED_MUTEX c) (LAST_SENT_STATUS c) (mNextDataToSend c)
     (mMessageProcessInterval c) (mLastMessageProcessedTs c)
     (mMessageSendInterval c) (mLastMessageSentTs c) (mMACAddress c)
     v (mOnDataSentCallback c).

Definition set_mOnDataSentCallback v c :=
  mk (RECEIVED_DATA c) (NEW_RECEIVED_DATA c) (RECIEVED_DATA_ACCESS_MUTEX c)
     (WAITING_FOR_DATA_SENT_MUTEX c) (DATA_SENT_UPDATE_MUTEX c)
     (NEW_DATA_RECEIVED_MUTEX c) (LAST_SENT_STATUS c) (mNextDataToSend c)
     (mMessageProcessInterval c) (mLastMessageProcessedTs c)
     (mMessageSendInterval c) (mLastMessageSentTs c) (mMACAddress c)
     (mOnDataReceivedCallback c) v.

(** [int ESPNowClient::send(macAddress, data, dataLength, maxSendTries,
    channel)]: the new client state and the returned code. *)
Definition send (c : t) (macAddress : address) (data : list Z)
    (dataLength maxSendTries channel : Z) : t * Z :=
  if WAITING_FOR_DATA_SENT_MUTEX c then (c, -1)
  else
    let newDataToSend :=
      SendingData.mk macAddress (firstn (Z.to_nat dataLength) data)
        (u8 dataLength) (u8 maxSendTries) channel in
    (set_mNextDataToSend (Some newDataToSend) c, 0).

Definition sendingPossible (c : t) : bool :=
  negb (WAITING_FOR_DATA_SENT_MUTEX c).

(** [sendNow]: [status] is what [esp_now_send] returns. *)
Definition sendNow (c : t) (status : Z) : t * Z :=
  if WAITING_FOR_DATA_SENT_MUTEX c then (c, -1)
  else if status =? 0 then (set_WAITING_FOR_DATA_SENT_MUTEX true c, status)
  else
    (set_WAITING_FOR_DATA_SENT_MUTEX false
       (set_LAST_SENT_STATUS Fail (set_DATA_SENT_UPDATE_MUTEX true c)),
     status).

(** [processMessage]: hand the oldest buffered frame to the receive
    callback.  The function raises [RECIEVED_DATA_ACCESS_MUTEX] while it
    takes the frame out of the queue and lowers it again before it
    returns or calls back. *)
Definition processMessage (c : t) : t * list ClientEvent :=
  if RECIEVED_DATA_ACCESS_MUTEX c then (c, [])
  else
    match RECEIVED_DATA c with
    | [] => (c, [])
    | firstData :: rest =>
        let c := set_RECEIVED_DATA rest c in
        (c, if mOnDataReceivedCallback c
            then [ReceivedCallback firstData] else [])
    end.

(** The four stages of [update], in the order of the source. *)

Definition update_newData (c : t) : t :=
  if NEW_DATA_RECEIVED_MUTEX c then
    set_NEW_DATA_RECEIVED_MUTEX false
      (set_RECEIVED_DATA (RECEIVED_DATA c ++ [NEW_RECEIVED_DATA c]) c)
  else c.

Definition update_sentStatus (c : t) : result (t * list ClientEvent) :=
  if DATA_SENT_UPDATE_MUTEX c then
    c <- (if ESPNowSentStatus_eqb (LAST_SENT_STATUS c) PartialFail then
            match mNextDataToSend c with
            | None => Fault BadOptionalAccess
            | Some d =>
                if SendingData.maxTriesLeft d =? 0
                then Ok (set_LAST_SENT_STATUS Fail c) else Ok c
            end
          else Ok c) ;;
    ' (c, ev) <-
      (if ESPNowSentStatus_eqb (LAST_SENT_STATUS c) Fail
          || ESPNowSentStatus_eqb (LAST_SENT_STATUS c) SendSuccess then
         ' (c, ev) <-
           (if mOnDataSentCallback c then
              match mNextDataToSend c with
              | None => Fault BadOptionalAccess
              | Some d =>
                  let c :=
                    if isAddressMatching (SendingData.destAddress d)
                         BROADCAST_ADDRESS
                    then set_LAST_SENT_STATUS SendBroadcast c else c in
                  Ok (c, [SentCallback (LAST_SENT_STATUS c)])
              end
            else Ok (c, [])) ;;
         Ok (set_WAITING_FOR_DATA_SENT_MUTEX false
               (set_mNextDataToSend None c), ev)
       else Ok (c, [])) ;;
    Ok (set_LAST_SENT_STATUS Undetermined
          (set_DATA_SENT_UPDATE_MUTEX false c), ev)
  else Ok (c, []).

(** The condition under which [update] passes the staged frame to
    [sendNow]. *)
Definition sendNowDue (c : t) (time : Z) : bool :=
  negb (DATA_SENT_UPDATE_MUTEX c)
  && negb (WAITING_FOR_DATA_SENT_MUTEX c)
  && (match mNextDataToSend c with Some _ => true | None => false end)
  && (u_long (time - mLastMessageSentTs c) >=? mMessageSendInterval c).

Definition update_sendStaged (c : t) (time status : Z) : t :=
  match mNextDataToSend c with
  | Some dataToSend =>
      if sendNowDue c time
      then
        let c := set_mLastMessageSentTs time c in
        let c := fst (sendNow c status) in
        set_mNextDataToSend
          (Some (SendingData.set_maxTriesLeft
                   (u8 (SendingData.maxTriesLeft dataToSend - 1)) dataToSend))
          c
      else c
  | None => c
  end.

Definition update_process (c : t) (time : Z) : t * list ClientEvent :=
  if (u_long (time - mLastMessageProcessedTs c) >=? mMessageProcessInterval c)
     && negb (WAITING_FOR_DATA_SENT_MUTEX c)
  then processMessage (set_mMessageProcessInterval time c)
  else (c, []).

(** [void ESPNowClient::update()] at [millis() = time]; [status] is the
    driver's answer should this call reach [esp_now_send]. *)
Definition update (c : t) (time status : Z) : result (t * list ClientEvent) :=
  let c := update_newData c in
  ' (c, ev1) <- update_sentStatus c ;;
  let c := update_sendStaged c time status in
  let '(c, ev2) := update_process c time in
  Ok (c, ev1 ++ ev2).

(** The interrupt handlers. *)

Definition processReceivedData (c : t) (macAddress : address)
    (data : list Z) (dataLength : Z) : t :=
  if dataLength <? 18 then c
  else
    set_NEW_DATA_RECEIVED_MUTEX true
      (set_NEW_RECEIVED_DATA (ReceivedData.make macAddress data dataLength) c).

Definition onDataReceived (c : t) (mac_addr : address) (data : list Z)
    (data_len : Z) : t :=
  if RECIEVED_DATA_ACCESS_MUTEX c then c
  else
    set_RECIEVED_DATA_ACCESS_MUTEX false
      (processReceivedData (set_RECIEVED_DATA_ACCESS_MUTEX true c)
         mac_addr data (u8 data_len)).

Definition processDataSent (c : t) (status : Z) : t :=
  set_DATA_SENT_UPDATE_MUTEX true
    (set_LAST_SENT_STATUS (if status =? 0 then SendSuccess else PartialFail) c).

Definition onDataSent (c : t) (status : Z) : t := processDataSent c status.

Definition setOnDataReceivedCallback (c : t) (bound : bool) : t :=
  set_mOnDataReceivedCallback bound c.

Definition setOnDataSentCallback (c : t) (bound : bool) : t :=
  set_mOnDataSentCallback bound c.

End ESPNowClient.

(** ** QuackMeshDevice.h *)

(** One invocation of a callback that the application bound with
    [setOnMessageCallback] or [setOnMessageStatusCallback]. *)
Inductive AppEvent : Type :=
| OnMessage (type : Z) (srcAddress : address) (data : list Z) (dataLength : Z)
| OnMessageStatus (status : ESPNowSentStatus).

Module QuackMeshDevice.

Record t : Type := mk {
  mMessageQueue : list EnqueuedMessage.t;
  mMessagesLeftToConfirm : list ConfirmedMessage.t;
  mSeenMessages : list SeenMessageEntry.t;
  mMaxSeenMessagesQueueSize : Z;
  mSeenMessagesCleanupUpdateTs : Z;
  mSeenMessagesCleanupInterval : Z;
  mSeenMessagesCleanupTimeout : Z;
  mLastTimeoutCheckTs : Z;
  mMessageSendingInProgress : bool;
  mClient : ESPNowClient.t;
  mSentStatusCallback : bool;
  mOnMessageCallback : bool;
  idid : Z;                       (* the file-scope [uint8_t idid] *)
  app_trace : list AppEvent       (* log of the application callbacks *)
}.

(** The member initialisers of the header. *)
Definition init (mac : address) : t :=
  mk [] [] [] 10 0 1000 2000 0 false (ESPNowClient.init mac) false false 0 [].

Definition set_mMessageQueue v d :=
  mk v (mMessagesLeftToConfirm d) (mSeenMessages d)
     (mMaxSeenMessagesQueueSize d) (mSeenMessagesCleanupUpdateTs d)
     (mSeenMessagesCleanupInterval d) (mSeenMessagesCleanupTimeout d)
     (mLastTimeoutCheckTs d) (mMessageSendingInProgress d) (mClient d)
     (mSentStatusCallback d) (mOnMessageCallback d) (idid d) (app_trace d).

Definition set_mMessagesLeftToConfirm v d :=
  mk (mMessageQueue d) v (mSeenMessages d)
     (mMaxSeenMessagesQueueSize d) (mSeenMessagesCleanupUpdateTs d)
     (mSeenMessagesCleanupInterval d) (mSeenMessagesCleanupTimeout d)
     (mLastTimeoutCheckTs d) (mMessageSendingInProgress d) (mClient d)
     (mSentStatusCallback d) (mOnMessageCallback d) (idid d) (app_trace d).

Definition set_mSeenMessages v d :=
  mk (mMessageQueue d) (mMessagesLeftToConfirm d) v
     (mMaxSeenMessagesQueueSize d) (mSeenMessagesCleanupUpdateTs d)
     (mSeenMessagesCleanupInterval d) (mSeenMessagesCleanupTimeout d)
     (mLastTimeoutCheckTs d) (mMessageSendingInProgress d) (mClient d)
     (mSentStatusCallback d) (mOnMessageCallback d) (idid d) (app_trace d).

Definition set_mSeenMessagesCleanupUpdateTs v d :=
  mk (mMessageQueue d) (mMessagesLeftToConfirm d) (mSeenMessages d)
     (mMaxSeenMessagesQueueSize d) v
     (mSeenMessagesCleanupInterval d) (mSeenMessagesCleanupTimeout d)
     (mLastTimeoutCheckTs d) (mMessageSendingInProgress d) (mClient d)
     (mSentStatusCallback d) (mOnMessageCallback d) (idid d) (app_trace d).

Definition set_mLastTimeoutCheckTs v d :=
  mk (mMessageQueue d) (mMessagesLeftToConfirm d) (mSeenMessages d)
     (mMaxSeenMessagesQueueSize d) (mSeenMessagesCleanupUpdateTs d)
     (mSeenMessagesCleanupInterval d) (mSeenMessagesCleanupTimeout d)
     v (mMessageSendingInProgress d) (mClient d)
     (mSentStatusCallback d) (mOnMessageCallback d) (idid d) (app_trace d).

Definition set_mMessageSendingInProgress v d :=
  mk (mMessageQueue d) (mMessagesLeftToConfirm d) (mSeenMessages d)
     (mMaxSeenMessagesQueueSize d) (mSeenMessagesCleanupUpdateTs d)
     (mSeenMessagesCleanupInterval d) (mSeenMessagesCleanupTimeout d)
     (mLastTimeoutCheckTs d) v (mClient d)
     (mSentStatusCallback d) (mOnMessageCallback d) (idid d) (app_trace d).

Definition set_mClient v d :=
  mk (mMessageQueue d) (mMessagesLeftToConfirm d) (mSeenMessages d)
     (mMaxSeenMessagesQueueSize d) (mSeenMessagesCleanupUpdateTs d)
     (mSeenMessagesCleanupInterval d) (mSeenMessagesCleanupTimeout d)
     (mLastTimeoutCheckTs d) (mMessageSendingInProgress d) v
     (mSentStatusCallback d) (mOnMessageCallback d) (idid d) (app_trace d).

Definition set_mSentStatusCallback v d :=
  mk (mMessageQueue d) (mMessagesLeftToConfirm d) (mSeenMessages d)
     (mMaxSeenMessagesQueueSize d) (mSeenMessagesCleanupUpdateTs d)
     (mSeenMessagesCleanupInterval d) (mSeenMessagesCleanupTimeout d)
     (mLastTimeoutCheckTs d) (mMessageSendingInProgress d) (mClient d)
     v (mOnMessageCallback d) (idid d) (app_trace d).

Definition set_mOnMessageCallback v d :=
  mk (mMessageQueue d) (mMessagesLeftToConfirm d) (mSeenMessages d)
     (mMaxSeenMessagesQueueSize d) (mSeenMessagesCleanupUpdateTs d)
     (mSeenMessagesCleanupInterval d) (mSeenMessagesCleanupTimeout d)
     (mLastTimeoutCheckTs d) (mMessageSendingInProgress d) (mClient d)
     (mSentStatusCallback d) v (idid d) (app_trace d).

Definition set_idid v d :=
  mk (mMessageQueue d) (mMessagesLeftToConfirm d) (mSeenMessages d)
     (mMaxSeenMessagesQueueSize d) (mSeenMessagesCleanupUpdateTs d)
     (mSeenMessagesCleanupInterval d) (mSeenMessagesCleanupTimeout d)
     (mLastTimeoutCheckTs d) (mMessageSendingInProgress d) (mClient d)
     (mSentStatusCallback d) (mOnMessageCallback d) v (app_trace d).

Definition set_app_trace v d :=
  mk (mMessageQueue d) (mMessagesLeftToConfirm d) (mSeenMessages d)
     (mMaxSeenMessagesQueueSize d) (mSeenMessagesCleanupUpdateTs d)
     (mSeenMessagesCleanupInterval d) (mSeenMessagesCleanupTimeout d)
     (mLastTimeoutCheckTs d) (mMessageSendingInProgress d) (mClient d)
     (mSentStatusCallback d) (mOnMessageCallback d) (idid d) v.

(** An application callback runs: the call is appended to the log. *)
Definition invoke (e : AppEvent) (d : t) : t :=
  set_app_trace (app_trace d ++ [e]) d.

Definition getMACAddress (d : t) : address :=
  ESPNowClient.mMACAddress (mClient d).

Definition setOnMessageStatusCallback (d : t) (bound : bool) : t :=
  set_mSentStatusCallback bound d.

Definition setOnMessageCallback (d : t) (bound : bool) : t :=
  set_mOnMessageCallback bound d.

(** [getNewMessageId]: [return idid++] on a [uint8_t]. *)
Definition getNewMessageId (d : t) : t * Z :=
  (set_idid (u8 (idid d + 1)) d, idid d).

(** The non-virtual [getMACAddressForDestination] of the device. *)
Definition getMACAddressForDestination (d : t) (destination : address)
    : address :=
  BROADCAST_ADDRESS.

Definition enqueueNewMessage (d : t) (data : list Z) (dataLength : Z)
    (destination : address) (confirmed : bool) : t :=
  let '(d, newId) := getNewMessageId d in
  let newMessage :=
    Message.make [0; 0] (if confirmed then 1 else 0) newId 3
      (getMACAddress d) destination dataLength data in
  let newEnqueuedMessage :=
    EnqueuedMessage.mk (if confirmed then Confirmed else Unconfirmed) 0
      newMessage in
  set_mMessageQueue (mMessageQueue d ++ [newEnqueuedMessage]) d.

Definition sendMessage (d : t) (data : list Z) (dataLength : Z)
    (destination : address) : t :=
  enqueueNewMessage d data dataLength destination false.

Definition sendConfirmedMessage (d : t) (data : list Z) (dataLength : Z)
    (destination : address) : t :=
  enqueueNewMessage d data dataLength destination true.

Definition processNextMessage (d : t) : t :=
  if mMessageSendingInProgress d then d
  else
    match mMessageQueue d with
    | [] => d
    | nextMessage :: rest =>
        if negb (ESPNowClient.sendingPossible (mClient d)) then d
        else
          let message := EnqueuedMessage.message nextMessage in
          let msgSize := 18 + Message.len message in
          let '(c, sent) :=
            ESPNowClient.send (mClient d)
              (getMACAddressForDestination d (Message.destAddress message))
              (Message.bytes message msgSize) msgSize 2
              (EnqueuedMessage.channel nextMessage) in
          let d := set_mMessageSendingInProgress true (set_mClient c d) in
          if sent =? 0 then
            match EnqueuedMessage.type nextMessage with
            | Confirmed =>
                let confirmedMessage :=
                  ConfirmedMessage.mk true 1000 (Message.id message)
                    (Message.destAddress message) in
                set_mMessagesLeftToConfirm
                  (mMessagesLeftToConfirm d ++ [confirmedMessage]) d
            | _ => d
            end
          else
            set_mMessageQueue rest (set_mMessageSendingInProgress false d)
    end.

(** The kind under which a frame is looked up in, and entered into, the
    seen set (the same [if] chain opens [isMessageAlreadySeen] and
    [rememberMessage]). *)
Definition seenType (message : Message.t) : EnqueuedMessageType :=
  if Message.type message =? 0 then Unconfirmed
  else if Message.type message =? 1 then Confirmed
  else if Message.type message =? 3 then Acknowledgement
  else Forwarded.

Definition seenMatches (message : Message.t) (it : SeenMessageEntry.t) : bool :=
  (SeenMessageEntry.timestamp it >? 0)
  && (SeenMessageEntry.id it =? Message.id message)
  && isAddressMatching (SeenMessageEntry.srcAddress it)
       (Message.srcAddress message)
  && isAddressMatching (SeenMessageEntry.destAddress it)
       (Message.destAddress message)
  && EnqueuedMessageType_eqb (SeenMessageEntry.type it) (seenType message).

Definition isMessageAlreadySeen (d : t) (message : Message.t) : bool :=
  existsb (seenMatches message) (mSeenMessages d).

Definition rememberMessage (d : t) (message : Message.t) : t :=
  if isMessageAlreadySeen d message then d
  else
    let newSeenMessage :=
      SeenMessageEntry.mk (Message.id message) (Message.srcAddress message)
        (Message.destAddress message) (mSeenMessagesCleanupTimeout d)
        (seenType message) in
    let seen :=
      if Z.of_nat (length (mSeenMessages d)) >=? mMaxSeenMessagesQueueSize d
      then tl (mSeenMessages d) else mSeenMessages d in
    set_mSeenMessages (seen ++ [newSeenMessage]) d.

(** The loop of [updateSeenMessages]: [timestamp] is a [u_long], so the
    subtraction wraps and [timestamp <= 0] holds at [0] only. *)
Fixpoint ageSeenMessages (diff : Z) (seen : list SeenMessageEntry.t)
    : list SeenMessageEntry.t :=
  match seen with
  | [] => []
  | it :: rest =>
      let timestamp := u_long (SeenMessageEntry.timestamp it - diff) in
      if timestamp <=? 0 then ageSeenMessages diff rest
      else
        SeenMessageEntry.mk (SeenMessageEntry.id it)
          (SeenMessageEntry.srcAddress it) (SeenMessageEntry.destAddress it)
          timestamp (SeenMessageEntry.type it)
        :: ageSeenMessages diff rest
  end.

Definition updateSeenMessages (d : t) (now : Z) : t :=
  if u_long (now - mSeenMessagesCleanupUpdateTs d)
     <? mSeenMessagesCleanupInterval d
  then d
  else
    let diff := u_long (now - mSeenMessagesCleanupUpdateTs d) in
    let d := set_mSeenMessagesCleanupUpdateTs now d in
    set_mSeenMessages (ageSeenMessages diff (mSeenMessages d)) d.

(** The loop of [checkForConfirmationTimeout]: the entries that stay and
    the number of entries erased.  [timestamp] is an [int16_t] and [diff]
    a [u_long]: the difference is taken in [u_long] and stored back into
    16 bits. *)
Fixpoint ageConfirmations (diff : Z) (pending : list ConfirmedMessage.t)
    : list ConfirmedMessage.t * nat :=
  match pending with
  | [] => ([], O)
  | it :: rest =>
      let timestamp := i16 (u_long (ConfirmedMessage.timestamp it - diff)) in
      let '(kept, erased) := ageConfirmations diff rest in
      if timestamp <=? 0 then (kept, S erased)
      else
        (ConfirmedMessage.mk (ConfirmedMessage.isSent it) timestamp
           (ConfirmedMessage.id it) (ConfirmedMessage.destAddress it)
         :: kept, erased)
  end.

Definition checkForConfirmationTimeout (d : t) (now : Z) : t :=
  let diff := u_long (now - mLastTimeoutCheckTs d) in
  let d := set_mLastTimeoutCheckTs now d in
  let '(kept, erased) := ageConfirmations diff (mMessagesLeftToConfirm d) in
  let d := set_mMessagesLeftToConfirm kept d in
  if mSentStatusCallback d
  then set_app_trace (app_trace d ++ repeat (OnMessageStatus Fail) erased) d
  else d.

(** Erase the first element that satisfies [p]; [None] when there is
    none (the loops of [processReceivedAcknowledgement] and
    [onMessageSent] run to the end). *)
Fixpoint eraseFirst {A : Type} (p : A -> bool) (l : list A)
    : option (list A) :=
  match l with
  | [] => None
  | it :: rest =>
      if p it then Some rest
      else option_map (cons it) (eraseFirst p rest)
  end.

Definition confirms (id : Z) (addr : address) (it : ConfirmedMessage.t)
    : bool :=
  (ConfirmedMessage.id it =? id)
  && isAddressMatching (ConfirmedMessage.destAddress it) addr.

Definition processReceivedAcknowledgement (d : t) (message : Message.t) : t :=
  match eraseFirst (confirms (Message.id message) (Message.srcAddress message))
          (mMessagesLeftToConfirm d) with
  | Some remaining =>
      let d := set_mMessagesLeftToConfirm remaining d in
      if mSentStatusCallback d
      then invoke (OnMessageStatus SendSuccess) d else d
  | None => d
  end.

Definition sendAcknowledgement (d : t) (message : Message.t) : t :=
  let acknowledgementMessage :=
    Message.make [0; 0] 3 (Message.id message) 3 (getMACAddress d)
      (Message.srcAddress message) 0 [] in
  let newEnqueuedMessage :=
    EnqueuedMessage.mk Acknowledgement 0 acknowledgementMessage in
  set_mMessageQueue (mMessageQueue d ++ [newEnqueuedMessage]) d.

Definition deliver (type : Z) (message : Message.t) (d : t) : t :=
  invoke (OnMessage type (Message.srcAddress message) (Message.data message)
            (Message.len message)) d.

Definition handleOwnMessage (d : t) (message : Message.t) : result t :=
  if isMessageAlreadySeen d message then Ok d
  else
    let d := rememberMessage d message in
    if Message.type message =? 0 then
      Ok (if mOnMessageCallback d then deliver 0 message d else d)
    else if Message.type message =? 1 then
      let d := sendAcknowledgement d message in
      Ok (if mOnMessageCallback d then deliver 1 message d else d)
    else if Message.type message =? 3 then
      Ok (processReceivedAcknowledgement d message)
    else
      (* default: the callback is called without a test *)
      if mOnMessageCallback d
      then Ok (deliver (Message.type message) message d)
      else Fault BadFunctionCall.

(** The device throws a frame for another node away. *)
Definition handleForeignMessage (d : t) (message : Message.t) : t := d.

Definition onMessageReceived (handleForeign : t -> Message.t -> t)
    (d : t) (data : ReceivedData.t) : result t :=
  let message :=
    Message.of_bytes
      (firstn (Z.to_nat (ReceivedData.dataLength data))
         (ReceivedData.data data)) in
  if isAddressMatching (Message.destAddress message) (getMACAddress d)
  then handleOwnMessage d message
  else Ok (handleForeign d message).

Definition onMessageSent (d : t) (status : ESPNowSentStatus) : result t :=
  match mMessageQueue d with
  | [] => Fault FrontOfEmptyQueue
  | front :: rest =>
      let d :=
        match EnqueuedMessage.type front with
        | Confirmed =>
            if ESPNowSentStatus_eqb status Fail then
              let d :=
                match eraseFirst
                        (confirms
                           (Message.id (EnqueuedMessage.message front))
                           (Message.destAddress
                              (EnqueuedMessage.message front)))
                        (mMessagesLeftToConfirm d) with
                | Some remaining => set_mMessagesLeftToConfirm remaining d
                | None => d
                end in
              if mSentStatusCallback d
              then invoke (OnMessageStatus status) d else d
            else d
        | _ => d
        end in
      Ok (set_mMessageQueue rest (set_mMessageSendingInProgress false d))
  end.

(** The client calls back into the device while [mClient.update()] runs;
    the handlers touch no member of the client, so they are run on the
    events that the client's [update] returns, in order. *)
Definition dispatch (handleForeign : t -> Message.t -> t) (d : t)
    (e : ClientEvent) : result t :=
  match e with
  | SentCallback status => onMessageSent d status
  | ReceivedCallback data => onMessageReceived handleForeign d data
  end.

Fixpoint dispatchAll (handleForeign : t -> Message.t -> t) (d : t)
    (es : list ClientEvent) : result t :=
  match es with
  | [] => Ok d
  | e :: es' =>
      d <- dispatch handleForeign d e ;;
      dispatchAll handleForeign d es'
  end.

(** [begin()] at [millis() = now].  [mClient.begin()] starts the driver
    and reads the MAC address, which the model fixes in [init]. *)
Definition begin (d : t) (now : Z) : t :=
  let c := ESPNowClient.setOnDataReceivedCallback (mClient d) true in
  let c := ESPNowClient.setOnDataSentCallback c true in
  set_mLastTimeoutCheckTs now
    (set_mSeenMessagesCleanupUpdateTs now (set_mClient c d)).

(** [update()] at [millis() = now]; [handleForeign] is the virtual
    [handleForeignMessage] of the object. *)
Definition update (handleForeign : t -> Message.t -> t) (d : t)
    (now status : Z) : result t :=
  ' (c, es) <- ESPNowClient.update (mClient d) now status ;;
  d <- dispatchAll handleForeign (set_mClient c d) es ;;
  let d := updateSeenMessages d now in
  let d := checkForConfirmationTimeout d now in
  Ok (processNextMessage d).

End QuackMeshDevice.

(** ** QuackMeshRouter.h *)

Module QuackMeshRouter.

(** A router is a device (the inherited members are [base]) with a
    routing table. *)
Record t : Type := mk {
  base : QuackMeshDevice.t;
  mLastRoutingTableUpdateTs : Z;
  mRoutingTableUpdateInterval : Z;
  mRoutingTableUpdateTimeout : Z;
  mRoutingTable : list RoutingEntry.t;
  mMaxRoutingEntries : Z
}.

Definition init (mac : address) : t :=
  mk (QuackMeshDevice.init mac) 0 100 10000 [] 10.

Definition set_base v r :=
  mk v (mLastRoutingTableUpdateTs r) (mRoutingTableUpdateInterval r)
     (mRoutingTableUpdateTimeout r) (mRoutingTable r) (mMaxRoutingEntries r).

Definition set_mLastRoutingTableUpdateTs v r :=
  mk (base r) v (mRoutingTableUpdateInterval r)
     (mRoutingTableUpdateTimeout r) (mRoutingTable r) (mMaxRoutingEntries r).

Definition set_mRoutingTable v r :=
  mk (base r) (mLastRoutingTableUpdateTs r) (mRoutingTableUpdateInterval r)
     (mRoutingTableUpdateTimeout r) v (mMaxRoutingEntries r).

(** The loop of [addOrUpdateRoutingInfo]: [Some table'] when an entry for
    [destination] with more hops was found and overwritten (the early
    [return]), [None] when the loop ran to the end.  The iterator
    [oldestEntry] of the source is assigned in the loop and never read
    after it; it has no part in the result. *)
Fixpoint updateRoutingInfo (timeout : Z) (destination link : address)
    (hops : Z) (table : list RoutingEntry.t) : option (list RoutingEntry.t) :=
  match table with
  | [] => None
  | it :: rest =>
      if isAddressMatching (RoutingEntry.destination it) destination
         && (hops <? RoutingEntry.hops it)
      then
        Some (RoutingEntry.mk (RoutingEntry.destination it) link hops
                (i16 timeout) :: rest)
      else
        option_map (cons it)
          (updateRoutingInfo timeout destination link hops rest)
  end.

Definition addOrUpdateRoutingInfo (r : t) (destination link : address)
    (hops : Z) : t :=
  match updateRoutingInfo (mRoutingTableUpdateTimeout r) destination link
          hops (mRoutingTable r) with
  | Some table => set_mRoutingTable table r
  | None =>
      let newRoutingInfo :=
        RoutingEntry.mk destination link hops
          (i16 (mRoutingTableUpdateTimeout r)) in
      set_mRoutingTable (mRoutingTable r ++ [newRoutingInfo]) r
  end.

(** [forwardMessage] reads and writes inherited members only. *)
Definition forwardMessage (d : QuackMeshDevice.t) (message : Message.t)
    : QuackMeshDevice.t :=
  if Message.hopCount message - 1 =? 0 then d
  else if QuackMeshDevice.isMessageAlreadySeen d message then d
  else
    let d := QuackMeshDevice.rememberMessage d message in
    let forwardingMessage :=
      Message.make [0; 0] (Message.type message) (Message.id message)
        (Message.hopCount message - 1) (Message.srcAddress message)
        (Message.destAddress message) (Message.len message)
        (Message.data message) in
    let newEnqueuedMessage :=
      EnqueuedMessage.mk Forwarded 0 forwardingMessage in
    QuackMeshDevice.set_mMessageQueue
      (QuackMeshDevice.mMessageQueue d ++ [newEnqueuedMessage]) d.

(** The override of the virtual [handleForeignMessage]. *)
Definition handleForeignMessage (d : QuackMeshDevice.t) (message : Message.t)
    : QuackMeshDevice.t :=
  forwardMessage d message.

(** The loop of [updateRoutingTable]; [timestamp] is an [int16_t]. *)
Fixpoint ageRoutingTable (diff : Z) (table : list RoutingEntry.t)
    : list RoutingEntry.t :=
  match table with
  | [] => []
  | it :: rest =>
      let timestamp := i16 (u_long (RoutingEntry.timestamp it - diff)) in
      if timestamp <=? 0 then ageRoutingTable diff rest
      else
        RoutingEntry.mk (RoutingEntry.destination it) (RoutingEntry.link it)
          (RoutingEntry.hops it) timestamp
        :: ageRoutingTable diff rest
  end.

Definition updateRoutingTable (r : t) (now : Z) : t :=
  if u_long (now - mLastRoutingTableUpdateTs r)
     <? mRoutingTableUpdateInterval r
  then r
  else
    let diff := u_long (now - mLastRoutingTableUpdateTs r) in
    let r := set_mLastRoutingTableUpdateTs now r in
    set_mRoutingTable (ageRoutingTable diff (mRoutingTable r)) r.

Fixpoint findLink (destination : address) (table : list RoutingEntry.t)
    : option address :=
  match table with
  | [] => None
  | it :: rest =>
      if isAddressMatching destination (RoutingEntry.destination it)
      then Some (RoutingEntry.link it)
      else findLink destination rest
  end.

(** The router's [getMACAddressForDestination].  The method of the base
    class is not virtual, and [processNextMessage], a member of the base
    class, calls the base version. *)
Definition getMACAddressForDestination (r : t) (destination : address)
    : address :=
  match findLink destination (mRoutingTable r) with
  | Some link => link
  | None => BROADCAST_ADDRESS
  end.

Definition begin (r : t) (now : Z) : t :=
  set_mLastRoutingTableUpdateTs now
    (set_base (QuackMeshDevice.begin (base r) now) r).

Definition update (r : t) (now status : Z) : result t :=
  d <- QuackMeshDevice.update handleForeignMessage (base r) now status ;;
  Ok (updateRoutingTable (set_base d r) now).

End QuackMeshRouter.

(** * Terms of the statements

    The predicates and functions in which the properties below are
    stated, and the concrete nodes, frames and runs of the examples. *)

(** An entry that [addOrUpdateRoutingInfo] overwrites: it is for the
    destination and has more hops than the new route. *)
Definition improves (destination : address) (hops : Z)
    (it : RoutingEntry.t) : bool :=
  isAddressMatching (RoutingEntry.destination it) destination
  && (hops <? RoutingEntry.hops it).

(** The routing table used in the examples: ten entries for the
    destinations [1:0:0:0:0:k], each two hops away over the same link. *)
Definition exampleEntry (k : Z) : RoutingEntry.t :=
  RoutingEntry.mk [1; 0; 0; 0; 0; k] [2; 0; 0; 0; 0; 1] 2 10000.

Definition fullRouter : QuackMeshRouter.t :=
  QuackMeshRouter.set_mRoutingTable
    (map exampleEntry [0; 1; 2; 3; 4; 5; 6; 7; 8; 9])
    (QuackMeshRouter.init [10; 0; 0; 0; 0; 1]).

Section FrameTerms.
Import QuackMeshDevice.

(** The entry that [rememberMessage] appends for a frame not yet seen. *)
Definition seenEntryOf (d : t) (m : Message.t) : SeenMessageEntry.t :=
  SeenMessageEntry.mk (Message.id m) (Message.srcAddress m)
    (Message.destAddress m) (mSeenMessagesCleanupTimeout d) (seenType m).

(** An entry with [timestamp] ms left, aged by [diff] ms. *)
Definition aged (diff : Z) (it : SeenMessageEntry.t) : SeenMessageEntry.t :=
  SeenMessageEntry.mk (SeenMessageEntry.id it)
    (SeenMessageEntry.srcAddress it) (SeenMessageEntry.destAddress it)
    (u_long (SeenMessageEntry.timestamp it - diff)) (SeenMessageEntry.type it).

(** The device used in the examples: node [A:0:0:0:0:1] after [begin()]
    at time [0], with both application callbacks bound. *)
Definition exampleDevice : t :=
  setOnMessageCallback
    (setOnMessageStatusCallback (begin (init [10; 0; 0; 0; 0; 1]) 0) true)
    true.

(** A confirmed frame with id [7] from [B:0:0:0:0:2] to the example
    device, payload [DE AD]. *)
Definition exampleFrame : Message.t :=
  Message.mk [0; 0] 1 7 3 [11; 0; 0; 0; 0; 2] [10; 0; 0; 0; 0; 1] 2
    [222; 173].

(** The frame that [forwardMessage] enqueues for [m]. *)
Definition forwarded (m : Message.t) : EnqueuedMessage.t :=
  EnqueuedMessage.mk Forwarded 0
    (Message.make [0; 0] (Message.type m) (Message.id m)
       (Message.hopCount m - 1) (Message.srcAddress m)
       (Message.destAddress m) (Message.len m) (Message.data m)).

(** A router at [A:0:0:0:0:1] receives a frame for [C:0:0:0:0:3] whose
    hop count is 0. *)
Definition hopZeroFrame : Message.t :=
  Message.mk [0; 0] 0 7 0 [11; 0; 0; 0; 0; 2] [12; 0; 0; 0; 0; 3] 2
    [222; 173].

(** The call of the application's message callback for frame [m]. *)
Definition delivery (m : Message.t) : AppEvent :=
  OnMessage (Message.type m) (Message.srcAddress m) (Message.data m)
    (Message.len m).

(** The acknowledgement that node [d] builds for frame [m]. *)
Definition acknowledgementFor (d : t) (m : Message.t) : Message.t :=
  Message.make [0; 0] 3 (Message.id m) 3 (getMACAddress d)
    (Message.srcAddress m) 0 [].

(** Node [A:0:0:0:0:1] after [begin()], no callback bound. *)
Definition silentDevice : t := begin (init [10; 0; 0; 0; 0; 1]) 0.

(** [exampleFrame] with another value in the type field. *)
Definition frameOfType (type : Z) : Message.t :=
  Message.mk [0; 0] type 7 3 [11; 0; 0; 0; 0; 2] [10; 0; 0; 0; 0; 1] 2
    [222; 173].

(** The acknowledgement frames waiting in the outbound queue. *)
Definition acknowledgements (d : t) : list EnqueuedMessage.t :=
  filter (fun e => EnqueuedMessageType_eqb (EnqueuedMessage.type e)
                     Acknowledgement)
    (mMessageQueue d).

(** Node [B:0:0:0:0:2] after [begin()], both callbacks bound. *)
Definition receiverDevice : t :=
  setOnMessageCallback
    (setOnMessageStatusCallback (begin (init [11; 0; 0; 0; 0; 2]) 0) true)
    true.

(** The example device has handed a Confirmed frame for
    [B:0:0:0:0:2] to its client. *)
Definition senderDevice : t :=
  processNextMessage
    (sendConfirmedMessage exampleDevice [222; 173] 2 [11; 0; 0; 0; 0; 2]).

(** The frame at the front of the sender's queue. *)
Definition sentFrame : Message.t :=
  Message.mk [0; 0] 1 0 3 [10; 0; 0; 0; 0; 1] [11; 0; 0; 0; 0; 2] 2
    [222; 173].

End FrameTerms.

(** ** A node in its environment

    What reaches a node from outside: the main loop calls [update()],
    the driver raises its two interrupts, the application sends. *)

Inductive Input : Type :=
| Loop (now status : Z)
| DataSent (status : Z)
| DataReceived (mac_addr : address) (data : list Z) (data_len : Z)
| SendMessage (data : list Z) (dataLength : Z) (destination : address)
| SendConfirmedMessage (data : list Z) (dataLength : Z)
    (destination : address).

Definition step (handleForeign : QuackMeshDevice.t -> Message.t -> QuackMeshDevice.t)
    (d : QuackMeshDevice.t) (i : Input) : result QuackMeshDevice.t :=
  match i with
  | Loop now status => QuackMeshDevice.update handleForeign d now status
  | DataSent status =>
      Ok (QuackMeshDevice.set_mClient
            (ESPNowClient.onDataSent (QuackMeshDevice.mClient d) status) d)
  | DataReceived mac_addr data data_len =>
      Ok (QuackMeshDevice.set_mClient
            (ESPNowClient.onDataReceived (QuackMeshDevice.mClient d)
               mac_addr data data_len) d)
  | SendMessage data dataLength destination =>
      Ok (QuackMeshDevice.sendMessage d data dataLength destination)
  | SendConfirmedMessage data dataLength destination =>
      Ok (QuackMeshDevice.sendConfirmedMessage d data dataLength destination)
  end.

Fixpoint run (handleForeign : QuackMeshDevice.t -> Message.t -> QuackMeshDevice.t)
    (d : QuackMeshDevice.t) (inputs : list Input) : result QuackMeshDevice.t :=
  match inputs with
  | [] => Ok d
  | i :: rest =>
      d <- step handleForeign d i ;;
      run handleForeign d rest
  end.

Section CallbackTerms.
Import QuackMeshDevice.

(** A pending confirmation that the timeout check run with [diff] erases. *)
Definition expires (diff : Z) (it : ConfirmedMessage.t) : bool :=
  i16 (u_long (ConfirmedMessage.timestamp it - diff)) <=? 0.

Definition isBroadcastStatus (e : AppEvent) : bool :=
  match e with
  | OnMessageStatus SendBroadcast => true
  | _ => false
  end.

(** No call of the status callback in the log carries [SendBroadcast]. *)
Definition broadcastFree (trace : list AppEvent) : Prop :=
  existsb isBroadcastStatus trace = false.

(** The example device has handed a Confirmed frame for the broadcast
    address to its client. *)
Definition broadcastSender : t :=
  processNextMessage
    (sendConfirmedMessage exampleDevice [222; 173] 2 BROADCAST_ADDRESS).

(** The inputs of a Confirmed send to the broadcast address that no node
    acknowledges: the frame is handed to the client at 100 ms, goes on
    air at 200 ms, the driver reports it sent, and the main loop runs
    again at 300 ms and at 1100 ms. *)
Definition unacknowledgedBroadcast : list Input :=
  [ SendConfirmedMessage [222; 173] 2 BROADCAST_ADDRESS;
    Loop 100 0; Loop 200 0; DataSent 0; Loop 300 0; Loop 1100 0 ].

(** The calls of the application callbacks in a finished run. *)
Definition callbacks (r : result t) : option (list AppEvent) :=
  match r with
  | Ok d => Some (app_trace d)
  | Fault _ => None
  end.

End CallbackTerms.

Section ClientTerms.
Import ESPNowClient.

(** The statuses passed to the sent callback, in order. *)
Definition sentStatuses (es : list ClientEvent) : list ESPNowSentStatus :=
  flat_map (fun e => match e with
                     | SentCallback status => [status]
                     | ReceivedCallback _ => []
                     end) es.

(** What the sent callback receives for the recorded status [last] of
    the staged frame [d]: the statuses [Fail] and [SendSuccess] are
    final, [PartialFail] is final when no try is left, and a final status
    for the broadcast address is replaced by [SendBroadcast]. *)
Definition delivered (last : ESPNowSentStatus) (d : SendingData.t)
    : list ESPNowSentStatus :=
  let remap status :=
    if isAddressMatching (SendingData.destAddress d) BROADCAST_ADDRESS
    then SendBroadcast else status in
  match last with
  | SendSuccess => [remap SendSuccess]
  | Fail => [remap Fail]
  | PartialFail =>
      if SendingData.maxTriesLeft d =? 0 then [remap Fail] else []
  | _ => []
  end.

(** A client with both callbacks bound stages a frame for the broadcast
    address; at 100 ms [update] passes it to the driver, which returns an
    error. *)
Definition failedBroadcast : t :=
  let c := setOnDataSentCallback
             (setOnDataReceivedCallback (init [10; 0; 0; 0; 0; 1]) true)
             true in
  let c := fst (send c BROADCAST_ADDRESS [1; 2; 3] 3 2 0) in
  match update c 100 1 with
  | Ok (c, _) => c
  | Fault _ => c
  end.

(** The same with a unicast destination. *)
Definition failedUnicast : t :=
  let c := setOnDataSentCallback
             (setOnDataReceivedCallback (init [10; 0; 0; 0; 0; 1]) true)
             true in
  let c := fst (send c [11; 0; 0; 0; 0; 2] [1; 2; 3] 3 2 0) in
  match update c 100 1 with
  | Ok (c, _) => c
  | Fault _ => c
  end.

(** The statuses passed to the sent callback by a finished [update]. *)
Definition sentCallbacks (r : result (t * list ClientEvent))
    : option (list ESPNowSentStatus) :=
  match r with
  | Ok (_, es) => Some (sentStatuses es)
  | Fault _ => None
  end.

(** [update] at [time] reaches [sendNow]: after the first two stages the
    condition of the third holds. *)
Definition reachesSendNow (c : t) (time : Z) : bool :=
  match update_sentStatus (update_newData c) with
  | Ok (c, _) => sendNowDue c time
  | Fault _ => false
  end.

(** The states in which a frame is staged and has not been passed to the
    driver: [send] accepted it, and since then the client has only run
    calls of [update] that did not reach [sendNow] and kept the frame,
    interrupts, and further accepted calls of [send]. *)
Inductive Staged : t -> Prop :=
| Staged_send c macAddress data dataLength maxSendTries channel :
    WAITING_FOR_DATA_SENT_MUTEX c = false ->
    Staged (fst (send c macAddress data dataLength maxSendTries channel))
| Staged_update c time status c' es :
    Staged c ->
    update c time status = Ok (c', es) ->
    reachesSendNow c time = false ->
    mNextDataToSend c' <> None ->
    Staged c'
| Staged_onDataReceived c mac_addr data data_len :
    Staged c -> Staged (onDataReceived c mac_addr data data_len)
| Staged_onDataSent c status :
    Staged c -> Staged (onDataSent c status).

(** A fresh client with a first frame staged, after one [update] at
    50 ms (too early for the send interval of 100 ms). *)
Definition stagedClient : t :=
  let c := fst (send (init [10; 0; 0; 0; 0; 1]) [11; 0; 0; 0; 0; 2]
                  [1; 2; 3] 3 2 0) in
  match update c 50 0 with
  | Ok (c, _) => c
  | Fault _ => c
  end.

(** While the waiting flag is up the client holds the frame it passed to
    the driver. *)
Definition holdsFrame (c : t) : Prop :=
  WAITING_FOR_DATA_SENT_MUTEX c = true -> mNextDataToSend c <> None.

End ClientTerms.

Section ScenarioTerms.
Import QuackMeshDevice.

(** The bytes of the frame that the client of a node holds for sending. *)
Definition stagedBytes (r : result t) : list Z :=
  match r with
  | Ok d =>
      match ESPNowClient.mNextDataToSend (mClient d) with
      | Some s => SendingData.data s
      | None => []
      end
  | Fault _ => []
  end.

(** Scenario "direct confirmed delivery": the example device sends a
    Confirmed frame to [B:0:0:0:0:2]. *)
Definition senderUntilOnAir : result t :=
  run handleForeignMessage exampleDevice
    [ SendConfirmedMessage [222; 173] 2 [11; 0; 0; 0; 0; 2];
      Loop 100 0; Loop 200 0 ].

(** The receiver gets the bytes that the sender put on air, and a loop later
    passes its acknowledgement to the driver. *)
Definition receiverRun : result t :=
  run handleForeignMessage receiverDevice
    [ DataReceived [10; 0; 0; 0; 0; 1] (stagedBytes senderUntilOnAir)
        (Z.of_nat (length (stagedBytes senderUntilOnAir)));
      Loop 100 0; Loop 200 0 ].

(** The sender learns that its frame went out, then gets the bytes of
    the acknowledgement. *)
Definition senderRun : result t :=
  d <- senderUntilOnAir ;;
  run handleForeignMessage d
    [ DataSent 0; Loop 300 0;
      DataReceived [11; 0; 0; 0; 0; 2] (stagedBytes receiverRun)
        (Z.of_nat (length (stagedBytes receiverRun)));
      Loop 400 0 ].

End ScenarioTerms.

Section CapTerms.
Import QuackMeshDevice.

(** The seen set is within its cap. *)
Definition seenWithinCap (d : t) : Prop :=
  1 <= mMaxSeenMessagesQueueSize d
  /\ Z.of_nat (length (mSeenMessages d)) <= mMaxSeenMessagesQueueSize d.

(** The number of calls of the status callback in a log. *)
Definition statusCalls (trace : list AppEvent) : nat :=
  length (filter (fun e => match e with
                           | OnMessageStatus _ => true
                           | OnMessage _ _ _ _ => false
                           end) trace).

End CapTerms.

(** * Terms of the further properties *)

(** A frame whose arrays have the sizes of the struct and whose payload
    has [len] bytes, [len] within the 232 bytes of the payload array. *)
Definition frameFits (m : Message.t) : Prop :=
  length (Message.networkID m) = 2%nat
  /\ length (Message.srcAddress m) = 6%nat
  /\ length (Message.destAddress m) = 6%nat
  /\ 0 <= Message.len m <= 232
  /\ length (Message.data m) = Z.to_nat (Message.len m).

(** The first entry of the routing table that [getMACAddressForDestination]
    matches with [destination]. *)
Fixpoint firstEntryFor (destination : address) (table : list RoutingEntry.t)
    : option RoutingEntry.t :=
  match table with
  | [] => None
  | it :: rest =>
      if isAddressMatching destination (RoutingEntry.destination it)
      then Some it else firstEntryFor destination rest
  end.

(** A routing entry with [diff] ms less to live. *)
Definition agedRoute (diff : Z) (it : RoutingEntry.t) : RoutingEntry.t :=
  RoutingEntry.mk (RoutingEntry.destination it) (RoutingEntry.link it)
    (RoutingEntry.hops it) (RoutingEntry.timestamp it - diff).

(** The remaining time of a routing entry is positive and fits the
    [int16_t] field. *)
Definition routeAlive (it : RoutingEntry.t) : bool :=
  (0 <? RoutingEntry.timestamp it) && (RoutingEntry.timestamp it <=? 32767).

(** A router that knows one route, to [1:0:0:0:0:0], five hops away. *)
Definition oneRouteRouter : QuackMeshRouter.t :=
  QuackMeshRouter.set_mRoutingTable
    [RoutingEntry.mk [1; 0; 0; 0; 0; 0] [2; 0; 0; 0; 0; 1] 5 10000]
    (QuackMeshRouter.init [10; 0; 0; 0; 0; 1]).

Section ClientRunTerms.
Import ESPNowClient.

(** Calls of [update] in a row, with no interrupt in between: the state
    at the end and everything handed to the callbacks. *)
Fixpoint updates (c : t) (calls : list (Z * Z))
    : result (t * list ClientEvent) :=
  match calls with
  | [] => Ok (c, [])
  | (time, status) :: rest =>
      ' (c, es1) <- update c time status ;;
      ' (c, es2) <- updates c rest ;;
      Ok (c, es1 ++ es2)
  end.

(** A client that passed a frame to the driver with one try left and was
    told by the driver that the frame was not delivered; a received frame
    waits in its queue. *)
Definition refusedClient : t :=
  let c := setOnDataSentCallback
             (setOnDataReceivedCallback (init [10; 0; 0; 0; 0; 1]) true)
             true in
  let c := fst (send c [11; 0; 0; 0; 0; 2] [1; 2; 3] 3 2 0) in
  let c := match update c 100 0 with Ok (c, _) => c | Fault _ => c end in
  let c := onDataReceived c [11; 0; 0; 0; 0; 2]
             [0; 0; 0; 1; 3; 11; 0; 0; 0; 0; 2; 10; 0; 0; 0; 0; 1; 0] 18 in
  onDataSent c 1.

End ClientRunTerms.

Section NodeTerms.
Import QuackMeshDevice.

(** The client holds a frame whenever a delivery report is pending or
    awaited. *)
Definition clientSound (c : ESPNowClient.t) : Prop :=
  (ESPNowClient.DATA_SENT_UPDATE_MUTEX c = true ->
   ESPNowClient.mNextDataToSend c <> None)
  /\ (ESPNowClient.WAITING_FOR_DATA_SENT_MUTEX c = true ->
      ESPNowClient.mNextDataToSend c <> None).

(** The frame the client holds, if any, is for the broadcast address. *)
Definition stagedForBroadcast (c : ESPNowClient.t) : Prop :=
  forall s, ESPNowClient.mNextDataToSend c = Some s ->
            isAddressMatching (SendingData.destAddress s) BROADCAST_ADDRESS
            = true.

(** The state of a node in which no call of [update] can fault: the
    client is sound, the message callback is bound, and the outbound
    queue is not empty while the client holds a frame. *)
Definition nodeSound (d : t) : Prop :=
  clientSound (mClient d)
  /\ mOnMessageCallback d = true
  /\ (ESPNowClient.mNextDataToSend (mClient d) <> None ->
      mMessageQueue d <> []).

(** The driver raises the sent interrupt only while the client waits for
    a delivery report. *)
Fixpoint reportsFollowTransmissions (handleForeign : t -> Message.t -> t)
    (d : t) (inputs : list Input) : Prop :=
  match inputs with
  | [] => True
  | i :: rest =>
      match i with
      | DataSent _ =>
          ESPNowClient.WAITING_FOR_DATA_SENT_MUTEX (mClient d) = true
      | _ => True
      end
      /\ match step handleForeign d i with
         | Ok d1 => reportsFollowTransmissions handleForeign d1 rest
         | Fault _ => True
         end
  end.

Definition isConfirmedEntry (e : EnqueuedMessage.t) : bool :=
  EnqueuedMessageType_eqb (EnqueuedMessage.type e) Confirmed.

(** The Confirmed frames in the outbound queue that were not handed to
    the client yet. *)
Definition confirmedWaiting (d : t) : nat :=
  length
    (filter isConfirmedEntry
       (if mMessageSendingInProgress d then tl (mMessageQueue d)
        else mMessageQueue d)).

(** The calls of [sendConfirmedMessage] among the inputs. *)
Definition confirmedSends (inputs : list Input) : nat :=
  length
    (filter (fun i => match i with
                      | SendConfirmedMessage _ _ _ => true
                      | _ => false
                      end) inputs).

(** Status callbacks made, confirmations pending, and Confirmed frames
    still to be handed over. *)
Definition confirmationBudget (d : t) : nat :=
  statusCalls (app_trace d) + length (mMessagesLeftToConfirm d)
  + confirmedWaiting d.



(** A router in its environment: as [step] and [run], with the router's
    [update], which also ages the routing table. *)
Definition routerStep (r : QuackMeshRouter.t) (i : Input)
    : result QuackMeshRouter.t :=
  match i with
  | Loop now status => QuackMeshRouter.update r now status
  | _ =>
      d <- step QuackMeshRouter.handleForeignMessage
             (QuackMeshRouter.base r) i ;;
      Ok (QuackMeshRouter.set_base d r)
  end.

Fixpoint routerRun (r : QuackMeshRouter.t) (inputs : list Input)
    : result QuackMeshRouter.t :=
  match inputs with
  | [] => Ok r
  | i :: rest =>
      r <- routerStep r i ;;
      routerRun r rest
  end.

(** The example router after [begin()], both callbacks bound, with the
    ten routes of [fullRouter]. *)
Definition routingRouter : QuackMeshRouter.t :=
  QuackMeshRouter.set_base exampleDevice fullRouter.

End NodeTerms.

Section HookTerms.
Import QuackMeshDevice.

(** What both versions of the virtual [handleForeignMessage] have in
    common: they may append frames that are not of kind Confirmed to the
    outbound queue, and they leave the client, the callbacks, the log,
    the pending confirmations and the in-progress flag alone. *)
Definition onlyEnqueues (handleForeign : t -> Message.t -> t) : Prop :=
  forall d m,
    (exists extra,
        mMessageQueue (handleForeign d m) = mMessageQueue d ++ extra
        /\ filter isConfirmedEntry extra = [])
    /\ mClient (handleForeign d m) = mClient d
    /\ mOnMessageCallback (handleForeign d m) = mOnMessageCallback d
    /\ mSentStatusCallback (handleForeign d m) = mSentStatusCallback d
    /\ app_trace (handleForeign d m) = app_trace d
    /\ mMessagesLeftToConfirm (handleForeign d m) = mMessagesLeftToConfirm d
    /\ mMessageSendingInProgress (handleForeign d m)
       = mMessageSendingInProgress d.

(** The sent callback of the client is bound and the frame the client
    holds, if any, is for the broadcast address. *)
Definition linkIsBroadcast (d : t) : Prop :=
  ESPNowClient.mOnDataSentCallback (mClient d) = true
  /\ stagedForBroadcast (mClient d).

End HookTerms.

Section WindowTerms.
Import QuackMeshDevice.

(** [rememberMessage] for a list of frames, in order. *)
Definition rememberAll (d : t) (ms : list Message.t) : t :=
  fold_left rememberMessage ms d.

(** Each frame of the list is new to the seen set when its turn comes. *)
Fixpoint allNew (d : t) (ms : list Message.t) : bool :=
  match ms with
  | [] => true
  | m :: rest =>
      negb (isMessageAlreadySeen d m) && allNew (rememberMessage d m) rest
  end.

(** Ten frames from [B:0:0:0:0:2] to the example device with the ids
    20 to 29. *)
Definition tenFrames : list Message.t :=
  map (fun id => Message.mk [0; 0] 0 id 3 [11; 0; 0; 0; 0; 2]
                   [10; 0; 0; 0; 0; 1] 0 [])
    [20; 21; 22; 23; 24; 25; 26; 27; 28; 29].

(** The inputs of an unconfirmed send by a router to a destination for
    which the routing table of [routingRouter] names a link. *)
Definition routedSend : list Input :=
  [ SendMessage [1; 2; 3] 3 [1; 0; 0; 0; 0; 3]; Loop 100 0 ].

End WindowTerms.

Section TimeoutTerms.
Import QuackMeshDevice.

(** A pending confirmation with [diff] ms less to wait. *)
Definition agedConfirmation (diff : Z) (it : ConfirmedMessage.t)
    : ConfirmedMessage.t :=
  ConfirmedMessage.mk (ConfirmedMessage.isSent it)
    (ConfirmedMessage.timestamp it - diff) (ConfirmedMessage.id it)
    (ConfirmedMessage.destAddress it).

(** The remaining time of a pending confirmation is positive and fits
    the [int16_t] field. *)
Definition confirmationAlive (it : ConfirmedMessage.t) : bool :=
  (0 <? ConfirmedMessage.timestamp it)
  && (ConfirmedMessage.timestamp it <=? 32767).

(** Calls of [enqueueNewMessage] in a row: payload, length, destination
    and kind of each. *)
Definition enqueueAll (d : t) (requests : list (list Z * Z * address * bool))
    : t :=
  fold_left
    (fun d '(data, dataLength, destination, confirmed) =>
       enqueueNewMessage d data dataLength destination confirmed)
    requests d.

End TimeoutTerms.

(** * Properties *)

(** ** Fixed-width arithmetic and address comparison *)

Lemma bytes_eqb_refl (a : list Z) : bytes_eqb a a = true.
Proof.
  induction a as [|x a IH]; simpl; [reflexivity|].
  now rewrite Z.eqb_refl, IH.
Qed.

Lemma bytes_eqb_eq (a b : list Z) : bytes_eqb a b = true <-> a = b.
Proof.
  split; [|intros ->; apply bytes_eqb_refl].
  revert b; induction a as [|x a IH]; intros [|y b]; simpl; try discriminate.
  - reflexivity.
  - rewrite andb_true_iff, Z.eqb_eq. intros [-> H]. f_equal. now apply IH.
Qed.

Lemma isAddressMatching_refl (a : address) : isAddressMatching a a = true.
Proof. apply bytes_eqb_refl. Qed.

Lemma u_long_small (x : Z) : 0 <= x < 2 ^ 32 -> u_long x = x.
Proof. intros H. unfold u_long, wrap, u_long_bits. now apply Z.mod_small. Qed.

Lemma u_long_borrow (x : Z) : - 2 ^ 32 <= x < 0 -> u_long x = x + 2 ^ 32.
Proof.
  intros H. unfold u_long, wrap, u_long_bits.
  symmetry. apply Z.mod_unique with (q := -1); lia.
Qed.

Lemma u_long_range (x : Z) : 0 <= u_long x < 2 ^ 32.
Proof. unfold u_long, wrap, u_long_bits. apply Z.mod_pos_bound. lia. Qed.

Lemma EnqueuedMessageType_eqb_refl (k : EnqueuedMessageType) :
  EnqueuedMessageType_eqb k k = true.
Proof. now destruct k. Qed.

(** ** The routing table *)

Section RoutingTable.
Import QuackMeshRouter.

Variables (timeout : Z) (destination link : address) (hops : Z).

(** When no entry is improved the loop runs to its end. *)
Lemma updateRoutingInfo_none (table : list RoutingEntry.t) :
  existsb (improves destination hops) table = false ->
  updateRoutingInfo timeout destination link hops table = None.
Proof.
  induction table as [|it rest IH]; simpl; [reflexivity|].
  rewrite orb_false_iff. intros [Hit Hrest].
  unfold improves in Hit. rewrite Hit, (IH Hrest). reflexivity.
Qed.

(** When an entry is overwritten the table keeps its length. *)
Lemma updateRoutingInfo_length (table table' : list RoutingEntry.t) :
  updateRoutingInfo timeout destination link hops table = Some table' ->
  length table' = length table.
Proof.
  revert table'; induction table as [|it rest IH]; simpl; intros table' H.
  - discriminate.
  - destruct (isAddressMatching _ _ && _).
    + injection H as <-. reflexivity.
    + destruct (updateRoutingInfo _ _ _ _ rest) as [t|]; [|discriminate].
      injection H as <-. simpl. f_equal. now apply IH.
Qed.

End RoutingTable.

(** A lookup that finds an entry is not affected by what is appended. *)
Lemma findLink_app (destination : address) (table extra : list RoutingEntry.t) :
  existsb (fun it => isAddressMatching destination (RoutingEntry.destination it))
    table = true ->
  QuackMeshRouter.findLink destination (table ++ extra)
  = QuackMeshRouter.findLink destination table.
Proof.
  induction table as [|it rest IH]; simpl; [discriminate|].
  destruct (isAddressMatching destination (RoutingEntry.destination it));
    simpl; [reflexivity|exact IH].
Qed.

(** C1. [addOrUpdateRoutingInfo] called with a destination that has no
    entry appends the new entry and removes nothing, whatever the size of
    the table: at [mMaxRoutingEntries] entries the table grows past the
    cap instead of evicting its oldest entry. *)
Theorem addOrUpdateRoutingInfo_never_evicts
    (r : QuackMeshRouter.t) (destination link : address) (hops : Z) :
  existsb (fun it => isAddressMatching (RoutingEntry.destination it) destination)
    (QuackMeshRouter.mRoutingTable r) = false ->
  QuackMeshRouter.mRoutingTable
    (QuackMeshRouter.addOrUpdateRoutingInfo r destination link hops)
  = QuackMeshRouter.mRoutingTable r
      ++ [RoutingEntry.mk destination link hops
            (i16 (QuackMeshRouter.mRoutingTableUpdateTimeout r))].
Proof.
  intros H. unfold QuackMeshRouter.addOrUpdateRoutingInfo.
  rewrite updateRoutingInfo_none; [reflexivity|].
  induction (QuackMeshRouter.mRoutingTable r) as [|it rest IH];
    simpl in *; [reflexivity|].
  apply orb_false_iff in H as [Hit Hrest].
  rewrite (IH Hrest), orb_false_r.
  unfold improves. now rewrite Hit.
Qed.

(** At the cap of ten entries an eleventh is added. *)
Lemma addOrUpdateRoutingInfo_never_evicts_witness :
  Z.of_nat (length (QuackMeshRouter.mRoutingTable fullRouter))
  = QuackMeshRouter.mMaxRoutingEntries fullRouter
  /\ length
       (QuackMeshRouter.mRoutingTable
          (QuackMeshRouter.addOrUpdateRoutingInfo fullRouter
             [1; 0; 0; 0; 0; 10] [2; 0; 0; 0; 0; 1] 2))
     = 11%nat.
Proof.
  split; [reflexivity|].
  rewrite (addOrUpdateRoutingInfo_never_evicts fullRouter
             [1; 0; 0; 0; 0; 10] [2; 0; 0; 0; 0; 1] 2);
    reflexivity.
Defined.

(** C2. When every entry for the destination has at most the new number
    of hops, the entries of the table are left as they are, yet a further
    entry for the same destination is appended; the next hop that
    [getMACAddressForDestination] returns stays the one of the first
    entry. *)
Theorem addOrUpdateRoutingInfo_appends_duplicate
    (r : QuackMeshRouter.t) (destination link : address) (hops : Z) :
  existsb (fun it => isAddressMatching destination (RoutingEntry.destination it))
    (QuackMeshRouter.mRoutingTable r) = true ->
  existsb (improves destination hops) (QuackMeshRouter.mRoutingTable r)
  = false ->
  let r' := QuackMeshRouter.addOrUpdateRoutingInfo r destination link hops in
  QuackMeshRouter.mRoutingTable r'
  = QuackMeshRouter.mRoutingTable r
      ++ [RoutingEntry.mk destination link hops
            (i16 (QuackMeshRouter.mRoutingTableUpdateTimeout r))]
  /\ QuackMeshRouter.getMACAddressForDestination r' destination
     = QuackMeshRouter.getMACAddressForDestination r destination.
Proof.
  intros Hex Hno r'.
  assert (Htable : QuackMeshRouter.mRoutingTable r'
            = QuackMeshRouter.mRoutingTable r
                ++ [RoutingEntry.mk destination link hops
                      (i16 (QuackMeshRouter.mRoutingTableUpdateTimeout r))]).
  { unfold r', QuackMeshRouter.addOrUpdateRoutingInfo.
    now rewrite updateRoutingInfo_none. }
  split; [exact Htable|].
  unfold QuackMeshRouter.getMACAddressForDestination.
  rewrite Htable, findLink_app by exact Hex. reflexivity.
Qed.

(** A route of two hops is known; the same route is announced again. *)
Lemma addOrUpdateRoutingInfo_appends_duplicate_witness :
  let r :=
    QuackMeshRouter.set_mRoutingTable [exampleEntry 0]
      (QuackMeshRouter.init [10; 0; 0; 0; 0; 1]) in
  QuackMeshRouter.mRoutingTable
    (QuackMeshRouter.addOrUpdateRoutingInfo r
       [1; 0; 0; 0; 0; 0] [2; 0; 0; 0; 0; 1] 2)
  = [exampleEntry 0; exampleEntry 0].
Proof.
  intros r.
  exact (proj1 (addOrUpdateRoutingInfo_appends_duplicate r
                  [1; 0; 0; 0; 0; 0] [2; 0; 0; 0; 0; 1] 2
                  eq_refl eq_refl)).
Defined.

(** ** The seen set *)

Section SeenSet.
Import QuackMeshDevice.

Lemma rememberMessage_mMessageQueue (d : t) (m : Message.t) :
  mMessageQueue (rememberMessage d m) = mMessageQueue d.
Proof. unfold rememberMessage. now destruct (isMessageAlreadySeen d m). Qed.

Lemma rememberMessage_app_trace (d : t) (m : Message.t) :
  app_trace (rememberMessage d m) = app_trace d.
Proof. unfold rememberMessage. now destruct (isMessageAlreadySeen d m). Qed.

Lemma rememberMessage_mOnMessageCallback (d : t) (m : Message.t) :
  mOnMessageCallback (rememberMessage d m) = mOnMessageCallback d.
Proof. unfold rememberMessage. now destruct (isMessageAlreadySeen d m). Qed.

Lemma rememberMessage_mSentStatusCallback (d : t) (m : Message.t) :
  mSentStatusCallback (rememberMessage d m) = mSentStatusCallback d.
Proof. unfold rememberMessage. now destruct (isMessageAlreadySeen d m). Qed.

Lemma rememberMessage_mMessagesLeftToConfirm (d : t) (m : Message.t) :
  mMessagesLeftToConfirm (rememberMessage d m) = mMessagesLeftToConfirm d.
Proof. unfold rememberMessage. now destruct (isMessageAlreadySeen d m). Qed.

Lemma rememberMessage_getMACAddress (d : t) (m : Message.t) :
  getMACAddress (rememberMessage d m) = getMACAddress d.
Proof. unfold rememberMessage. now destruct (isMessageAlreadySeen d m). Qed.

Lemma rememberMessage_mSeenMessages (d : t) (m : Message.t) :
  isMessageAlreadySeen d m = false ->
  exists kept,
    mSeenMessages (rememberMessage d m) = kept ++ [seenEntryOf d m]
    /\ (kept = mSeenMessages d \/ kept = tl (mSeenMessages d)).
Proof.
  intros H. unfold rememberMessage. rewrite H.
  destruct (Z.of_nat (length (mSeenMessages d)) >=? mMaxSeenMessagesQueueSize d);
    eexists; split; simpl; try reflexivity; auto.
Qed.

(** The seen set never holds more than [mMaxSeenMessagesQueueSize]
    entries: [rememberMessage] drops the front entry before it appends at
    the cap, and the cleanup only removes. *)
Lemma rememberMessage_bounded (d : t) (m : Message.t) :
  1 <= mMaxSeenMessagesQueueSize d ->
  Z.of_nat (length (mSeenMessages d)) <= mMaxSeenMessagesQueueSize d ->
  Z.of_nat (length (mSeenMessages (rememberMessage d m)))
  <= mMaxSeenMessagesQueueSize (rememberMessage d m).
Proof.
  intros Hmax Hlen. unfold rememberMessage.
  destruct (isMessageAlreadySeen d m); [exact Hlen|].
  destruct (Z.of_nat (length (mSeenMessages d)) >=? mMaxSeenMessagesQueueSize d)
    eqn:Hfull; simpl; rewrite length_app; simpl.
  - destruct (mSeenMessages d); simpl in *; lia.
  - lia.
Qed.

Lemma ageSeenMessages_length (diff : Z) (seen : list SeenMessageEntry.t) :
  (length (ageSeenMessages diff seen) <= length seen)%nat.
Proof.
  induction seen as [|it rest IH]; simpl; [lia|].
  destruct (u_long (SeenMessageEntry.timestamp it - diff) <=? 0); simpl; lia.
Qed.

Lemma updateSeenMessages_bounded (d : t) (now : Z) :
  Z.of_nat (length (mSeenMessages d)) <= mMaxSeenMessagesQueueSize d ->
  Z.of_nat (length (mSeenMessages (updateSeenMessages d now)))
  <= mMaxSeenMessagesQueueSize (updateSeenMessages d now).
Proof.
  intros H. unfold updateSeenMessages.
  destruct (_ <? _); [exact H|]. simpl.
  pose proof (ageSeenMessages_length
                (u_long (now - mSeenMessagesCleanupUpdateTs d))
                (mSeenMessages d)).
  lia.
Qed.

Lemma ageSeenMessages_app (diff : Z) (a b : list SeenMessageEntry.t) :
  ageSeenMessages diff (a ++ b)
  = ageSeenMessages diff a ++ ageSeenMessages diff b.
Proof.
  induction a as [|it rest IH]; simpl; [reflexivity|].
  destruct (u_long (SeenMessageEntry.timestamp it - diff) <=? 0);
    simpl; now rewrite IH.
Qed.

Lemma ageSeenMessages_keeps (diff : Z) (it : SeenMessageEntry.t)
    (seen : list SeenMessageEntry.t) :
  In it seen ->
  0 < u_long (SeenMessageEntry.timestamp it - diff) ->
  In (aged diff it) (ageSeenMessages diff seen).
Proof.
  intros Hin Hpos. induction seen as [|x rest IH]; simpl in *; [contradiction|].
  destruct Hin as [-> | Hin].
  - destruct (Z.leb_spec (u_long (SeenMessageEntry.timestamp it - diff)) 0);
      [lia|now left].
  - destruct (u_long (SeenMessageEntry.timestamp x - diff) <=? 0);
      [|right]; now apply IH.
Qed.

Lemma seenMatches_aged (diff : Z) (m : Message.t) (it : SeenMessageEntry.t) :
  seenMatches m it = true ->
  0 < u_long (SeenMessageEntry.timestamp it - diff) ->
  seenMatches m (aged diff it) = true.
Proof.
  unfold seenMatches, aged; simpl. intros H Hpos.
  repeat (apply andb_true_iff in H as [H ?]).
  repeat (apply andb_true_iff; split); try assumption.
  now apply Z.gtb_lt.
Qed.

(** C3. A cleanup that runs after more time than an entry has left does
    not remove the entry: the [u_long] subtraction wraps to a large
    positive value, the test [timestamp <= 0] fails, and the frame is
    still reported as seen. *)
Theorem updateSeenMessages_keeps_overdue_entry
    (d : t) (now : Z) (it : SeenMessageEntry.t) (m : Message.t) :
  let diff := u_long (now - mSeenMessagesCleanupUpdateTs d) in
  In it (mSeenMessages d) ->
  seenMatches m it = true ->
  mSeenMessagesCleanupInterval d <= diff ->
  0 <= SeenMessageEntry.timestamp it < diff ->
  In (aged diff it) (mSeenMessages (updateSeenMessages d now))
  /\ SeenMessageEntry.timestamp (aged diff it)
     = SeenMessageEntry.timestamp it - diff + 2 ^ 32
  /\ isMessageAlreadySeen (updateSeenMessages d now) m = true.
Proof.
  intros diff Hin Hm Hint Hts.
  assert (Hd : 0 <= diff < 2 ^ 32) by apply u_long_range.
  assert (Hw : u_long (SeenMessageEntry.timestamp it - diff)
               = SeenMessageEntry.timestamp it - diff + 2 ^ 32)
    by (apply u_long_borrow; lia).
  assert (Hkeep : In (aged diff it) (mSeenMessages (updateSeenMessages d now))).
  { unfold updateSeenMessages. fold diff.
    destruct (Z.ltb_spec diff (mSeenMessagesCleanupInterval d)); [lia|].
    simpl. apply ageSeenMessages_keeps; [exact Hin|]. rewrite Hw. lia. }
  split; [exact Hkeep|]. split; [exact Hw|].
  unfold isMessageAlreadySeen. apply existsb_exists.
  exists (aged diff it). split; [exact Hkeep|].
  apply seenMatches_aged; [exact Hm|]. rewrite Hw. lia.
Qed.

(** The entry of [exampleFrame], remembered for 2000 ms; the next cleanup
    runs 2001 ms after the previous one. *)
Lemma updateSeenMessages_keeps_overdue_entry_witness :
  let d := rememberMessage exampleDevice exampleFrame in
  mSeenMessages (updateSeenMessages d 2001)
  = [SeenMessageEntry.mk 7 [11; 0; 0; 0; 0; 2] [10; 0; 0; 0; 0; 1]
       4294967295 Confirmed]
  /\ isMessageAlreadySeen (updateSeenMessages d 2001) exampleFrame = true.
Proof.
  intros d.
  split; [reflexivity|].
  apply (updateSeenMessages_keeps_overdue_entry d 2001
           (seenEntryOf exampleDevice exampleFrame) exampleFrame).
  - left; reflexivity.
  - reflexivity.
  - vm_compute; discriminate.
  - vm_compute; split; [discriminate|reflexivity].
Defined.

End SeenSet.

(** ** Forwarding *)

Section Forwarding.
Import QuackMeshDevice.

Lemma forwardMessage_enqueues (d : t) (m : Message.t) :
  Message.hopCount m <> 1 ->
  isMessageAlreadySeen d m = false ->
  mMessageQueue (QuackMeshRouter.forwardMessage d m)
  = mMessageQueue d ++ [forwarded m].
Proof.
  intros Hhop Hseen. unfold QuackMeshRouter.forwardMessage.
  destruct (Z.eqb_spec (Message.hopCount m - 1) 0); [lia|].
  rewrite Hseen. simpl. now rewrite rememberMessage_mMessageQueue.
Qed.

(** A frame received with hop count 1 is not forwarded. *)
Lemma forwardMessage_hop_one (d : t) (m : Message.t) :
  Message.hopCount m = 1 -> QuackMeshRouter.forwardMessage d m = d.
Proof.
  intros H. unfold QuackMeshRouter.forwardMessage. now rewrite H.
Qed.

(** A frame received with a hop count from 2 to 255 goes out with one
    hop less. *)
Lemma forwardMessage_hop_decremented (d : t) (m : Message.t) :
  2 <= Message.hopCount m <= 255 ->
  isMessageAlreadySeen d m = false ->
  mMessageQueue (QuackMeshRouter.forwardMessage d m)
  = mMessageQueue d ++ [forwarded m]
  /\ Message.hopCount (EnqueuedMessage.message (forwarded m))
     = Message.hopCount m - 1.
Proof.
  intros Hhop Hseen. split.
  - apply forwardMessage_enqueues; [lia|exact Hseen].
  - simpl. unfold u8, wrap. apply Z.mod_small. lia.
Qed.

(** C6. A frame received with hop count 0 passes the test
    [hopCount - 1 == 0] (the difference is [-1]) and is forwarded with
    the hop count [(uint8_t)(-1) = 255], which is larger than the one
    received. *)
Theorem forwardMessage_hop_zero (d : t) (m : Message.t) :
  Message.hopCount m = 0 ->
  isMessageAlreadySeen d m = false ->
  mMessageQueue (QuackMeshRouter.forwardMessage d m)
  = mMessageQueue d ++ [forwarded m]
  /\ EnqueuedMessage.type (forwarded m) = Forwarded
  /\ Message.hopCount (EnqueuedMessage.message (forwarded m)) = 255
  /\ Message.hopCount m
     < Message.hopCount (EnqueuedMessage.message (forwarded m)).
Proof.
  intros Hhop Hseen.
  assert (H255 : Message.hopCount (EnqueuedMessage.message (forwarded m)) = 255)
    by (simpl; now rewrite Hhop).
  split; [apply forwardMessage_enqueues; [lia|exact Hseen]|].
  split; [reflexivity|]. split; [exact H255|]. rewrite H255, Hhop. lia.
Qed.

Lemma forwardMessage_hop_zero_witness :
  map (fun e => Message.hopCount (EnqueuedMessage.message e))
    (mMessageQueue (QuackMeshRouter.forwardMessage exampleDevice hopZeroFrame))
  = [255].
Proof.
  rewrite (proj1 (forwardMessage_hop_zero exampleDevice hopZeroFrame
                    eq_refl eq_refl)).
  reflexivity.
Defined.

End Forwarding.

(** ** Local delivery *)

Section LocalDelivery.
Import QuackMeshDevice.

(** C9. For a frame not yet seen whose type is none of 0, 1, 3,
    [handleOwnMessage] calls the message callback without a test: with a
    callback bound the frame is delivered to it (and nothing is
    enqueued), with none bound the empty [std::function] is invoked.  A
    frame of type 0 or 1 is handled without a fault and reaches the
    callback exactly when one is bound. *)
Theorem handleOwnMessage_default_unguarded (d : t) (m : Message.t) :
  isMessageAlreadySeen d m = false ->
  (Message.type m <> 0 -> Message.type m <> 1 -> Message.type m <> 3 ->
   (mOnMessageCallback d = true ->
    exists d',
      handleOwnMessage d m = Ok d'
      /\ app_trace d' = app_trace d ++ [delivery m]
      /\ mMessageQueue d' = mMessageQueue d)
   /\ (mOnMessageCallback d = false ->
       handleOwnMessage d m = Fault BadFunctionCall))
  /\ (Message.type m = 0 \/ Message.type m = 1 ->
      exists d',
        handleOwnMessage d m = Ok d'
        /\ app_trace d'
           = app_trace d
               ++ (if mOnMessageCallback d then [delivery m] else [])).
Proof.
  intros Hseen. unfold handleOwnMessage. rewrite Hseen. split.
  - intros H0 H1 H3.
    destruct (Z.eqb_spec (Message.type m) 0); [contradiction|].
    destruct (Z.eqb_spec (Message.type m) 1); [contradiction|].
    destruct (Z.eqb_spec (Message.type m) 3); [contradiction|].
    rewrite rememberMessage_mOnMessageCallback. split; intros Hcb; rewrite Hcb.
    + eexists. split; [reflexivity|]. unfold deliver, invoke, delivery.
      cbn [app_trace set_app_trace mMessageQueue].
      now rewrite rememberMessage_app_trace, rememberMessage_mMessageQueue.
    + reflexivity.
  - intros [H | H]; rewrite H; simpl; eexists; (split; [reflexivity|]);
      unfold delivery; rewrite H; simpl;
      rewrite rememberMessage_mOnMessageCallback;
      destruct (mOnMessageCallback d); simpl;
      rewrite rememberMessage_app_trace;
      auto using app_nil_r.
Qed.

Lemma handleOwnMessage_default_unguarded_witness :
  handleOwnMessage silentDevice (frameOfType 2) = Fault BadFunctionCall
  /\ (exists d', handleOwnMessage exampleDevice (frameOfType 2) = Ok d'
                 /\ app_trace d' = [delivery (frameOfType 2)]
                 /\ mMessageQueue d' = [])
  /\ (exists d', handleOwnMessage silentDevice (frameOfType 0) = Ok d'
                 /\ app_trace d' = [])
  /\ (exists d', handleOwnMessage exampleDevice (frameOfType 1) = Ok d'
                 /\ app_trace d' = [delivery (frameOfType 1)]).
Proof.
  split; [|split; [|split]].
  - apply (proj1 (handleOwnMessage_default_unguarded silentDevice
                    (frameOfType 2) eq_refl));
      [discriminate | discriminate | discriminate | reflexivity].
  - apply (proj1 (handleOwnMessage_default_unguarded exampleDevice
                    (frameOfType 2) eq_refl));
      [discriminate | discriminate | discriminate | reflexivity].
  - apply (proj2 (handleOwnMessage_default_unguarded silentDevice
                    (frameOfType 0) eq_refl)).
    left; reflexivity.
  - apply (proj2 (handleOwnMessage_default_unguarded exampleDevice
                    (frameOfType 1) eq_refl)).
    right; reflexivity.
Defined.

End LocalDelivery.

(** ** Duplicate suppression and acknowledgements *)

Section Duplicates.
Import QuackMeshDevice.

Lemma seenMatches_seenEntryOf (d : t) (m : Message.t) :
  0 < mSeenMessagesCleanupTimeout d ->
  seenMatches m (seenEntryOf d m) = true.
Proof.
  intros H. unfold seenMatches, seenEntryOf; simpl.
  rewrite Z.eqb_refl, !isAddressMatching_refl, EnqueuedMessageType_eqb_refl.
  rewrite !andb_true_r. now apply Z.gtb_lt.
Qed.

Lemma updateSeenMessages_app_trace (d : t) (now : Z) :
  app_trace (updateSeenMessages d now) = app_trace d.
Proof. unfold updateSeenMessages. now destruct (_ <? _). Qed.

Lemma updateSeenMessages_mMessageQueue (d : t) (now : Z) :
  mMessageQueue (updateSeenMessages d now) = mMessageQueue d.
Proof. unfold updateSeenMessages. now destruct (_ <? _). Qed.

(** A frame that was just remembered is still seen after a cleanup that
    subtracts less than [mSeenMessagesCleanupTimeout]. *)
Lemma remembered_survives_cleanup (d : t) (m : Message.t) (now : Z) :
  isMessageAlreadySeen d m = false ->
  0 < mSeenMessagesCleanupTimeout d < 2 ^ 32 ->
  u_long (now - mSeenMessagesCleanupUpdateTs d)
  < mSeenMessagesCleanupTimeout d ->
  forall d1,
    mSeenMessages d1 = mSeenMessages (rememberMessage d m) ->
    mSeenMessagesCleanupUpdateTs d1 = mSeenMessagesCleanupUpdateTs d ->
    isMessageAlreadySeen (updateSeenMessages d1 now) m = true.
Proof.
  intros Hseen Httl Hdiff d1 Hs Hts.
  destruct (rememberMessage_mSeenMessages d m Hseen) as (kept & Hk & _).
  pose proof (u_long_range (now - mSeenMessagesCleanupUpdateTs d)) as Hr.
  unfold isMessageAlreadySeen, updateSeenMessages. rewrite Hts.
  destruct (_ <? _); simpl; rewrite Hs, Hk.
  - rewrite existsb_app; simpl.
    rewrite seenMatches_seenEntryOf by lia. now rewrite orb_true_r.
  - rewrite ageSeenMessages_app, existsb_app.
    apply orb_true_iff; right.
    apply existsb_exists.
    exists (aged (u_long (now - mSeenMessagesCleanupUpdateTs d))
              (seenEntryOf d m)).
    assert (Hpos : 0 < u_long (SeenMessageEntry.timestamp (seenEntryOf d m)
                               - u_long (now - mSeenMessagesCleanupUpdateTs d))).
    { simpl. rewrite u_long_small; lia. }
    split.
    + apply ageSeenMessages_keeps; [now left|exact Hpos].
    + apply seenMatches_aged; [apply seenMatches_seenEntryOf; lia|exact Hpos].
Qed.

(** C7, as amended.  When the same Confirmed frame reaches its
    destination [B] twice while the entry of the first copy is in the
    seen set (a cleanup in between subtracts less than the seen
    timeout), [B] calls the message callback once and enqueues one
    acknowledgement: the second copy is dropped before an acknowledgement
    is built.  The sender [A], which holds a pending confirmation for the
    frame, calls the status callback once, with [SendSuccess], when that
    acknowledgement arrives. *)
Theorem duplicate_confirmed_frame_acknowledged_once
    (A B : t) (m : Message.t) (now : Z) (pending : list ConfirmedMessage.t) :
  Message.type m = 1 ->
  isMessageAlreadySeen B m = false ->
  mOnMessageCallback B = true ->
  0 < mSeenMessagesCleanupTimeout B < 2 ^ 32 ->
  u_long (now - mSeenMessagesCleanupUpdateTs B)
  < mSeenMessagesCleanupTimeout B ->
  let ack := acknowledgementFor B m in
  isMessageAlreadySeen A ack = false ->
  mSentStatusCallback A = true ->
  eraseFirst (confirms (Message.id ack) (Message.srcAddress ack))
    (mMessagesLeftToConfirm A) = Some pending ->
  exists B1 B2 A1,
    handleOwnMessage B m = Ok B1
    /\ handleOwnMessage (updateSeenMessages B1 now) m = Ok B2
    /\ app_trace B2 = app_trace B ++ [delivery m]
    /\ mMessageQueue B2
       = mMessageQueue B ++ [EnqueuedMessage.mk Acknowledgement 0 ack]
    /\ handleOwnMessage A ack = Ok A1
    /\ app_trace A1 = app_trace A ++ [OnMessageStatus SendSuccess]
    /\ mMessagesLeftToConfirm A1 = pending.
Proof.
  intros Htype HseenB HcbB Httl Hdiff ack HseenA HcbA Hpending.
  set (B1 := deliver 1 m (sendAcknowledgement (rememberMessage B m) m)).
  assert (HB1 : handleOwnMessage B m = Ok B1).
  { unfold handleOwnMessage. rewrite HseenB, Htype. simpl.
    now rewrite rememberMessage_mOnMessageCallback, HcbB. }
  assert (Hdup : isMessageAlreadySeen (updateSeenMessages B1 now) m = true).
  { apply (remembered_survives_cleanup B m now HseenB Httl Hdiff).
    - reflexivity.
    - unfold B1; simpl. unfold rememberMessage. now rewrite HseenB. }
  exists B1, (updateSeenMessages B1 now).
  exists (invoke (OnMessageStatus SendSuccess)
            (set_mMessagesLeftToConfirm pending (rememberMessage A ack))).
  split; [exact HB1|].
  split; [unfold handleOwnMessage; now rewrite Hdup|].
  split.
  { rewrite updateSeenMessages_app_trace. unfold B1, deliver, delivery; simpl.
    now rewrite rememberMessage_app_trace, Htype. }
  split.
  { rewrite updateSeenMessages_mMessageQueue. unfold B1; simpl.
    rewrite rememberMessage_mMessageQueue, rememberMessage_getMACAddress.
    reflexivity. }
  split.
  { unfold handleOwnMessage. rewrite HseenA.
    change (Message.type ack) with 3. simpl.
    unfold processReceivedAcknowledgement.
    rewrite rememberMessage_mMessagesLeftToConfirm, Hpending. simpl.
    now rewrite rememberMessage_mSentStatusCallback, HcbA. }
  split; [simpl; now rewrite rememberMessage_app_trace|reflexivity].
Qed.

Lemma duplicate_confirmed_frame_acknowledged_once_witness :
  map EnqueuedMessage.message (mMessageQueue senderDevice) = [sentFrame]
  /\ exists B1 B2 A1,
       handleOwnMessage receiverDevice sentFrame = Ok B1
       /\ handleOwnMessage (updateSeenMessages B1 1000) sentFrame = Ok B2
       /\ app_trace B2 = [delivery sentFrame]
       /\ mMessageQueue B2
          = [EnqueuedMessage.mk Acknowledgement 0
               (acknowledgementFor receiverDevice sentFrame)]
       /\ handleOwnMessage senderDevice
            (acknowledgementFor receiverDevice sentFrame) = Ok A1
       /\ app_trace A1 = [OnMessageStatus SendSuccess]
       /\ mMessagesLeftToConfirm A1 = [].
Proof.
  split; [reflexivity|].
  apply (duplicate_confirmed_frame_acknowledged_once senderDevice
           receiverDevice sentFrame 1000 []);
    try reflexivity.
  vm_compute; split; reflexivity.
Defined.

(** C7, as stated, fails: two copies of [sentFrame] leave one
    acknowledgement in the receiver's queue, not two. *)
Lemma duplicate_confirmed_frame_one_acknowledgement :
  exists B1 B2,
    handleOwnMessage receiverDevice sentFrame = Ok B1
    /\ handleOwnMessage B1 sentFrame = Ok B2
    /\ length (acknowledgements B2) = 1%nat
    /\ length (acknowledgements B2) <> 2%nat.
Proof.
  do 2 eexists. split; [reflexivity|]. split; [reflexivity|].
  split; [reflexivity|discriminate].
Qed.

End Duplicates.

(** ** Status callbacks *)

Section StatusCallbacks.
Import QuackMeshDevice.

Lemma ageConfirmations_erased (diff : Z) (pending : list ConfirmedMessage.t) :
  snd (ageConfirmations diff pending)
  = length (filter (expires diff) pending).
Proof.
  induction pending as [|it rest IH]; simpl; [reflexivity|].
  unfold expires at 1.
  destruct (ageConfirmations diff rest) as [kept erased]; simpl in *.
  destruct (_ <=? 0); simpl; now rewrite IH.
Qed.

Lemma ageConfirmations_kept (diff : Z) (pending : list ConfirmedMessage.t) :
  forallb (expires diff) pending = true ->
  fst (ageConfirmations diff pending) = [].
Proof.
  induction pending as [|it rest IH]; simpl; [reflexivity|].
  rewrite andb_true_iff. intros [Hit Hrest]. unfold expires in Hit.
  specialize (IH Hrest).
  destruct (ageConfirmations diff rest) as [kept erased]; simpl in *.
  now rewrite Hit.
Qed.

(** What one timeout check adds to the log. *)
Lemma checkForConfirmationTimeout_app_trace (d : t) (now : Z) :
  app_trace (checkForConfirmationTimeout d now)
  = app_trace d
      ++ (if mSentStatusCallback d
          then repeat (OnMessageStatus Fail)
                 (length (filter (expires (u_long (now - mLastTimeoutCheckTs d)))
                            (mMessagesLeftToConfirm d)))
          else []).
Proof.
  unfold checkForConfirmationTimeout; simpl.
  rewrite <- ageConfirmations_erased.
  destruct (ageConfirmations _ _) as [kept erased]; simpl.
  destruct (mSentStatusCallback d); simpl; [reflexivity|].
  now rewrite app_nil_r.
Qed.

End StatusCallbacks.

(** ** The status [SendBroadcast] stays below the device *)

Section BroadcastOutcome.
Import QuackMeshDevice.

Lemma broadcastFree_app (a b : list AppEvent) :
  broadcastFree a -> broadcastFree b -> broadcastFree (a ++ b).
Proof.
  unfold broadcastFree. intros Ha Hb. now rewrite existsb_app, Ha, Hb.
Qed.

Lemma broadcastFree_repeat_Fail (n : nat) :
  broadcastFree (repeat (OnMessageStatus Fail) n).
Proof. induction n; [reflexivity|exact IHn]. Qed.

Lemma processNextMessage_app_trace (d : t) :
  app_trace (processNextMessage d) = app_trace d.
Proof.
  unfold processNextMessage.
  destruct (mMessageSendingInProgress d); [reflexivity|].
  destruct (mMessageQueue d) as [|next rest]; [reflexivity|].
  destruct (negb _); [reflexivity|].
  destruct (ESPNowClient.send _ _ _ _ _ _) as [c sent].
  destruct (sent =? 0); [|reflexivity].
  now destruct (EnqueuedMessage.type next).
Qed.

Lemma processReceivedAcknowledgement_broadcastFree (d : t) (m : Message.t) :
  broadcastFree (app_trace d) ->
  broadcastFree (app_trace (processReceivedAcknowledgement d m)).
Proof.
  intros H. unfold processReceivedAcknowledgement.
  destruct (eraseFirst _ _); [|exact H]. simpl.
  destruct (mSentStatusCallback d); simpl; [|exact H].
  now apply broadcastFree_app.
Qed.

Lemma handleOwnMessage_broadcastFree (d d' : t) (m : Message.t) :
  handleOwnMessage d m = Ok d' ->
  broadcastFree (app_trace d) -> broadcastFree (app_trace d').
Proof.
  unfold handleOwnMessage. intros H Hd.
  destruct (isMessageAlreadySeen d m); [now injection H as <-|].
  assert (Hr : broadcastFree (app_trace (rememberMessage d m)))
    by now rewrite rememberMessage_app_trace.
  destruct (Message.type m =? 0).
  { injection H as <-. destruct (mOnMessageCallback _); [|exact Hr].
    now apply broadcastFree_app. }
  destruct (Message.type m =? 1).
  { injection H as <-. simpl. destruct (mOnMessageCallback _); [|exact Hr].
    now apply broadcastFree_app. }
  destruct (Message.type m =? 3).
  { injection H as <-. now apply processReceivedAcknowledgement_broadcastFree. }
  destruct (mOnMessageCallback _); [|discriminate].
  injection H as <-. now apply broadcastFree_app.
Qed.

Lemma onMessageSent_broadcastFree (d d' : t) (status : ESPNowSentStatus) :
  onMessageSent d status = Ok d' ->
  broadcastFree (app_trace d) -> broadcastFree (app_trace d').
Proof.
  unfold onMessageSent. intros H Hd.
  destruct (mMessageQueue d) as [|front rest]; [discriminate|].
  injection H as <-. simpl.
  destruct (EnqueuedMessage.type front); try exact Hd.
  destruct status; simpl; try exact Hd.
  destruct (eraseFirst _ _); simpl;
    (destruct (mSentStatusCallback d); simpl; [|exact Hd]);
    now apply broadcastFree_app.
Qed.

Section Node.
Variable handleForeign : t -> Message.t -> t.
Hypothesis handleForeign_app_trace :
  forall d m, app_trace (handleForeign d m) = app_trace d.

Lemma dispatchAll_broadcastFree (es : list ClientEvent) (d d' : t) :
  dispatchAll handleForeign d es = Ok d' ->
  broadcastFree (app_trace d) -> broadcastFree (app_trace d').
Proof.
  revert d; induction es as [|e es IH]; simpl; intros d H Hd.
  - now injection H as <-.
  - destruct (dispatch handleForeign d e) as [d1|] eqn:He; [|discriminate].
    simpl in H. apply (IH d1 H).
    destruct e as [status|data]; simpl in He.
    + exact (onMessageSent_broadcastFree _ _ _ He Hd).
    + unfold onMessageReceived in He.
      destruct (isAddressMatching _ _).
      * exact (handleOwnMessage_broadcastFree _ _ _ He Hd).
      * injection He as <-. now rewrite handleForeign_app_trace.
Qed.

Lemma update_broadcastFree (d d' : t) (now status : Z) :
  update handleForeign d now status = Ok d' ->
  broadcastFree (app_trace d) -> broadcastFree (app_trace d').
Proof.
  unfold update. intros H Hd.
  destruct (ESPNowClient.update _ _ _) as [[c es]|]; [|discriminate].
  simpl in H.
  destruct (dispatchAll _ _ _) as [d1|] eqn:Hd1; [|discriminate].
  simpl in H. injection H as <-.
  rewrite processNextMessage_app_trace, checkForConfirmationTimeout_app_trace.
  rewrite updateSeenMessages_app_trace.
  apply broadcastFree_app.
  - exact (dispatchAll_broadcastFree _ _ _ Hd1 Hd).
  - destruct (mSentStatusCallback _); [apply broadcastFree_repeat_Fail|].
    reflexivity.
Qed.

Lemma run_broadcastFree (inputs : list Input) (d d' : t) :
  run handleForeign d inputs = Ok d' ->
  broadcastFree (app_trace d) -> broadcastFree (app_trace d').
Proof.
  revert d; induction inputs as [|i rest IH]; simpl; intros d H Hd.
  - now injection H as <-.
  - destruct (step handleForeign d i) as [d1|] eqn:Hi; [|discriminate].
    simpl in H. apply (IH d1 H).
    destruct i; simpl in Hi; try (injection Hi as <-; exact Hd).
    exact (update_broadcastFree _ _ _ _ Hi Hd).
Qed.

End Node.

Lemma forwardMessage_app_trace (d : t) (m : Message.t) :
  app_trace (QuackMeshRouter.forwardMessage d m) = app_trace d.
Proof.
  unfold QuackMeshRouter.forwardMessage.
  destruct (_ =? 0); [reflexivity|].
  destruct (isMessageAlreadySeen d m); [reflexivity|].
  simpl. apply rememberMessage_app_trace.
Qed.

(** C4, as amended.  When the link reports the outcome [SendBroadcast]
    for a Confirmed send, [onMessageSent] calls no status callback and
    leaves the pending confirmations as they are; a later timeout check
    calls the status callback with [Fail] once for each pending
    confirmation whose time has run out; and in no run of a device or of
    a router is the status callback called with [SendBroadcast]. *)
Theorem broadcast_outcome_then_timeout_Fail
    (d : t) (front : EnqueuedMessage.t) (rest : list EnqueuedMessage.t) :
  mMessageQueue d = front :: rest ->
  EnqueuedMessage.type front = Confirmed ->
  mSentStatusCallback d = true ->
  (exists d1,
     onMessageSent d SendBroadcast = Ok d1
     /\ app_trace d1 = app_trace d
     /\ mMessagesLeftToConfirm d1 = mMessagesLeftToConfirm d
     /\ forall now,
          app_trace (checkForConfirmationTimeout d1 now)
          = app_trace d
              ++ repeat (OnMessageStatus Fail)
                   (length
                      (filter (expires (u_long (now - mLastTimeoutCheckTs d)))
                         (mMessagesLeftToConfirm d))))
  /\ forall inputs d',
       broadcastFree (app_trace d) ->
       (run handleForeignMessage d inputs = Ok d'
        \/ run QuackMeshRouter.handleForeignMessage d inputs = Ok d') ->
       broadcastFree (app_trace d').
Proof.
  intros Hq Htype Hcb. split.
  - unfold onMessageSent. rewrite Hq, Htype. simpl.
    eexists. split; [reflexivity|]. split; [reflexivity|].
    split; [reflexivity|].
    intros now. rewrite checkForConfirmationTimeout_app_trace. simpl.
    now rewrite Hcb.
  - intros inputs d' Hd [H | H].
    + now apply (run_broadcastFree handleForeignMessage) with (2 := H).
    + apply (run_broadcastFree QuackMeshRouter.handleForeignMessage)
        with (2 := H); [|exact Hd].
      exact forwardMessage_app_trace.
Qed.

Lemma broadcast_outcome_then_timeout_Fail_witness :
  exists d1,
    onMessageSent broadcastSender SendBroadcast = Ok d1
    /\ app_trace d1 = []
    /\ mMessagesLeftToConfirm d1
       = [ConfirmedMessage.mk true 1000 0 BROADCAST_ADDRESS]
    /\ app_trace (checkForConfirmationTimeout d1 1000)
       = [OnMessageStatus Fail].
Proof.
  destruct (proj1 (broadcast_outcome_then_timeout_Fail broadcastSender
                     (EnqueuedMessage.mk Confirmed 0
                        (Message.mk [0; 0] 1 0 3 [10; 0; 0; 0; 0; 1]
                           BROADCAST_ADDRESS 2 [222; 173]))
                     [] eq_refl eq_refl eq_refl))
    as (d1 & Hsent & Htrace & Hpending & Htimeout).
  exists d1. split; [exact Hsent|]. split; [exact Htrace|].
  split; [exact Hpending|]. exact (Htimeout 1000).
Defined.

(** C4, as stated, fails: the only status callback of the run carries
    [Fail]; none carries [SendBroadcast]. *)
Lemma unacknowledged_broadcast_reports_Fail :
  callbacks (run handleForeignMessage exampleDevice unacknowledgedBroadcast)
  = Some [OnMessageStatus Fail].
Proof. vm_compute. reflexivity. Qed.

End BroadcastOutcome.

(** ** The link adapter *)

Section LinkAdapter.
Import ESPNowClient.

Lemma sentStatuses_app (a b : list ClientEvent) :
  sentStatuses (a ++ b) = sentStatuses a ++ sentStatuses b.
Proof. apply flat_map_app. Qed.

Lemma update_process_sentStatuses (c : t) (time : Z) :
  sentStatuses (snd (update_process c time)) = [].
Proof.
  unfold update_process, processMessage.
  destruct (_ && _); [|reflexivity]. simpl.
  destruct (RECIEVED_DATA_ACCESS_MUTEX c); [reflexivity|].
  destruct (RECEIVED_DATA c); [reflexivity|]. simpl.
  now destruct (mOnDataReceivedCallback c).
Qed.

Lemma update_process_send_state (c : t) (time : Z) :
  WAITING_FOR_DATA_SENT_MUTEX (fst (update_process c time))
  = WAITING_FOR_DATA_SENT_MUTEX c
  /\ mNextDataToSend (fst (update_process c time)) = mNextDataToSend c.
Proof.
  unfold update_process, processMessage.
  destruct (_ && _); [|now split]. simpl.
  destruct (RECIEVED_DATA_ACCESS_MUTEX c); [now split|].
  destruct (RECEIVED_DATA c); now split.
Qed.

Lemma update_sentStatus_delivered (c : t) (d : SendingData.t) :
  DATA_SENT_UPDATE_MUTEX c = true ->
  mNextDataToSend c = Some d ->
  mOnDataSentCallback c = true ->
  exists c',
    update_sentStatus c
    = Ok (c', map SentCallback (delivered (LAST_SENT_STATUS c) d)).
Proof.
  destruct c; simpl. intros -> -> ->.
  unfold update_sentStatus, delivered; simpl.
  destruct LAST_SENT_STATUS0; simpl;
    try destruct (SendingData.maxTriesLeft d =? 0); simpl;
    destruct (isAddressMatching (SendingData.destAddress d) BROADCAST_ADDRESS);
    simpl; eexists; reflexivity.
Qed.

(** C5, as amended.  With a status update pending for the staged frame
    [d] and a sent callback bound, [update] calls the sent callback as
    [delivered] says: a final status ([SendSuccess], [Fail] from a driver
    error, or [PartialFail] with no try left) is passed on for a unicast
    destination and is replaced by [SendBroadcast] for the broadcast
    address, whether it is a success or a failure. *)
Theorem update_remaps_every_final_status
    (c : t) (d : SendingData.t) (time status : Z) :
  DATA_SENT_UPDATE_MUTEX c = true ->
  mNextDataToSend c = Some d ->
  mOnDataSentCallback c = true ->
  exists c' es,
    update c time status = Ok (c', es)
    /\ sentStatuses es = delivered (LAST_SENT_STATUS c) d.
Proof.
  intros Hu Hn Hcb. unfold update.
  assert (H : exists c1,
             update_sentStatus (update_newData c)
             = Ok (c1, map SentCallback (delivered (LAST_SENT_STATUS c) d))).
  { unfold update_newData.
    destruct (NEW_DATA_RECEIVED_MUTEX c);
      [|now apply update_sentStatus_delivered].
    now apply (update_sentStatus_delivered
                 (set_NEW_DATA_RECEIVED_MUTEX false
                    (set_RECEIVED_DATA
                       (RECEIVED_DATA c ++ [NEW_RECEIVED_DATA c]) c)) d). }
  destruct H as [c1 ->]. simpl.
  pose proof (update_process_sentStatuses (update_sendStaged c1 time status)
                time) as Hp.
  destruct (update_process _ _) as [c2 ev2]. simpl in Hp.
  exists c2. eexists. split; [reflexivity|].
  rewrite sentStatuses_app, Hp, app_nil_r.
  now induction (delivered _ _) as [|s l IH]; simpl; [|rewrite IH].
Qed.

Lemma update_remaps_every_final_status_witness :
  LAST_SENT_STATUS failedUnicast = Fail
  /\ LAST_SENT_STATUS failedBroadcast = Fail
  /\ (exists c' es, update failedUnicast 200 0 = Ok (c', es)
                    /\ sentStatuses es = [Fail])
  /\ (exists c' es, update failedBroadcast 200 0 = Ok (c', es)
                    /\ sentStatuses es = [SendBroadcast]).
Proof.
  split; [reflexivity|]. split; [reflexivity|]. split.
  - exact (update_remaps_every_final_status failedUnicast
             (SendingData.mk [11; 0; 0; 0; 0; 2] [1; 2; 3] 3 1 0) 200 0
             eq_refl eq_refl eq_refl).
  - exact (update_remaps_every_final_status failedBroadcast
             (SendingData.mk BROADCAST_ADDRESS [1; 2; 3] 3 1 0) 200 0
             eq_refl eq_refl eq_refl).
Defined.

(** C5, as stated, fails: the final [Fail] of a frame for the broadcast
    address reaches the sent callback as [SendBroadcast]. *)
Lemma final_Fail_for_broadcast_is_remapped :
  LAST_SENT_STATUS failedBroadcast = Fail
  /\ option_map SendingData.destAddress (mNextDataToSend failedBroadcast)
     = Some BROADCAST_ADDRESS
  /\ sentCallbacks (update failedBroadcast 200 0) = Some [SendBroadcast]
  /\ sentCallbacks (update failedBroadcast 200 0) <> Some [Fail].
Proof.
  split; [reflexivity|]. split; [reflexivity|].
  split; [reflexivity|discriminate].
Qed.

End LinkAdapter.

(** ** Staging a frame *)

Section Staging.
Import ESPNowClient.

Lemma update_newData_send_state (c : t) :
  WAITING_FOR_DATA_SENT_MUTEX (update_newData c)
  = WAITING_FOR_DATA_SENT_MUTEX c
  /\ mNextDataToSend (update_newData c) = mNextDataToSend c.
Proof. unfold update_newData. now destruct (NEW_DATA_RECEIVED_MUTEX c). Qed.

(** The status stage never raises the waiting flag. *)
Lemma update_sentStatus_WAITING (c c' : t) (es : list ClientEvent) :
  update_sentStatus c = Ok (c', es) ->
  WAITING_FOR_DATA_SENT_MUTEX c = false ->
  WAITING_FOR_DATA_SENT_MUTEX c' = false.
Proof.
  destruct c; unfold update_sentStatus; simpl. intros H ->.
  destruct DATA_SENT_UPDATE_MUTEX0; [|now injection H as <- _].
  destruct LAST_SENT_STATUS0; simpl in H;
    repeat match type of H with
      | context [match ?x with _ => _ end] => destruct x; simpl in H
      end;
    try discriminate; now injection H as <- _.
Qed.

(** The waiting flag rises in [update] only when the call reaches
    [sendNow] and the driver accepts the frame. *)
Lemma update_raises_WAITING (c c' : t) (es : list ClientEvent)
    (time status : Z) :
  update c time status = Ok (c', es) ->
  WAITING_FOR_DATA_SENT_MUTEX c = false ->
  WAITING_FOR_DATA_SENT_MUTEX c' = true ->
  reachesSendNow c time = true /\ status = 0.
Proof.
  unfold update, reachesSendNow. intros H Hw Hw'.
  destruct (update_sentStatus (update_newData c)) as [[c1 ev1]|] eqn:H1;
    [|discriminate].
  simpl in H.
  assert (Hw1 : WAITING_FOR_DATA_SENT_MUTEX c1 = false).
  { apply (update_sentStatus_WAITING _ _ _ H1).
    now rewrite (proj1 (update_newData_send_state c)). }
  destruct (update_process_send_state (update_sendStaged c1 time status) time)
    as [Hp _].
  destruct (update_process _ _) as [c2 ev2]. simpl in Hp.
  injection H as <- _. rewrite Hp in Hw'.
  unfold update_sendStaged in Hw'.
  destruct (mNextDataToSend c1) as [dataToSend|]; [|congruence].
  destruct (sendNowDue c1 time); [|congruence].
  split; [reflexivity|].
  unfold sendNow in Hw'. simpl in Hw'. rewrite Hw1 in Hw'.
  destruct (Z.eqb_spec status 0); [assumption|].
  simpl in Hw'. discriminate.
Qed.

Lemma update_keeps_WAITING_low (c c' : t) (es : list ClientEvent)
    (time status : Z) :
  update c time status = Ok (c', es) ->
  reachesSendNow c time = false ->
  WAITING_FOR_DATA_SENT_MUTEX c = false ->
  WAITING_FOR_DATA_SENT_MUTEX c' = false.
Proof.
  intros H Hr Hw.
  destruct (WAITING_FOR_DATA_SENT_MUTEX c') eqn:Hw'; [|reflexivity].
  destruct (update_raises_WAITING _ _ _ _ _ H Hw Hw'). congruence.
Qed.

Lemma Staged_state (c : t) :
  Staged c ->
  WAITING_FOR_DATA_SENT_MUTEX c = false /\ mNextDataToSend c <> None.
Proof.
  induction 1 as [c mac data len tries ch Hw
                 |c time status c' es _ [IHw _] Hu Hr Hn
                 |c mac data len _ [IHw IHn]
                 |c status _ [IHw IHn]].
  - unfold send. rewrite Hw. simpl. split; [exact Hw|discriminate].
  - split; [|exact Hn]. exact (update_keeps_WAITING_low _ _ _ _ _ Hu Hr IHw).
  - unfold onDataReceived, processReceivedData.
    destruct (RECIEVED_DATA_ACCESS_MUTEX c); [now split|].
    destruct (_ <? 18); now split.
  - now split.
Qed.

(** [holdsFrame] is kept by [send] and by [update]; the interrupt
    handlers touch neither the flag nor the frame. *)
Lemma send_holdsFrame (c : t) macAddress data dataLength maxSendTries channel :
  holdsFrame c ->
  holdsFrame (fst (send c macAddress data dataLength maxSendTries channel)).
Proof.
  unfold holdsFrame, send.
  destruct (WAITING_FOR_DATA_SENT_MUTEX c) eqn:Hw; simpl.
  - rewrite Hw. trivial.
  - intros _ _ H. discriminate H.
Qed.

Lemma update_sentStatus_holdsFrame (c c' : t) (es : list ClientEvent) :
  update_sentStatus c = Ok (c', es) -> holdsFrame c -> holdsFrame c'.
Proof.
  destruct c; unfold holdsFrame, update_sentStatus; simpl. intros H Hc.
  destruct DATA_SENT_UPDATE_MUTEX0; [|now injection H as <- _].
  destruct LAST_SENT_STATUS0; simpl in H;
    repeat match type of H with
      | context [match ?x with _ => _ end] => destruct x; simpl in H
      end;
    try discriminate; injection H as <- _; simpl; auto; discriminate.
Qed.

Lemma update_holdsFrame (c c' : t) (es : list ClientEvent) (time status : Z) :
  update c time status = Ok (c', es) -> holdsFrame c -> holdsFrame c'.
Proof.
  unfold update. intros H Hc.
  destruct (update_sentStatus (update_newData c)) as [[c1 ev1]|] eqn:H1;
    [|discriminate].
  simpl in H.
  assert (Hc1 : holdsFrame c1).
  { apply (update_sentStatus_holdsFrame _ _ _ H1).
    unfold holdsFrame.
    now rewrite (proj1 (update_newData_send_state c)),
                (proj2 (update_newData_send_state c)). }
  destruct (update_process_send_state (update_sendStaged c1 time status) time)
    as [Hw Hn].
  destruct (update_process _ _) as [c2 ev2]. simpl in Hw, Hn.
  injection H as <- _. unfold holdsFrame. rewrite Hw, Hn.
  unfold update_sendStaged.
  destruct (mNextDataToSend c1) as [dataToSend|] eqn:Hn1; [|exact Hc1].
  destruct (sendNowDue c1 time); [simpl; discriminate|].
  rewrite Hn1. discriminate.
Qed.

(** The part of the contract of [send] that the code keeps: [send]
    answers [-1] exactly when the waiting flag is up; the flag rises only
    in a call of [update] that reaches [sendNow] with a frame the driver
    accepts; and while a frame is staged and has not been passed to the
    driver, [sendingPossible] is [true] and [send] answers [0] and puts
    the new frame in the place of the staged one. *)
Lemma send_accepted_while_staged :
  (forall c macAddress data dataLength maxSendTries channel,
      snd (send c macAddress data dataLength maxSendTries channel) = -1
      <-> WAITING_FOR_DATA_SENT_MUTEX c = true)
  /\ (forall c c' es time status,
         update c time status = Ok (c', es) ->
         WAITING_FOR_DATA_SENT_MUTEX c = false ->
         WAITING_FOR_DATA_SENT_MUTEX c' = true ->
         reachesSendNow c time = true /\ status = 0)
  /\ (forall c macAddress data dataLength maxSendTries channel,
         Staged c ->
         sendingPossible c = true
         /\ send c macAddress data dataLength maxSendTries channel
            = (set_mNextDataToSend
                 (Some (SendingData.mk macAddress
                          (firstn (Z.to_nat dataLength) data)
                          (u8 dataLength) (u8 maxSendTries) channel)) c,
               0)).
Proof.
  split; [|split].
  - intros c mac data len tries ch. unfold send.
    destruct (WAITING_FOR_DATA_SENT_MUTEX c); simpl; split;
      try reflexivity; discriminate.
  - intros c c' es time status. apply update_raises_WAITING.
  - intros c mac data len tries ch Hs.
    destruct (Staged_state c Hs) as [Hw _].
    unfold sendingPossible, send. rewrite Hw. now split.
Qed.

Lemma stagedClient_Staged : Staged stagedClient.
Proof.
  apply (Staged_update
           (fst (send (init [10; 0; 0; 0; 0; 1]) [11; 0; 0; 0; 0; 2]
                   [1; 2; 3] 3 2 0))
           50 0 stagedClient
           (match update (fst (send (init [10; 0; 0; 0; 0; 1])
                                 [11; 0; 0; 0; 0; 2] [1; 2; 3] 3 2 0)) 50 0
            with Ok (_, es) => es | Fault _ => [] end)).
  - now apply Staged_send.
  - reflexivity.
  - reflexivity.
  - discriminate.
Qed.

Lemma send_accepted_while_staged_example :
  option_map SendingData.data (mNextDataToSend stagedClient) = Some [1; 2; 3]
  /\ sendingPossible stagedClient = true
  /\ snd (send stagedClient [12; 0; 0; 0; 0; 3] [4; 5] 2 2 0) = 0
  /\ option_map SendingData.data
       (mNextDataToSend
          (fst (send stagedClient [12; 0; 0; 0; 0; 3] [4; 5] 2 2 0)))
     = Some [4; 5].
Proof.
  split; [reflexivity|].
  destruct (proj2 (proj2 send_accepted_while_staged) stagedClient
              [12; 0; 0; 0; 0; 3] [4; 5] 2 2 0 stagedClient_Staged)
    as [Hpossible Hsend].
  split; [exact Hpossible|].
  rewrite Hsend. split; reflexivity.
Defined.

End Staging.

(** ** Further facts about the routing table, the seen set and the
    status callback *)

Section RoutingHops.
Import QuackMeshRouter.

Lemma hops_unchanged (table : list RoutingEntry.t) :
  Forall2 (fun old new =>
             RoutingEntry.destination new = RoutingEntry.destination old
             /\ RoutingEntry.hops new <= RoutingEntry.hops old)
    table table.
Proof.
  induction table; constructor; [split; [reflexivity|lia]|assumption].
Qed.

(** Whatever the call, an entry of the table keeps its place and its
    destination, and its hop count does not grow. *)
Lemma updateRoutingInfo_hops (timeout : Z) (destination link : address)
    (hops : Z) (table table' : list RoutingEntry.t) :
  updateRoutingInfo timeout destination link hops table = Some table' ->
  Forall2 (fun old new =>
             RoutingEntry.destination new = RoutingEntry.destination old
             /\ RoutingEntry.hops new <= RoutingEntry.hops old)
    table table'.
Proof.
  revert table'; induction table as [|it rest IH]; simpl; intros table' H.
  - discriminate.
  - destruct (isAddressMatching _ _ && (hops <? RoutingEntry.hops it)) eqn:Hi.
    + injection H as <-. constructor.
      * simpl. apply andb_true_iff in Hi as [_ Hi].
        apply Z.ltb_lt in Hi. split; [reflexivity|lia].
      * apply hops_unchanged.
    + destruct (updateRoutingInfo _ _ _ _ rest) as [t|]; [|discriminate].
      injection H as <-. constructor; [split; [reflexivity|lia]|now apply IH].
Qed.

Lemma addOrUpdateRoutingInfo_hops_do_not_grow
    (r : t) (destination link : address) (hops : Z) :
  exists added,
    Forall2 (fun old new =>
               RoutingEntry.destination new = RoutingEntry.destination old
               /\ RoutingEntry.hops new <= RoutingEntry.hops old)
      (mRoutingTable r)
      (firstn (length (mRoutingTable r))
         (mRoutingTable (addOrUpdateRoutingInfo r destination link hops)))
    /\ mRoutingTable (addOrUpdateRoutingInfo r destination link hops)
       = firstn (length (mRoutingTable r))
           (mRoutingTable (addOrUpdateRoutingInfo r destination link hops))
         ++ added.
Proof.
  unfold addOrUpdateRoutingInfo.
  destruct (updateRoutingInfo _ _ _ _ _) as [table|] eqn:H; simpl.
  - exists []. rewrite <- (updateRoutingInfo_length _ _ _ _ _ _ H).
    rewrite firstn_all, app_nil_r. split; [|reflexivity].
    exact (updateRoutingInfo_hops _ _ _ _ _ _ H).
  - eexists. rewrite firstn_app, firstn_all, Nat.sub_diag. simpl.
    rewrite app_nil_r. split; [|reflexivity].
    apply hops_unchanged.
Qed.

End RoutingHops.

Section SeenSetAtAllTimes.
Import QuackMeshDevice.

Lemma rememberMessage_mMaxSeenMessagesQueueSize (d : t) (m : Message.t) :
  mMaxSeenMessagesQueueSize (rememberMessage d m)
  = mMaxSeenMessagesQueueSize d.
Proof. unfold rememberMessage. now destruct (isMessageAlreadySeen d m). Qed.

Lemma rememberMessage_seenWithinCap (d : t) (m : Message.t) :
  seenWithinCap d -> seenWithinCap (rememberMessage d m).
Proof.
  intros [Hmax Hlen]. split.
  - now rewrite rememberMessage_mMaxSeenMessagesQueueSize.
  - now apply rememberMessage_bounded.
Qed.

Lemma updateSeenMessages_seenWithinCap (d : t) (now : Z) :
  seenWithinCap d -> seenWithinCap (updateSeenMessages d now).
Proof.
  intros [Hmax Hlen]. split; [|now apply updateSeenMessages_bounded].
  unfold updateSeenMessages. now destruct (_ <? _).
Qed.

Lemma processReceivedAcknowledgement_seenWithinCap (d : t) (m : Message.t) :
  seenWithinCap d -> seenWithinCap (processReceivedAcknowledgement d m).
Proof.
  unfold processReceivedAcknowledgement.
  destruct (eraseFirst _ _); [|trivial]. simpl.
  now destruct (mSentStatusCallback d).
Qed.

Lemma handleOwnMessage_seenWithinCap (d d' : t) (m : Message.t) :
  handleOwnMessage d m = Ok d' -> seenWithinCap d -> seenWithinCap d'.
Proof.
  unfold handleOwnMessage. intros H Hd.
  destruct (isMessageAlreadySeen d m); [now injection H as <-|].
  pose proof (rememberMessage_seenWithinCap d m Hd) as Hr.
  destruct (Message.type m =? 0).
  { injection H as <-. now destruct (mOnMessageCallback _). }
  destruct (Message.type m =? 1).
  { injection H as <-. simpl. now destruct (mOnMessageCallback _). }
  destruct (Message.type m =? 3).
  { injection H as <-. now apply processReceivedAcknowledgement_seenWithinCap. }
  destruct (mOnMessageCallback _); [|discriminate].
  now injection H as <-.
Qed.

Lemma onMessageSent_seenWithinCap (d d' : t) (status : ESPNowSentStatus) :
  onMessageSent d status = Ok d' -> seenWithinCap d -> seenWithinCap d'.
Proof.
  unfold onMessageSent. intros H Hd.
  destruct (mMessageQueue d) as [|front rest]; [discriminate|].
  injection H as <-.
  destruct (EnqueuedMessage.type front); try exact Hd.
  destruct (ESPNowSentStatus_eqb status Fail); [|exact Hd].
  destruct (eraseFirst _ _); simpl; now destruct (mSentStatusCallback d).
Qed.

Lemma checkForConfirmationTimeout_seenWithinCap (d : t) (now : Z) :
  seenWithinCap d -> seenWithinCap (checkForConfirmationTimeout d now).
Proof.
  unfold checkForConfirmationTimeout; simpl.
  destruct (ageConfirmations _ _) as [kept erased]; simpl.
  now destruct (mSentStatusCallback d).
Qed.

Lemma processNextMessage_seenWithinCap (d : t) :
  seenWithinCap d -> seenWithinCap (processNextMessage d).
Proof.
  intros Hd. unfold processNextMessage.
  destruct (mMessageSendingInProgress d); [exact Hd|].
  destruct (mMessageQueue d) as [|next rest]; [exact Hd|].
  destruct (negb _); [exact Hd|].
  destruct (ESPNowClient.send _ _ _ _ _ _) as [c sent].
  destruct (sent =? 0); [|exact Hd].
  now destruct (EnqueuedMessage.type next).
Qed.

Lemma forwardMessage_seenWithinCap (d : t) (m : Message.t) :
  seenWithinCap d -> seenWithinCap (QuackMeshRouter.forwardMessage d m).
Proof.
  intros Hd. unfold QuackMeshRouter.forwardMessage.
  destruct (_ =? 0); [exact Hd|].
  destruct (isMessageAlreadySeen d m); [exact Hd|].
  exact (rememberMessage_seenWithinCap d m Hd).
Qed.

Section Node.
Variable handleForeign : t -> Message.t -> t.
Hypothesis handleForeign_seenWithinCap :
  forall d m, seenWithinCap d -> seenWithinCap (handleForeign d m).

Lemma dispatchAll_seenWithinCap (es : list ClientEvent) (d d' : t) :
  dispatchAll handleForeign d es = Ok d' ->
  seenWithinCap d -> seenWithinCap d'.
Proof.
  revert d; induction es as [|e es IH]; simpl; intros d H Hd.
  - now injection H as <-.
  - destruct (dispatch handleForeign d e) as [d1|] eqn:He; [|discriminate].
    simpl in H. apply (IH d1 H).
    destruct e as [status|data]; simpl in He.
    + exact (onMessageSent_seenWithinCap _ _ _ He Hd).
    + unfold onMessageReceived in He.
      destruct (isAddressMatching _ _).
      * exact (handleOwnMessage_seenWithinCap _ _ _ He Hd).
      * injection He as <-. now apply handleForeign_seenWithinCap.
Qed.

(** In every run of a node the seen set stays within its cap. *)
Lemma run_seenWithinCap (inputs : list Input) (d d' : t) :
  run handleForeign d inputs = Ok d' ->
  seenWithinCap d -> seenWithinCap d'.
Proof.
  revert d; induction inputs as [|i rest IH]; simpl; intros d H Hd.
  - now injection H as <-.
  - destruct (step handleForeign d i) as [d1|] eqn:Hi; [|discriminate].
    simpl in H. apply (IH d1 H).
    destruct i; simpl in Hi; try (injection Hi as <-; exact Hd).
    unfold update in Hi.
    destruct (ESPNowClient.update _ _ _) as [[c es]|]; [|discriminate].
    simpl in Hi.
    destruct (dispatchAll _ _ _) as [d2|] eqn:Hd2; [|discriminate].
    simpl in Hi. injection Hi as <-.
    apply processNextMessage_seenWithinCap.
    apply checkForConfirmationTimeout_seenWithinCap.
    apply updateSeenMessages_seenWithinCap.
    exact (dispatchAll_seenWithinCap _ _ _ Hd2 Hd).
Qed.

End Node.

(** Two cleanups, 1000 ms and then 1001 ms after the frame was
    remembered for 2000 ms: the entry is left with [2^32 - 1] ms. *)
Example seen_entry_wraps_after_two_cleanups :
  map SeenMessageEntry.timestamp
    (mSeenMessages
       (updateSeenMessages
          (updateSeenMessages (rememberMessage exampleDevice exampleFrame)
             1000)
          2001))
  = [4294967295].
Proof. reflexivity. Qed.

(** A cleanup that subtracts exactly what an entry has left removes it. *)
Lemma ageSeenMessages_removes_at_zero (it : SeenMessageEntry.t)
    (rest : list SeenMessageEntry.t) :
  0 <= SeenMessageEntry.timestamp it < 2 ^ 32 ->
  ageSeenMessages (SeenMessageEntry.timestamp it) (it :: rest)
  = ageSeenMessages (SeenMessageEntry.timestamp it) rest.
Proof.
  intros H. simpl. now rewrite Z.sub_diag.
Qed.

End SeenSetAtAllTimes.

Section OncePerEntry.
Import QuackMeshDevice.

Lemma statusCalls_app (a b : list AppEvent) :
  statusCalls (a ++ b) = (statusCalls a + statusCalls b)%nat.
Proof. unfold statusCalls. now rewrite filter_app, length_app. Qed.

Lemma eraseFirst_length {A : Type} (p : A -> bool) (l l' : list A) :
  eraseFirst p l = Some l' -> length l = S (length l').
Proof.
  revert l'; induction l as [|x l IH]; simpl; intros l' H; [discriminate|].
  destruct (p x); [now injection H as <-|].
  destruct (eraseFirst p l) as [r|]; [|discriminate].
  injection H as <-. simpl. f_equal. now apply IH.
Qed.

Lemma ageConfirmations_length (diff : Z) (pending : list ConfirmedMessage.t) :
  (length (fst (ageConfirmations diff pending))
   + snd (ageConfirmations diff pending))%nat
  = length pending.
Proof.
  induction pending as [|it rest IH]; simpl; [reflexivity|].
  destruct (ageConfirmations diff rest) as [kept erased]; simpl in *.
  destruct (_ <=? 0); simpl; lia.
Qed.

(** An acknowledgement and a timeout check call the status callback at
    most once for each pending confirmation they erase. *)
Lemma processReceivedAcknowledgement_once_per_entry (d : t) (m : Message.t) :
  (statusCalls (app_trace (processReceivedAcknowledgement d m))
   + length (mMessagesLeftToConfirm (processReceivedAcknowledgement d m))
   <= statusCalls (app_trace d) + length (mMessagesLeftToConfirm d))%nat.
Proof.
  unfold processReceivedAcknowledgement.
  destruct (eraseFirst _ _) as [remaining|] eqn:H; [|lia].
  apply eraseFirst_length in H.
  cbn [mSentStatusCallback set_mMessagesLeftToConfirm].
  destruct (mSentStatusCallback d);
    cbn [invoke app_trace mMessagesLeftToConfirm set_app_trace
         set_mMessagesLeftToConfirm]; [|lia].
  rewrite statusCalls_app.
  change (statusCalls [OnMessageStatus SendSuccess]) with 1%nat. lia.
Qed.

Lemma checkForConfirmationTimeout_once_per_entry (d : t) (now : Z) :
  (statusCalls (app_trace (checkForConfirmationTimeout d now))
   + length (mMessagesLeftToConfirm (checkForConfirmationTimeout d now))
   <= statusCalls (app_trace d) + length (mMessagesLeftToConfirm d))%nat.
Proof.
  unfold checkForConfirmationTimeout.
  cbn [mMessagesLeftToConfirm mLastTimeoutCheckTs set_mLastTimeoutCheckTs].
  pose proof (ageConfirmations_length (u_long (now - mLastTimeoutCheckTs d))
                (mMessagesLeftToConfirm d)) as H.
  destruct (ageConfirmations _ _) as [kept erased]. cbn [fst snd] in H.
  cbn [mSentStatusCallback set_mMessagesLeftToConfirm set_mLastTimeoutCheckTs].
  destruct (mSentStatusCallback d);
    cbn [app_trace mMessagesLeftToConfirm set_app_trace
         set_mMessagesLeftToConfirm set_mLastTimeoutCheckTs]; [|lia].
  rewrite statusCalls_app.
  assert (statusCalls (repeat (OnMessageStatus Fail) erased) = erased)
    by (clear; induction erased; [reflexivity|];
        change (S (statusCalls (repeat (OnMessageStatus Fail) erased))
                = S erased); now f_equal).
  lia.
Qed.

End OncePerEntry.

(** ** A scenario through both nodes *)

(** Direct confirmed delivery: 20 bytes go out, the receiver calls the
    message callback once and answers with an 18-byte acknowledgement,
    and the sender calls the status callback once, with [SendSuccess]. *)
Example direct_confirmed_delivery :
  stagedBytes senderUntilOnAir
  = [0; 0; 1; 0; 3; 10; 0; 0; 0; 0; 1; 11; 0; 0; 0; 0; 2; 2; 222; 173]
  /\ callbacks receiverRun
     = Some [OnMessage 1 [10; 0; 0; 0; 0; 1] [222; 173] 2]
  /\ stagedBytes receiverRun
     = [0; 0; 3; 0; 3; 11; 0; 0; 0; 0; 2; 10; 0; 0; 0; 0; 1; 0]
  /\ callbacks senderRun = Some [OnMessageStatus SendSuccess].
Proof. vm_compute. repeat split. Qed.

(** * Further properties *)

(** ** The frame on the wire *)

Lemma firstn_exact {A : Type} (l : list A) (n : nat) :
  length l = n -> firstn n l = l.
Proof. intros <-. apply firstn_all. Qed.

(** X1. A frame that fits the struct is put on the wire as [18 + len]
    bytes, and the receiving side decodes exactly that frame from what
    the interrupt handler stored. *)
Theorem frame_wire_round_trip (m : Message.t) (mac : address) :
  frameFits m ->
  let size := 18 + Message.len m in
  let received := ReceivedData.make mac (Message.bytes m size) size in
  Z.of_nat (length (Message.bytes m size)) = size
  /\ ReceivedData.dataLength received = size
  /\ Message.of_bytes
       (firstn (Z.to_nat (ReceivedData.dataLength received))
          (ReceivedData.data received)) = m.
Proof.
  destruct m as [nid ty id hop src dst len data]; unfold frameFits.
  cbn [Message.networkID Message.srcAddress Message.destAddress Message.len
       Message.data].
  intros (Hn & Hs & Hd & Hlen & Hdata).
  destruct nid as [|n0 [|n1 [|]]]; try discriminate.
  destruct src as [|s0 [|s1 [|s2 [|s3 [|s4 [|s5 [|]]]]]]]; try discriminate.
  destruct dst as [|d0 [|d1 [|d2 [|d3 [|d4 [|d5 [|]]]]]]]; try discriminate.
  assert (Hu : u8 (18 + len) = 18 + len)
    by (unfold u8, wrap; apply Z.mod_small; lia).
  assert (Hb : Message.bytes
                 (Message.mk [n0; n1] ty id hop [s0; s1; s2; s3; s4; s5]
                    [d0; d1; d2; d3; d4; d5] len data) (18 + len)
               = [n0; n1; ty; id; hop; s0; s1; s2; s3; s4; s5;
                  d0; d1; d2; d3; d4; d5; len] ++ data).
  { unfold Message.bytes. cbn [Message.networkID Message.type Message.id
      Message.hopCount Message.srcAddress Message.destAddress Message.len
      Message.data app].
    apply firstn_exact. cbn [length]. rewrite Hdata. lia. }
  unfold ReceivedData.make. cbn [ReceivedData.dataLength ReceivedData.data].
  rewrite Hb, Hu.
  assert (Hl : length ([n0; n1; ty; id; hop; s0; s1; s2; s3; s4; s5;
                        d0; d1; d2; d3; d4; d5; len] ++ data)
               = Z.to_nat (18 + len))
    by (rewrite length_app; cbn [length]; rewrite Hdata; lia).
  rewrite !(firstn_exact _ _ Hl).
  split; [rewrite Hl; lia|]. split; [reflexivity|].
  unfold Message.of_bytes.
  cbn [app skipn nth firstn length]. rewrite Hdata, Nat.sub_diag.
  cbn [repeat]. now rewrite app_nil_r.
Qed.

Lemma frame_wire_round_trip_witness :
  Message.of_bytes
    [0; 0; 1; 7; 3; 11; 0; 0; 0; 0; 2; 10; 0; 0; 0; 0; 1; 2; 222; 173]
  = exampleFrame.
Proof.
  apply (frame_wire_round_trip exampleFrame [11; 0; 0; 0; 0; 2]).
  unfold frameFits; simpl. repeat split; try reflexivity; lia.
Defined.

(** ** Duplicate suppression *)

Section Suppression.
Import QuackMeshDevice.

Lemma rememberMessage_seen (d : t) (m : Message.t) :
  0 < mSeenMessagesCleanupTimeout d ->
  isMessageAlreadySeen (rememberMessage d m) m = true.
Proof.
  intros Httl. destruct (isMessageAlreadySeen d m) eqn:Hseen.
  - unfold rememberMessage. now rewrite Hseen.
  - destruct (rememberMessage_mSeenMessages d m Hseen) as (kept & Hk & _).
    unfold isMessageAlreadySeen. rewrite Hk, existsb_app. simpl.
    rewrite seenMatches_seenEntryOf by exact Httl. now rewrite orb_true_r.
Qed.

Lemma processReceivedAcknowledgement_mSeenMessages (d : t) (m : Message.t) :
  mSeenMessages (processReceivedAcknowledgement d m) = mSeenMessages d.
Proof.
  unfold processReceivedAcknowledgement.
  destruct (eraseFirst _ _); [|reflexivity]. simpl.
  now destruct (mSentStatusCallback d).
Qed.

(** X2. Handling the same frame for the local node a second time changes
    nothing: whatever its type, the copy is dropped at the seen-set test,
    so no callback runs and nothing is enqueued for it. *)
Theorem handleOwnMessage_second_copy_dropped (d d1 : t) (m : Message.t) :
  0 < mSeenMessagesCleanupTimeout d ->
  handleOwnMessage d m = Ok d1 ->
  handleOwnMessage d1 m = Ok d1.
Proof.
  intros Httl H.
  assert (Hseen : isMessageAlreadySeen d1 m = true).
  { unfold handleOwnMessage in H.
    destruct (isMessageAlreadySeen d m) eqn:Hd; [now injection H as <-|].
    pose proof (rememberMessage_seen d m Httl) as Hr.
    unfold isMessageAlreadySeen in *.
    destruct (Message.type m =? 0).
    { injection H as <-. now destruct (mOnMessageCallback _). }
    destruct (Message.type m =? 1).
    { injection H as <-. simpl. now destruct (mOnMessageCallback _). }
    destruct (Message.type m =? 3).
    { injection H as <-.
      now rewrite processReceivedAcknowledgement_mSeenMessages. }
    destruct (mOnMessageCallback _); [|discriminate].
    now injection H as <-. }
  unfold handleOwnMessage. now rewrite Hseen.
Qed.

Lemma handleOwnMessage_second_copy_dropped_witness :
  exists d1,
    handleOwnMessage exampleDevice exampleFrame = Ok d1
    /\ handleOwnMessage d1 exampleFrame = Ok d1
    /\ app_trace d1 = [delivery exampleFrame].
Proof.
  eexists. split; [reflexivity|]. split; [|reflexivity].
  apply (handleOwnMessage_second_copy_dropped exampleDevice);
    reflexivity.
Defined.

(** X3. A router forwards a frame at most once: forwarding the same
    frame again leaves the node as it is. *)
Theorem forwardMessage_idempotent (d : t) (m : Message.t) :
  0 < mSeenMessagesCleanupTimeout d ->
  QuackMeshRouter.forwardMessage (QuackMeshRouter.forwardMessage d m) m
  = QuackMeshRouter.forwardMessage d m.
Proof.
  intros Httl. unfold QuackMeshRouter.forwardMessage at 2.
  destruct (Message.hopCount m - 1 =? 0) eqn:Hhop.
  { unfold QuackMeshRouter.forwardMessage. now rewrite Hhop. }
  destruct (isMessageAlreadySeen d m) eqn:Hseen.
  { unfold QuackMeshRouter.forwardMessage. now rewrite Hhop, Hseen. }
  unfold QuackMeshRouter.forwardMessage. rewrite Hhop, Hseen.
  pose proof (rememberMessage_seen d m Httl) as Hr.
  match goal with
  | |- (if ?c then _ else _) = _ =>
      change c with (isMessageAlreadySeen (rememberMessage d m) m)
  end.
  now rewrite Hr.
Qed.

Lemma forwardMessage_idempotent_witness :
  length
    (mMessageQueue
       (QuackMeshRouter.forwardMessage
          (QuackMeshRouter.forwardMessage exampleDevice (frameOfType 0))
          (frameOfType 0)))
  = 1%nat.
Proof.
  rewrite (forwardMessage_idempotent exampleDevice (frameOfType 0) eq_refl).
  reflexivity.
Defined.

End Suppression.

(** ** Routes *)

Section Routes.
Import QuackMeshRouter.

Lemma bytes_eqb_sym (a b : list Z) : bytes_eqb a b = bytes_eqb b a.
Proof.
  revert b; induction a as [|x a IH]; intros [|y b]; simpl; try reflexivity.
  now rewrite Z.eqb_sym, IH.
Qed.

Lemma isAddressMatching_sym (a b : address) :
  isAddressMatching a b = isAddressMatching b a.
Proof. apply bytes_eqb_sym. Qed.

Lemma findLink_firstEntryFor (destination : address)
    (table : list RoutingEntry.t) :
  findLink destination table
  = option_map RoutingEntry.link (firstEntryFor destination table).
Proof.
  induction table as [|it rest IH]; simpl; [reflexivity|].
  now destruct (isAddressMatching destination (RoutingEntry.destination it)).
Qed.

Lemma firstEntryFor_none_improves (destination : address) (hops : Z)
    (table : list RoutingEntry.t) :
  firstEntryFor destination table = None ->
  existsb (improves destination hops) table = false.
Proof.
  induction table as [|it rest IH]; simpl; [reflexivity|].
  destruct (isAddressMatching destination (RoutingEntry.destination it))
    eqn:Hm; [discriminate|].
  intros H. rewrite (IH H), orb_false_r. unfold improves.
  now rewrite isAddressMatching_sym, Hm.
Qed.

Lemma findLink_app_none (destination : address)
    (table extra : list RoutingEntry.t) :
  firstEntryFor destination table = None ->
  findLink destination (table ++ extra) = findLink destination extra.
Proof.
  induction table as [|it rest IH]; simpl; [reflexivity|].
  destruct (isAddressMatching destination (RoutingEntry.destination it));
    [discriminate|exact IH].
Qed.

(** X4. Insert, then look up: after [addOrUpdateRoutingInfo] for a
    destination that had no entry, or whose first entry had more hops
    than the new route, [getMACAddressForDestination] returns the new
    link for that destination. *)
Theorem addOrUpdateRoutingInfo_then_lookup
    (r : t) (destination link : address) (hops : Z) :
  match firstEntryFor destination (mRoutingTable r) with
  | None => True
  | Some it => hops < RoutingEntry.hops it
  end ->
  getMACAddressForDestination
    (addOrUpdateRoutingInfo r destination link hops) destination
  = link.
Proof.
  unfold getMACAddressForDestination, addOrUpdateRoutingInfo.
  generalize (mRoutingTableUpdateTimeout r) as timeout.
  intros timeout H.
  destruct (firstEntryFor destination (mRoutingTable r)) as [e|] eqn:He.
  - assert (Hu : exists table',
               updateRoutingInfo timeout destination link hops (mRoutingTable r)
               = Some table'
               /\ findLink destination table' = Some link).
    { clear - He H. induction (mRoutingTable r) as [|it rest IH];
        simpl in *; [discriminate|].
      destruct (isAddressMatching destination (RoutingEntry.destination it))
        eqn:Hm.
      - injection He as ->. rewrite isAddressMatching_sym, Hm.
        apply Z.ltb_lt in H. rewrite H. simpl.
        eexists. split; [reflexivity|]. simpl. now rewrite Hm.
      - rewrite isAddressMatching_sym, Hm. simpl.
        destruct (IH He) as (table' & -> & Hf). simpl.
        eexists. split; [reflexivity|]. simpl. now rewrite Hm. }
    destruct Hu as (table' & -> & Hf). simpl. now rewrite Hf.
  - rewrite updateRoutingInfo_none
      by now apply firstEntryFor_none_improves.
    simpl. rewrite findLink_app_none by exact He. simpl.
    now rewrite isAddressMatching_refl.
Qed.

Lemma addOrUpdateRoutingInfo_then_lookup_witness :
  getMACAddressForDestination
    (addOrUpdateRoutingInfo oneRouteRouter [1; 0; 0; 0; 0; 0]
       [3; 0; 0; 0; 0; 7] 2) [1; 0; 0; 0; 0; 0]
  = [3; 0; 0; 0; 0; 7]
  /\ getMACAddressForDestination
       (addOrUpdateRoutingInfo oneRouteRouter [1; 0; 0; 0; 0; 9]
          [3; 0; 0; 0; 0; 7] 2) [1; 0; 0; 0; 0; 9]
     = [3; 0; 0; 0; 0; 7].
Proof.
  split.
  - apply (addOrUpdateRoutingInfo_then_lookup oneRouteRouter). reflexivity.
  - apply (addOrUpdateRoutingInfo_then_lookup oneRouteRouter). exact I.
Defined.

Lemma findLink_updateRoutingInfo (timeout : Z) (destination link other : address)
    (hops : Z) (table table' : list RoutingEntry.t) :
  isAddressMatching other destination = false ->
  updateRoutingInfo timeout destination link hops table = Some table' ->
  findLink other table' = findLink other table.
Proof.
  intros Ho. revert table'; induction table as [|it rest IH]; simpl;
    intros table' H; [discriminate|].
  destruct (isAddressMatching (RoutingEntry.destination it) destination
            && (hops <? RoutingEntry.hops it)) eqn:Hi.
  - injection H as <-. simpl.
    apply andb_true_iff in Hi as [Hi _]. apply bytes_eqb_eq in Hi.
    rewrite Hi, Ho. reflexivity.
  - destruct (updateRoutingInfo _ _ _ _ rest) as [t'|]; [|discriminate].
    injection H as <-. simpl.
    destruct (isAddressMatching other (RoutingEntry.destination it));
      [reflexivity|now apply IH].
Qed.

(** X5. A call of [addOrUpdateRoutingInfo] for one destination does not
    change the next hop of any other destination. *)
Theorem addOrUpdateRoutingInfo_other_destinations
    (r : t) (destination link other : address) (hops : Z) :
  isAddressMatching other destination = false ->
  getMACAddressForDestination
    (addOrUpdateRoutingInfo r destination link hops) other
  = getMACAddressForDestination r other.
Proof.
  intros Ho. unfold getMACAddressForDestination, addOrUpdateRoutingInfo.
  destruct (updateRoutingInfo _ _ _ _ _) as [table'|] eqn:Hu; simpl.
  - now rewrite (findLink_updateRoutingInfo _ _ _ _ _ _ _ Ho Hu).
  - assert (H : forall table,
               findLink other
                 (table ++ [RoutingEntry.mk destination link hops
                              (i16 (mRoutingTableUpdateTimeout r))])
               = findLink other table).
    { induction table as [|it rest IH]; simpl; [now rewrite Ho|].
      now destruct (isAddressMatching other (RoutingEntry.destination it)). }
    now rewrite H.
Qed.

Lemma addOrUpdateRoutingInfo_other_destinations_witness :
  getMACAddressForDestination
    (addOrUpdateRoutingInfo fullRouter [1; 0; 0; 0; 0; 3]
       [3; 0; 0; 0; 0; 7] 1) [1; 0; 0; 0; 0; 4]
  = [2; 0; 0; 0; 0; 1].
Proof.
  rewrite (addOrUpdateRoutingInfo_other_destinations fullRouter
             [1; 0; 0; 0; 0; 3] [3; 0; 0; 0; 0; 7] [1; 0; 0; 0; 0; 4] 1
             eq_refl).
  reflexivity.
Defined.

Lemma i16_u_long_small (x : Z) :
  - 2 ^ 15 <= x < 2 ^ 15 -> i16 (u_long x) = x.
Proof.
  intros H. unfold i16, u_long, wrap, u_long_bits.
  assert (H32 : (x mod 2 ^ 32) mod 2 ^ 16 = x mod 2 ^ 16).
  { apply Z.mod_mod_divide. exists (2 ^ 16). reflexivity. }
  rewrite H32.
  destruct (Z_lt_le_dec x 0).
  - assert (Hm : x mod 2 ^ 16 = x + 2 ^ 16)
      by (symmetry; apply Z.mod_unique with (q := -1); lia).
    rewrite Hm. destruct (Z.ltb_spec (x + 2 ^ 16) (2 ^ 15)); lia.
  - rewrite Z.mod_small by lia.
    destruct (Z.ltb_spec x (2 ^ 15)); lia.
Qed.

Lemma ageRoutingTable_filter (diff : Z) (table : list RoutingEntry.t) :
  0 <= diff <= 32768 ->
  forallb routeAlive table = true ->
  ageRoutingTable diff table
  = map (agedRoute diff)
      (filter (fun it => diff <? RoutingEntry.timestamp it) table).
Proof.
  intros Hd. induction table as [|it rest IH]; simpl; [reflexivity|].
  rewrite andb_true_iff. unfold routeAlive at 1.
  rewrite andb_true_iff, Z.ltb_lt, Z.leb_le. intros [[H0 H1] Hrest].
  rewrite i16_u_long_small by lia. rewrite (IH Hrest).
  destruct (Z.leb_spec (RoutingEntry.timestamp it - diff) 0);
    destruct (Z.ltb_spec diff (RoutingEntry.timestamp it)); try lia;
    reflexivity.
Qed.

(** X6. Ageing of the routing table.  A call of [updateRoutingTable]
    less than the update interval after the previous one changes nothing.
    Otherwise, when the elapsed time is at most 32768 ms and every entry
    has a positive remaining time, the call removes exactly the entries
    with no more than the elapsed time left and takes the elapsed time off
    the others, keeping their order; every entry that stays has a
    positive remaining time again. *)
Theorem updateRoutingTable_ages (r : t) (now : Z) :
  let diff := u_long (now - mLastRoutingTableUpdateTs r) in
  diff <= 32768 ->
  forallb routeAlive (mRoutingTable r) = true ->
  mRoutingTable (updateRoutingTable r now)
  = (if diff <? mRoutingTableUpdateInterval r then mRoutingTable r
     else map (agedRoute diff)
            (filter (fun it => diff <? RoutingEntry.timestamp it)
               (mRoutingTable r)))
  /\ forallb routeAlive (mRoutingTable (updateRoutingTable r now)) = true.
Proof.
  intros diff Hd Halive.
  pose proof (u_long_range (now - mLastRoutingTableUpdateTs r)) as Hr.
  assert (Ht : mRoutingTable (updateRoutingTable r now)
               = if diff <? mRoutingTableUpdateInterval r
                 then mRoutingTable r
                 else map (agedRoute diff)
                        (filter (fun it => diff <? RoutingEntry.timestamp it)
                           (mRoutingTable r))).
  { unfold updateRoutingTable. fold diff.
    destruct (diff <? mRoutingTableUpdateInterval r); [reflexivity|].
    simpl. apply ageRoutingTable_filter; [fold diff; lia|exact Halive]. }
  split; [exact Ht|]. rewrite Ht.
  destruct (diff <? mRoutingTableUpdateInterval r); [exact Halive|].
  clear Ht. induction (mRoutingTable r) as [|it rest IH]; [reflexivity|].
  simpl in Halive. apply andb_true_iff in Halive as [Hit Hrest].
  simpl. destruct (Z.ltb_spec diff (RoutingEntry.timestamp it)).
  - simpl. rewrite (IH Hrest), andb_true_r.
    unfold routeAlive in *. simpl.
    apply andb_true_iff in Hit as [_ Hle]. apply Z.leb_le in Hle.
    apply andb_true_iff. split; [apply Z.ltb_lt|apply Z.leb_le]; lia.
  - exact (IH Hrest).
Qed.

Lemma updateRoutingTable_ages_witness :
  map RoutingEntry.timestamp
    (mRoutingTable
       (updateRoutingTable
          (set_mRoutingTable
             [RoutingEntry.mk [1; 0; 0; 0; 0; 0] [2; 0; 0; 0; 0; 1] 2 100;
              RoutingEntry.mk [1; 0; 0; 0; 0; 1] [2; 0; 0; 0; 0; 1] 2 9000]
             (init [10; 0; 0; 0; 0; 1]))
          150))
  = [8850].
Proof.
  rewrite (proj1 (updateRoutingTable_ages
                    (set_mRoutingTable
                       [RoutingEntry.mk [1; 0; 0; 0; 0; 0] [2; 0; 0; 0; 0; 1]
                          2 100;
                        RoutingEntry.mk [1; 0; 0; 0; 0; 1] [2; 0; 0; 0; 0; 1]
                          2 9000]
                       (init [10; 0; 0; 0; 0; 1]))
                    150 ltac:(vm_compute; discriminate) eq_refl)).
  reflexivity.
Defined.

End Routes.

(** ** The link adapter: callbacks, retries, ingress *)

Section Adapter.
Import ESPNowClient.

Lemma update_sendStaged_none (c : t) (time status : Z) :
  mNextDataToSend c = None -> update_sendStaged c time status = c.
Proof. unfold update_sendStaged. now intros ->. Qed.

Lemma update_sentStatus_statuses (c c' : t) (es : list ClientEvent) :
  update_sentStatus c = Ok (c', es) ->
  (es = [] \/ es = [SentCallback SendSuccess]
   \/ es = [SentCallback SendBroadcast] \/ es = [SentCallback Fail])
  /\ (es <> [] ->
      mNextDataToSend c' = None /\ WAITING_FOR_DATA_SENT_MUTEX c' = false).
Proof.
  destruct c; unfold update_sentStatus; simpl. intros H.
  destruct DATA_SENT_UPDATE_MUTEX0;
    [|injection H as <- <-; split; [now left|congruence]].
  destruct LAST_SENT_STATUS0; simpl in H;
    repeat match type of H with
      | context [match ?x with _ => _ end] => destruct x; simpl in H
      end;
    try discriminate; injection H as <- <-; simpl;
    (split; [tauto|intros _; now split]) || (split; [tauto|congruence]).
Qed.

(** X7. One call of [update] calls the sent callback at most once, and
    only with [SendSuccess], [SendBroadcast] or [Fail], never with
    [PartialFail] or [Undetermined]; after a call of the sent callback
    the client holds no frame and accepts the next [send]. *)
Theorem update_sent_callback_is_final
    (c c' : t) (es : list ClientEvent) (time status : Z) :
  update c time status = Ok (c', es) ->
  (sentStatuses es = [] \/ sentStatuses es = [SendSuccess]
   \/ sentStatuses es = [SendBroadcast] \/ sentStatuses es = [Fail])
  /\ (sentStatuses es <> [] ->
      mNextDataToSend c' = None /\ sendingPossible c' = true).
Proof.
  unfold update. intros H.
  destruct (update_sentStatus (update_newData c)) as [[c1 ev1]|] eqn:H1;
    [|discriminate].
  simpl in H.
  destruct (update_sentStatus_statuses _ _ _ H1) as [Hev Hidle].
  pose proof (update_process_sentStatuses (update_sendStaged c1 time status)
                time) as Hp.
  destruct (update_process_send_state (update_sendStaged c1 time status) time)
    as [Hw Hn].
  destruct (update_process _ _) as [c2 ev2]. simpl in Hp, Hw, Hn.
  injection H as <- <-. rewrite sentStatuses_app, Hp, app_nil_r.
  split.
  - destruct Hev as [-> | [-> | [-> | ->]]]; simpl; tauto.
  - intros Hne.
    assert (Hev1 : ev1 <> []) by (intros ->; now apply Hne).
    destruct (Hidle Hev1) as [Hn1 Hw1].
    rewrite (update_sendStaged_none _ _ _ Hn1) in Hw, Hn.
    unfold sendingPossible. rewrite Hw, Hn, Hn1, Hw1. now split.
Qed.

Lemma update_sent_callback_is_final_witness :
  exists c' es,
    update failedUnicast 200 0 = Ok (c', es)
    /\ sentStatuses es = [Fail]
    /\ mNextDataToSend c' = None /\ sendingPossible c' = true.
Proof.
  let r := eval vm_compute in (update failedUnicast 200 0) in
  match r with
  | Ok (?c, ?es) =>
      assert (H : update failedUnicast 200 0 = Ok (c, es))
        by (vm_compute; reflexivity);
      exists c, es; split; [exact H|];
      destruct (update_sent_callback_is_final _ _ _ _ _ H) as [_ Hidle];
      split; [reflexivity|]; apply Hidle; discriminate
  end.
Defined.

(** While the client waits for a delivery report and none has come in,
    [update] neither sends nor hands a received frame on. *)
Lemma update_while_waiting (c : t) (time status : Z) :
  WAITING_FOR_DATA_SENT_MUTEX c = true ->
  DATA_SENT_UPDATE_MUTEX c = false ->
  exists c',
    update c time status = Ok (c', [])
    /\ WAITING_FOR_DATA_SENT_MUTEX c' = true
    /\ DATA_SENT_UPDATE_MUTEX c' = false
    /\ mNextDataToSend c' = mNextDataToSend c.
Proof.
  destruct c; simpl. intros -> ->.
  unfold update, update_newData, update_sentStatus, update_sendStaged,
    sendNowDue, update_process; simpl.
  destruct NEW_DATA_RECEIVED_MUTEX0; simpl;
    destruct mNextDataToSend0; simpl;
    rewrite ?andb_false_r; simpl; eexists; repeat split.
Qed.

Lemma updates_while_waiting (calls : list (Z * Z)) (c : t) :
  WAITING_FOR_DATA_SENT_MUTEX c = true ->
  DATA_SENT_UPDATE_MUTEX c = false ->
  exists c',
    updates c calls = Ok (c', [])
    /\ WAITING_FOR_DATA_SENT_MUTEX c' = true
    /\ mNextDataToSend c' = mNextDataToSend c.
Proof.
  revert c; induction calls as [|[time status] rest IH]; intros c Hw Hu.
  - exists c. now repeat split.
  - destruct (update_while_waiting c time status Hw Hu)
      as (c1 & H1 & Hw1 & Hu1 & Hn1).
    destruct (IH c1 Hw1 Hu1) as (c2 & H2 & Hw2 & Hn2).
    exists c2. simpl. rewrite H1. simpl. rewrite H2. simpl.
    repeat split; congruence.
Qed.

(** X8. The link-level retry does not take place.  When the driver
    reports a frame as not delivered and tries are left, [update] keeps
    the frame but leaves the waiting flag up, so the frame is not passed
    to the driver again: in any number of further calls of [update] no
    callback runs (received frames stay in the queue too), and [send]
    keeps answering [-1]. *)
Theorem partial_fail_blocks_the_client
    (c : t) (d : SendingData.t) (time status : Z) (calls : list (Z * Z)) :
  WAITING_FOR_DATA_SENT_MUTEX c = true ->
  DATA_SENT_UPDATE_MUTEX c = true ->
  LAST_SENT_STATUS c = PartialFail ->
  mNextDataToSend c = Some d ->
  SendingData.maxTriesLeft d <> 0 ->
  exists c',
    updates c ((time, status) :: calls) = Ok (c', [])
    /\ mNextDataToSend c' = Some d
    /\ sendingPossible c' = false
    /\ forall macAddress data dataLength maxSendTries channel,
         send c' macAddress data dataLength maxSendTries channel = (c', -1).
Proof.
  intros Hw Hu Hl Hn Ht.
  assert (H1 : exists c1,
             update c time status = Ok (c1, [])
             /\ WAITING_FOR_DATA_SENT_MUTEX c1 = true
             /\ DATA_SENT_UPDATE_MUTEX c1 = false
             /\ mNextDataToSend c1 = Some d).
  { destruct c; simpl in *. subst.
    apply Z.eqb_neq in Ht.
    unfold update, update_newData, update_sentStatus, update_sendStaged,
      sendNowDue, update_process; simpl.
    destruct NEW_DATA_RECEIVED_MUTEX0; simpl; rewrite Ht; simpl;
      rewrite ?andb_false_r; simpl; eexists; repeat split. }
  destruct H1 as (c1 & H1 & Hw1 & Hu1 & Hn1).
  destruct (updates_while_waiting calls c1 Hw1 Hu1) as (c2 & H2 & Hw2 & Hn2).
  exists c2. simpl. rewrite H1. simpl. rewrite H2. simpl.
  split; [reflexivity|]. split; [congruence|].
  unfold sendingPossible, send. rewrite Hw2. split; [reflexivity|].
  reflexivity.
Qed.

Lemma partial_fail_blocks_the_client_witness :
  length (RECEIVED_DATA refusedClient) = 0%nat
  /\ NEW_DATA_RECEIVED_MUTEX refusedClient = true
  /\ exists c',
       updates refusedClient [(200, 0); (300, 0); (5000, 0)] = Ok (c', [])
       /\ length (RECEIVED_DATA c') = 1%nat
       /\ sendingPossible c' = false.
Proof.
  split; [reflexivity|]. split; [reflexivity|].
  destruct (partial_fail_blocks_the_client refusedClient
              (SendingData.mk [11; 0; 0; 0; 0; 2] [1; 2; 3] 3 1 0)
              200 0 [(300, 0); (5000, 0)]
              eq_refl eq_refl eq_refl eq_refl)
    as (c' & Hrun & _ & Hbusy & _).
  - discriminate.
  - exists c'. split; [exact Hrun|]. split; [|exact Hbusy].
    assert (Hc : Ok (c', @nil ClientEvent)
                 = updates refusedClient [(200, 0); (300, 0); (5000, 0)])
      by (symmetry; exact Hrun).
    vm_compute in Hc. injection Hc as ->. reflexivity.
Defined.

(** With the waiting flag up and no report pending, [update] leaves the
    recorded status alone as well. *)
Lemma update_while_waiting_status (c : t) (time status : Z) :
  WAITING_FOR_DATA_SENT_MUTEX c = true ->
  DATA_SENT_UPDATE_MUTEX c = false ->
  exists c',
    update c time status = Ok (c', [])
    /\ WAITING_FOR_DATA_SENT_MUTEX c' = true
    /\ DATA_SENT_UPDATE_MUTEX c' = false
    /\ LAST_SENT_STATUS c' = LAST_SENT_STATUS c
    /\ mNextDataToSend c' = mNextDataToSend c.
Proof.
  destruct c; simpl. intros -> ->.
  unfold update, update_newData, update_sentStatus, update_sendStaged,
    sendNowDue, update_process; simpl.
  destruct NEW_DATA_RECEIVED_MUTEX0; simpl;
    destruct mNextDataToSend0; simpl;
    rewrite ?andb_false_r; simpl; eexists; repeat split.
Qed.

Lemma updates_while_waiting_status (calls : list (Z * Z)) (c : t) :
  WAITING_FOR_DATA_SENT_MUTEX c = true ->
  DATA_SENT_UPDATE_MUTEX c = false ->
  exists c',
    updates c calls = Ok (c', [])
    /\ WAITING_FOR_DATA_SENT_MUTEX c' = true
    /\ DATA_SENT_UPDATE_MUTEX c' = false
    /\ LAST_SENT_STATUS c' = LAST_SENT_STATUS c
    /\ mNextDataToSend c' = mNextDataToSend c.
Proof.
  revert c; induction calls as [|[time status] rest IH]; intros c Hw Hu.
  - exists c. now repeat split.
  - destruct (update_while_waiting_status c time status Hw Hu)
      as (c1 & H1 & Hw1 & Hu1 & Hl1 & Hn1).
    destruct (IH c1 Hw1 Hu1) as (c2 & H2 & Hw2 & Hu2 & Hl2 & Hn2).
    exists c2. simpl. rewrite H1. simpl. rewrite H2. simpl.
    repeat split; congruence.
Qed.

(** An accepted frame goes to the driver in the first [update] that is
    due; when the driver takes it, the waiting flag rises and one try is
    counted. *)
Lemma send_then_update_transmits
    (c : t) (macAddress : address) (data : list Z)
    (dataLength maxSendTries channel time : Z) :
  WAITING_FOR_DATA_SENT_MUTEX c = false ->
  DATA_SENT_UPDATE_MUTEX c = false ->
  mMessageSendInterval c <= u_long (time - mLastMessageSentTs c) ->
  exists c1,
    update (fst (send c macAddress data dataLength maxSendTries channel))
      time 0 = Ok (c1, [])
    /\ WAITING_FOR_DATA_SENT_MUTEX c1 = true
    /\ DATA_SENT_UPDATE_MUTEX c1 = false
    /\ mNextDataToSend c1
       = Some (SendingData.mk macAddress (firstn (Z.to_nat dataLength) data)
                 (u8 dataLength) (u8 (u8 maxSendTries - 1)) channel).
Proof.
  destruct c; simpl. intros -> -> Hdue. apply Z.geb_le in Hdue.
  unfold send, update, update_newData, update_sentStatus, update_sendStaged,
    sendNowDue, sendNow, update_process; simpl.
  destruct NEW_DATA_RECEIVED_MUTEX0; simpl; rewrite Hdue; simpl;
    rewrite ?andb_false_r; simpl; eexists; repeat split.
Qed.

(** A report that the frame was not delivered, with tries left, is taken
    in by the next [update] without lowering the waiting flag. *)
Lemma update_takes_partial_fail
    (c : t) (d : SendingData.t) (report time status : Z) :
  WAITING_FOR_DATA_SENT_MUTEX c = true ->
  mNextDataToSend c = Some d ->
  SendingData.maxTriesLeft d <> 0 ->
  report <> 0 ->
  exists c',
    update (onDataSent c report) time status = Ok (c', [])
    /\ WAITING_FOR_DATA_SENT_MUTEX c' = true
    /\ DATA_SENT_UPDATE_MUTEX c' = false
    /\ LAST_SENT_STATUS c' = Undetermined
    /\ mNextDataToSend c' = Some d.
Proof.
  destruct c; simpl. intros -> -> Ht Hr.
  apply Z.eqb_neq in Ht. apply Z.eqb_neq in Hr.
  unfold onDataSent, processDataSent, update, update_newData,
    update_sentStatus, update_sendStaged, sendNowDue, update_process; simpl.
  rewrite Hr; simpl.
  destruct NEW_DATA_RECEIVED_MUTEX0; simpl; rewrite Ht; simpl;
    rewrite ?andb_false_r; simpl; eexists; repeat split.
Qed.

(** C10. [send] goes on answering [-1] when no frame awaits its sent
    status any more.  A frame accepted by [send] with two tries or more
    is passed to the driver by the first [update] that is due; when the
    driver then reports that the frame was not delivered, the next
    [update] takes the report in: none is pending and the recorded
    status is [Undetermined] again, the frame is kept with the tries
    that are left, but the waiting flag stays up.  From then on, through
    any number of calls of [update], [sendingPossible] is [false] and
    every [send] is answered [-1]: the frame is not sent again and no
    later frame is accepted. *)
Theorem send_busy_after_report_taken
    (c : t) (macAddress : address) (data : list Z)
    (dataLength maxSendTries channel time report : Z)
    (next : Z * Z) (calls : list (Z * Z)) :
  WAITING_FOR_DATA_SENT_MUTEX c = false ->
  DATA_SENT_UPDATE_MUTEX c = false ->
  mMessageSendInterval c <= u_long (time - mLastMessageSentTs c) ->
  2 <= maxSendTries <= 255 ->
  report <> 0 ->
  snd (send c macAddress data dataLength maxSendTries channel) = 0
  /\ exists c1 c2,
       update (fst (send c macAddress data dataLength maxSendTries channel))
         time 0 = Ok (c1, [])
       /\ WAITING_FOR_DATA_SENT_MUTEX c1 = true
       /\ updates (onDataSent c1 report) (next :: calls) = Ok (c2, [])
       /\ DATA_SENT_UPDATE_MUTEX c2 = false
       /\ LAST_SENT_STATUS c2 = Undetermined
       /\ mNextDataToSend c2
          = Some (SendingData.mk macAddress
                    (firstn (Z.to_nat dataLength) data) (u8 dataLength)
                    (maxSendTries - 1) channel)
       /\ sendingPossible c2 = false
       /\ forall macAddress' data' dataLength' maxSendTries' channel',
            send c2 macAddress' data' dataLength' maxSendTries' channel'
            = (c2, -1).
Proof.
  intros Hw Hu Hdue Htries Hreport. split.
  { unfold send. now rewrite Hw. }
  destruct (send_then_update_transmits c macAddress data dataLength
              maxSendTries channel time Hw Hu Hdue)
    as (c1 & H1 & Hw1 & _ & Hn1).
  assert (Hleft : u8 (u8 maxSendTries - 1) = maxSendTries - 1).
  { unfold u8, wrap. rewrite (Z.mod_small maxSendTries) by (simpl; lia).
    apply Z.mod_small. simpl. lia. }
  rewrite Hleft in Hn1. destruct next as [time2 status2].
  destruct (update_takes_partial_fail c1 _ report time2 status2 Hw1 Hn1)
    as (c1' & H2 & Hw2 & Hu2 & Hl2 & Hn2);
    [simpl; lia | exact Hreport |].
  destruct (updates_while_waiting_status calls c1' Hw2 Hu2)
    as (c2 & H3 & Hw3 & Hu3 & Hl3 & Hn3).
  exists c1, c2. split; [exact H1|]. split; [exact Hw1|].
  split; [simpl; rewrite H2; simpl; rewrite H3; reflexivity|].
  split; [exact Hu3|]. split; [congruence|]. split; [congruence|].
  unfold sendingPossible, send. rewrite Hw3. split; [reflexivity|].
  reflexivity.
Qed.

Lemma send_busy_after_report_taken_witness :
  exists c1 c2,
    update (fst (send (init [10; 0; 0; 0; 0; 1]) [11; 0; 0; 0; 0; 2]
                   [1; 2; 3] 3 2 0)) 100 0 = Ok (c1, [])
    /\ updates (onDataSent c1 1) [(200, 0); (300, 0); (5000, 0)]
       = Ok (c2, [])
    /\ DATA_SENT_UPDATE_MUTEX c2 = false
    /\ LAST_SENT_STATUS c2 = Undetermined
    /\ option_map SendingData.maxTriesLeft (mNextDataToSend c2) = Some 1
    /\ snd (send c2 [12; 0; 0; 0; 0; 3] [4; 5] 2 2 0) = -1.
Proof.
  destruct (send_busy_after_report_taken (init [10; 0; 0; 0; 0; 1])
              [11; 0; 0; 0; 0; 2] [1; 2; 3] 3 2 0 100 1 (200, 0)
              [(300, 0); (5000, 0)] eq_refl eq_refl)
    as (_ & c1 & c2 & H1 & _ & H2 & Hu & Hl & Hn & _ & Hbusy);
    [vm_compute; discriminate | lia | discriminate |].
  exists c1, c2. split; [exact H1|]. split; [exact H2|].
  split; [exact Hu|]. split; [exact Hl|].
  split; [now rewrite Hn|]. now rewrite Hbusy.
Defined.

(** X9. The ingress slot holds one frame.  A frame shorter than the
    18-byte header is dropped by the interrupt handler; a frame that
    arrives before [update] has moved the previous one into the queue
    takes its place, so of two such frames only the second is queued. *)
Theorem ingress_slot_keeps_last_frame
    (c : t) (mac1 mac2 : address) (data1 data2 : list Z) (len1 len2 : Z) :
  RECIEVED_DATA_ACCESS_MUTEX c = false ->
  (u8 len1 < 18 -> onDataReceived c mac1 data1 len1 = c)
  /\ (18 <= u8 len2 ->
      onDataReceived (onDataReceived c mac1 data1 len1) mac2 data2 len2
      = onDataReceived c mac2 data2 len2
      /\ RECEIVED_DATA
           (update_newData
              (onDataReceived (onDataReceived c mac1 data1 len1)
                 mac2 data2 len2))
         = RECEIVED_DATA c ++ [ReceivedData.make mac2 data2 (u8 len2)]).
Proof.
  destruct c; simpl. intros ->.
  unfold onDataReceived, processReceivedData; simpl. split.
  - intros H. apply Z.ltb_lt in H. now rewrite H.
  - intros H. assert (H2 : (u8 len2 <? 18) = false) by now apply Z.ltb_ge.
    destruct (u8 len1 <? 18); simpl; rewrite H2; simpl;
      unfold update_newData; simpl; now split.
Qed.

Lemma ingress_slot_keeps_last_frame_witness :
  map ReceivedData.data
    (RECEIVED_DATA
       (update_newData
          (onDataReceived
             (onDataReceived (init [10; 0; 0; 0; 0; 1]) [11; 0; 0; 0; 0; 2]
                (repeat 1 18) 18)
             [12; 0; 0; 0; 0; 3] (repeat 2 18) 18)))
  = [repeat 2 18]
  /\ onDataReceived (init [10; 0; 0; 0; 0; 1]) [11; 0; 0; 0; 0; 2]
       (repeat 1 17) 17
     = init [10; 0; 0; 0; 0; 1].
Proof.
  destruct (ingress_slot_keeps_last_frame (init [10; 0; 0; 0; 0; 1])
              [11; 0; 0; 0; 0; 2] [12; 0; 0; 0; 0; 3]
              (repeat 1 18) (repeat 2 18) 18 18 eq_refl) as [_ Hlast].
  destruct (ingress_slot_keeps_last_frame (init [10; 0; 0; 0; 0; 1])
              [11; 0; 0; 0; 0; 2] [12; 0; 0; 0; 0; 3]
              (repeat 1 17) (repeat 2 18) 17 18 eq_refl) as [Hshort _].
  split.
  - rewrite (proj2 (Hlast ltac:(vm_compute; discriminate))). reflexivity.
  - apply Hshort. reflexivity.
Defined.

End Adapter.

(** ** Runs of a node *)

Section ClientInRuns.
Import ESPNowClient.

(** One call of [update] on a sound client: it does not fault, the client
    stays sound, a sent callback is made only for a frame the client
    held and leaves the client without a frame, and [update] never puts a
    frame into the client or changes the destination of the one held. *)
Lemma update_clientSound (c : t) (time status : Z) :
  clientSound c ->
  exists c' es,
    update c time status = Ok (c', es)
    /\ clientSound c'
    /\ mOnDataSentCallback c' = mOnDataSentCallback c
    /\ (sentStatuses es = []
        \/ exists st, sentStatuses es = [st]
                      /\ mNextDataToSend c <> None
                      /\ mNextDataToSend c' = None)
    /\ (forall s', mNextDataToSend c' = Some s' ->
        exists s, mNextDataToSend c = Some s
                  /\ SendingData.destAddress s' = SendingData.destAddress s)
    /\ (mOnDataSentCallback c = true -> stagedForBroadcast c ->
        sentStatuses es = [] \/ sentStatuses es = [SendBroadcast]).
Proof.
  intros [Hu Hw].
  assert (H1 : exists c1 ev1,
             update_sentStatus (update_newData c) = Ok (c1, ev1)
             /\ DATA_SENT_UPDATE_MUTEX c1 = false
             /\ (WAITING_FOR_DATA_SENT_MUTEX c1 = true ->
                 mNextDataToSend c1 <> None)
             /\ mOnDataSentCallback c1 = mOnDataSentCallback c
             /\ (ev1 = [] \/ exists st, ev1 = [SentCallback st]
                                        /\ mNextDataToSend c <> None
                                        /\ mNextDataToSend c1 = None)
             /\ (mNextDataToSend c1 = None \/
                 mNextDataToSend c1 = mNextDataToSend c)
             /\ (mOnDataSentCallback c = true -> stagedForBroadcast c ->
                 ev1 = [] \/ ev1 = [SentCallback SendBroadcast])).
  { unfold stagedForBroadcast. destruct c; simpl in *.
    unfold update_newData, update_sentStatus; simpl.
    destruct NEW_DATA_RECEIVED_MUTEX0; simpl;
      (destruct DATA_SENT_UPDATE_MUTEX0; simpl;
       [destruct mNextDataToSend0 as [s|]; [|now destruct Hu];
        destruct LAST_SENT_STATUS0; simpl;
        try destruct (SendingData.maxTriesLeft s =? 0); simpl;
        destruct mOnDataSentCallback0; simpl;
        try (destruct (isAddressMatching (SendingData.destAddress s)
                         BROADCAST_ADDRESS) eqn:Hb; simpl);
        do 2 eexists; (split; [reflexivity|]); simpl;
        repeat split; auto; try discriminate;
        try (right; eexists; repeat split; discriminate);
        try (intros _ Hk; specialize (Hk s eq_refl); congruence)
       |do 2 eexists; (split; [reflexivity|]); simpl;
        repeat split; auto]). }
  destruct H1 as (c1 & ev1 & H1 & Hu1 & Hw1 & Hcb1 & Hev1 & Hn1 & Hk1).
  unfold update. rewrite H1. simpl.
  assert (H2 : clientSound (update_sendStaged c1 time status)
               /\ mOnDataSentCallback (update_sendStaged c1 time status)
                  = mOnDataSentCallback c1
               /\ (mNextDataToSend c1 = None ->
                   mNextDataToSend (update_sendStaged c1 time status) = None)
               /\ (forall s', mNextDataToSend (update_sendStaged c1 time status)
                              = Some s' ->
                   exists s, mNextDataToSend c1 = Some s
                             /\ SendingData.destAddress s'
                                = SendingData.destAddress s)).
  { unfold clientSound, update_sendStaged.
    destruct (mNextDataToSend c1) as [s|] eqn:Hs.
    - destruct (sendNowDue c1 time).
      + unfold sendNow. simpl.
        destruct (WAITING_FOR_DATA_SENT_MUTEX c1); [|destruct (status =? 0)];
          simpl; repeat split; try (intros; discriminate); try reflexivity;
          try (intros s' Hs'; injection Hs' as <-; now exists s).
      + rewrite Hs. repeat split; try (intros; discriminate).
        intros s' Hs'. injection Hs' as <-. now exists s.
    - rewrite Hs. repeat split; try congruence.
      intros Hw1'. now apply Hw1. }
  destruct H2 as ([Hu2 Hw2] & Hcb2 & Hn2 & Hd2).
  pose proof (update_process_sentStatuses (update_sendStaged c1 time status)
                time) as Hp.
  destruct (update_process_send_state (update_sendStaged c1 time status) time)
    as [Hpw Hpn].
  assert (Hpu : DATA_SENT_UPDATE_MUTEX
                  (fst (update_process (update_sendStaged c1 time status) time))
                = DATA_SENT_UPDATE_MUTEX (update_sendStaged c1 time status)
                /\ mOnDataSentCallback
                     (fst (update_process (update_sendStaged c1 time status)
                             time))
                   = mOnDataSentCallback (update_sendStaged c1 time status)).
  { unfold update_process, processMessage.
    destruct (_ && _); [|now split]. simpl.
    destruct (RECIEVED_DATA_ACCESS_MUTEX _); [now split|].
    destruct (RECEIVED_DATA _); now split. }
  destruct Hpu as [Hpu Hpcb].
  destruct (update_process _ _) as [c2 ev2]. simpl in Hp, Hpw, Hpn, Hpu, Hpcb.
  exists c2, (ev1 ++ ev2). split; [reflexivity|].
  rewrite sentStatuses_app, Hp, app_nil_r.
  split; [split; [rewrite Hpu, Hpn; exact Hu2|rewrite Hpw, Hpn; exact Hw2]|].
  split; [congruence|].
  split.
  { destruct Hev1 as [-> | (st & -> & Hc & Hc1)]; [now left|].
    right. exists st. simpl. repeat split; [exact Hc|].
    rewrite Hpn. now apply Hn2. }
  split.
  { intros s' Hs'. rewrite Hpn in Hs'.
    destruct (Hd2 s' Hs') as (s & Hs & Hdest).
    destruct Hn1 as [Hn1 | Hn1]; [congruence|].
    exists s. split; [congruence|exact Hdest]. }
  intros Hcb Hk. destruct (Hk1 Hcb Hk) as [-> | ->]; simpl; tauto.
Qed.

End ClientInRuns.

Section Hooks.
Import QuackMeshDevice.

Lemma handleForeignMessage_onlyEnqueues : onlyEnqueues handleForeignMessage.
Proof.
  intros d m. unfold handleForeignMessage.
  repeat split. exists []. now rewrite app_nil_r.
Qed.

Lemma forwardMessage_onlyEnqueues :
  onlyEnqueues QuackMeshRouter.handleForeignMessage.
Proof.
  intros d m.
  unfold QuackMeshRouter.handleForeignMessage, QuackMeshRouter.forwardMessage.
  destruct (_ =? 0);
    [repeat split; exists []; now rewrite app_nil_r|].
  destruct (isMessageAlreadySeen d m) eqn:Hseen;
    [repeat split; exists []; now rewrite app_nil_r|].
  unfold rememberMessage. rewrite Hseen. simpl.
  repeat split. eexists. split; reflexivity.
Qed.

End Hooks.

Section NodeRuns.
Import QuackMeshDevice.

Variable handleForeign : t -> Message.t -> t.
Hypothesis hook : onlyEnqueues handleForeign.

(** *** No fault *)

Lemma onMessageSent_ok (d : t) (status : ESPNowSentStatus) :
  mMessageQueue d <> [] ->
  exists d',
    onMessageSent d status = Ok d'
    /\ mClient d' = mClient d
    /\ mOnMessageCallback d' = mOnMessageCallback d
    /\ mMessageQueue d' = tl (mMessageQueue d).
Proof.
  unfold onMessageSent. destruct (mMessageQueue d) as [|front rest];
    [congruence|]. intros _.
  eexists. split; [reflexivity|].
  destruct (EnqueuedMessage.type front); simpl; try now repeat split.
  destruct (ESPNowSentStatus_eqb status Fail); simpl; [|now repeat split].
  destruct (eraseFirst _ _); simpl;
    destruct (mSentStatusCallback d); now repeat split.
Qed.

Lemma processReceivedAcknowledgement_frame (d : t) (m : Message.t) :
  mClient (processReceivedAcknowledgement d m) = mClient d
  /\ mOnMessageCallback (processReceivedAcknowledgement d m)
     = mOnMessageCallback d
  /\ mMessageQueue (processReceivedAcknowledgement d m) = mMessageQueue d
  /\ mMessageSendingInProgress (processReceivedAcknowledgement d m)
     = mMessageSendingInProgress d.
Proof.
  unfold processReceivedAcknowledgement.
  destruct (eraseFirst _ _); [|now repeat split]. simpl.
  destruct (mSentStatusCallback d); now repeat split.
Qed.

Lemma rememberMessage_frame (d : t) (m : Message.t) :
  mClient (rememberMessage d m) = mClient d
  /\ mMessageSendingInProgress (rememberMessage d m)
     = mMessageSendingInProgress d.
Proof.
  unfold rememberMessage. now destruct (isMessageAlreadySeen d m).
Qed.

Lemma handleOwnMessage_ok (d : t) (m : Message.t) :
  mOnMessageCallback d = true ->
  exists d' extra,
    handleOwnMessage d m = Ok d'
    /\ mClient d' = mClient d
    /\ mOnMessageCallback d' = true
    /\ mMessageQueue d' = mMessageQueue d ++ extra.
Proof.
  intros Hcb. unfold handleOwnMessage.
  destruct (isMessageAlreadySeen d m);
    [exists d, []; now rewrite app_nil_r|].
  pose proof (rememberMessage_mOnMessageCallback d m) as Hr.
  pose proof (rememberMessage_mMessageQueue d m) as Hq.
  destruct (rememberMessage_frame d m) as [Hc _].
  rewrite Hcb in Hr.
  destruct (Message.type m =? 0).
  { rewrite Hr. eexists. exists []. split; [reflexivity|]. simpl.
    rewrite Hq, Hc, Hr, app_nil_r. now repeat split. }
  destruct (Message.type m =? 1).
  { simpl. rewrite Hr. eexists. eexists. split; [reflexivity|]. simpl.
    rewrite Hq, Hc, Hr. now repeat split. }
  destruct (Message.type m =? 3).
  { destruct (processReceivedAcknowledgement_frame (rememberMessage d m) m)
      as (Hpc & Hpcb & Hpq & _).
    eexists. exists []. split; [reflexivity|].
    rewrite Hpc, Hpcb, Hpq, Hq, Hc, Hr, app_nil_r. now repeat split. }
  rewrite Hr. eexists. exists []. split; [reflexivity|]. simpl.
  rewrite Hq, Hc, Hr, app_nil_r. now repeat split.
Qed.

Lemma dispatchAll_ok (es : list ClientEvent) (d : t) :
  mOnMessageCallback d = true ->
  (length (sentStatuses es) <= length (mMessageQueue d))%nat ->
  exists d',
    dispatchAll handleForeign d es = Ok d'
    /\ mClient d' = mClient d
    /\ mOnMessageCallback d' = true
    /\ (length (mMessageQueue d)
        <= length (mMessageQueue d') + length (sentStatuses es))%nat.
Proof.
  revert d; induction es as [|e es IH]; intros d Hcb Hlen.
  - exists d. simpl. repeat split; auto. lia.
  - destruct e as [status|data]; simpl in *.
    + assert (Hq : mMessageQueue d <> [])
        by (destruct (mMessageQueue d); simpl in *; [lia|discriminate]).
      destruct (onMessageSent_ok d status Hq) as (d1 & H1 & Hc1 & Hcb1 & Hq1).
      rewrite H1. simpl.
      assert (Hl1 : length (mMessageQueue d) = S (length (mMessageQueue d1)))
        by (rewrite Hq1; destruct (mMessageQueue d); simpl; congruence).
      destruct (IH d1) as (d' & H' & Hc' & Hcb' & Hl'); [congruence|lia|].
      exists d'. repeat split; [exact H'|congruence|exact Hcb'|lia].
    + unfold onMessageReceived.
      destruct (isAddressMatching _ _).
      * destruct (handleOwnMessage_ok d
                    (Message.of_bytes
                       (firstn (Z.to_nat (ReceivedData.dataLength data))
                          (ReceivedData.data data))) Hcb)
          as (d1 & extra & H1 & Hc1 & Hcb1 & Hq1).
        rewrite H1. simpl.
        destruct (IH d1) as (d' & H' & Hc' & Hcb' & Hl');
          [exact Hcb1|rewrite Hq1, length_app; lia|].
        exists d'. repeat split; [exact H'|congruence|exact Hcb'|].
        rewrite Hq1, length_app in Hl'. lia.
      * simpl.
        destruct (hook d
                    (Message.of_bytes
                       (firstn (Z.to_nat (ReceivedData.dataLength data))
                          (ReceivedData.data data))))
          as ((extra & Hq1 & _) & Hc1 & Hcb1 & _).
        destruct (IH (handleForeign d
                        (Message.of_bytes
                           (firstn (Z.to_nat (ReceivedData.dataLength data))
                              (ReceivedData.data data)))))
          as (d' & H' & Hc' & Hcb' & Hl');
          [congruence|rewrite Hq1, length_app; lia|].
        exists d'. repeat split; [exact H'|congruence|exact Hcb'|].
        rewrite Hq1, length_app in Hl'. lia.
Qed.

Lemma updateSeenMessages_frame (d : t) (now : Z) :
  mClient (updateSeenMessages d now) = mClient d
  /\ mOnMessageCallback (updateSeenMessages d now) = mOnMessageCallback d
  /\ mMessageSendingInProgress (updateSeenMessages d now)
     = mMessageSendingInProgress d
  /\ mMessagesLeftToConfirm (updateSeenMessages d now)
     = mMessagesLeftToConfirm d.
Proof. unfold updateSeenMessages. now destruct (_ <? _). Qed.

Lemma checkForConfirmationTimeout_frame (d : t) (now : Z) :
  mClient (checkForConfirmationTimeout d now) = mClient d
  /\ mOnMessageCallback (checkForConfirmationTimeout d now)
     = mOnMessageCallback d
  /\ mMessageQueue (checkForConfirmationTimeout d now) = mMessageQueue d
  /\ mMessageSendingInProgress (checkForConfirmationTimeout d now)
     = mMessageSendingInProgress d.
Proof.
  unfold checkForConfirmationTimeout; simpl.
  destruct (ageConfirmations _ _) as [kept erased]; simpl.
  now destruct (mSentStatusCallback d).
Qed.

Lemma processNextMessage_nodeSound (d : t) :
  nodeSound d -> nodeSound (processNextMessage d).
Proof.
  intros Hd. pose proof Hd as (Hc & Hcb & Hq).
  unfold processNextMessage.
  destruct (mMessageSendingInProgress d); [exact Hd|].
  remember (mMessageQueue d) as queue eqn:Hqueue.
  destruct queue as [|next rest]; [exact Hd|].
  unfold ESPNowClient.sendingPossible, ESPNowClient.send.
  destruct (ESPNowClient.WAITING_FOR_DATA_SENT_MUTEX (mClient d)) eqn:Hw;
    simpl; [exact Hd|].
  assert (Hs : forall s,
             clientSound (ESPNowClient.set_mNextDataToSend (Some s) (mClient d)))
    by (intros s; split; simpl; discriminate).
  destruct (EnqueuedMessage.type next); simpl;
    (split; [apply Hs|]); (split; [exact Hcb|]); intros _; simpl;
    rewrite <- Hqueue; discriminate.
Qed.

Lemma update_nodeSound (d : t) (now status : Z) :
  nodeSound d ->
  exists d', update handleForeign d now status = Ok d' /\ nodeSound d'.
Proof.
  intros (Hc & Hcb & Hq). unfold update.
  destruct (update_clientSound (mClient d) now status Hc)
    as (c' & es & Hu & Hc' & _ & Hev & Hkeep & _).
  rewrite Hu. simpl.
  assert (Hlen : (length (sentStatuses es)
                  <= length (mMessageQueue (set_mClient c' d)))%nat).
  { simpl. destruct Hev as [-> | (st & -> & Hn & _)]; simpl; [lia|].
    specialize (Hq Hn). destruct (mMessageQueue d); simpl; [congruence|lia]. }
  destruct (dispatchAll_ok es (set_mClient c' d) Hcb Hlen)
    as (d1 & H1 & Hc1 & Hcb1 & Hl1).
  rewrite H1. simpl. eexists. split; [reflexivity|].
  apply processNextMessage_nodeSound.
  destruct (checkForConfirmationTimeout_frame (updateSeenMessages d1 now) now)
    as (Ha & Hb & Hd & _).
  destruct (updateSeenMessages_frame d1 now) as (Ha' & Hb' & _).
  unfold nodeSound. rewrite Ha, Hb, Hd, Ha', Hb', Hc1.
  rewrite updateSeenMessages_mMessageQueue. simpl.
  split; [exact Hc'|]. split; [exact Hcb1|].
  intros Hn. simpl in Hl1.
  destruct Hev as [Hev | (st & Hev & _ & Hnone)]; [|congruence].
  rewrite Hev in Hl1. simpl in Hl1.
  destruct (ESPNowClient.mNextDataToSend c') as [s'|] eqn:Hs'; [|congruence].
  destruct (Hkeep s' eq_refl) as (s & Hs & _).
  assert (Hq' : mMessageQueue d <> []) by (apply Hq; congruence).
  destruct (mMessageQueue d); [congruence|].
  destruct (mMessageQueue d1); simpl in *; [lia|discriminate].
Qed.

Lemma run_nodeSound (inputs : list Input) (d : t) :
  nodeSound d ->
  reportsFollowTransmissions handleForeign d inputs ->
  exists d', run handleForeign d inputs = Ok d' /\ nodeSound d'.
Proof.
  revert d; induction inputs as [|i rest IH]; intros d Hd Hin.
  - now exists d.
  - simpl in Hin. destruct Hin as [Hi Hrest].
    assert (H1 : exists d1, step handleForeign d i = Ok d1 /\ nodeSound d1).
    { destruct Hd as ([Hu Hw] & Hcb & Hq).
      destruct i; simpl.
      - now apply update_nodeSound.
      - eexists. split; [reflexivity|].
        repeat split; simpl; auto.
      - eexists. split; [reflexivity|].
        unfold ESPNowClient.onDataReceived, ESPNowClient.processReceivedData.
        destruct (ESPNowClient.RECIEVED_DATA_ACCESS_MUTEX _);
          [now repeat split|].
        destruct (_ <? 18); now repeat split.
      - eexists. split; [reflexivity|].
        unfold sendMessage, enqueueNewMessage. simpl.
        repeat split; auto. intros _. now destruct (mMessageQueue d).
      - eexists. split; [reflexivity|].
        unfold sendConfirmedMessage, enqueueNewMessage. simpl.
        repeat split; auto. intros _. now destruct (mMessageQueue d). }
    destruct H1 as (d1 & H1 & Hd1). simpl. rewrite H1 in *. simpl.
    now apply IH.
Qed.

End NodeRuns.

(** *** The link address *)

Section ClientLink.
Import ESPNowClient.

Lemma update_sentStatus_link (c c1 : t) (ev1 : list ClientEvent) :
  update_sentStatus c = Ok (c1, ev1) ->
  mOnDataSentCallback c1 = mOnDataSentCallback c
  /\ (mNextDataToSend c1 = None \/ mNextDataToSend c1 = mNextDataToSend c)
  /\ (mOnDataSentCallback c = true -> stagedForBroadcast c ->
      ev1 = [] \/ ev1 = [SentCallback SendBroadcast]).
Proof.
  unfold stagedForBroadcast. destruct c; unfold update_sentStatus; simpl.
  intros H.
  destruct DATA_SENT_UPDATE_MUTEX0;
    [|injection H as <- <-; simpl; repeat split; auto].
  destruct LAST_SENT_STATUS0; simpl in H;
    repeat match type of H with
      | context [match ?x with _ => _ end] => destruct x eqn:?; simpl in H
      end;
    try discriminate; injection H as <- <-; simpl;
    repeat split; auto;
    try discriminate;
    try (intros _ Hk; specialize (Hk _ eq_refl); congruence).
Qed.

Lemma update_sendStaged_link (c : t) (time status : Z) :
  mOnDataSentCallback (update_sendStaged c time status)
  = mOnDataSentCallback c
  /\ forall s', mNextDataToSend (update_sendStaged c time status) = Some s' ->
       exists s, mNextDataToSend c = Some s
                 /\ SendingData.destAddress s' = SendingData.destAddress s.
Proof.
  unfold update_sendStaged.
  destruct (mNextDataToSend c) as [s|] eqn:Hs.
  - destruct (sendNowDue c time).
    + unfold sendNow. simpl.
      destruct (WAITING_FOR_DATA_SENT_MUTEX c); [|destruct (status =? 0)];
        simpl; (split; [reflexivity|]);
        intros s' Hs'; injection Hs' as <-; now exists s.
    + split; [reflexivity|]. intros s' Hs'. exists s. split; congruence.
  - split; [reflexivity|]. intros s' Hs'. congruence.
Qed.

Lemma update_link (c c' : t) (es : list ClientEvent) (time status : Z) :
  update c time status = Ok (c', es) ->
  mOnDataSentCallback c' = mOnDataSentCallback c
  /\ (forall s', mNextDataToSend c' = Some s' ->
        exists s, mNextDataToSend c = Some s
                  /\ SendingData.destAddress s' = SendingData.destAddress s)
  /\ (mOnDataSentCallback c = true -> stagedForBroadcast c ->
      sentStatuses es = [] \/ sentStatuses es = [SendBroadcast]).
Proof.
  unfold update. intros H.
  destruct (update_sentStatus (update_newData c)) as [[c1 ev1]|] eqn:H1;
    [|discriminate].
  simpl in H.
  destruct (update_sentStatus_link _ _ _ H1) as (Hcb1 & Hn1 & Hk1).
  assert (Hnew : mOnDataSentCallback (update_newData c) = mOnDataSentCallback c
                 /\ mNextDataToSend (update_newData c) = mNextDataToSend c)
    by (unfold update_newData; now destruct (NEW_DATA_RECEIVED_MUTEX c)).
  destruct Hnew as [Hnc Hnn].
  destruct (update_sendStaged_link c1 time status) as [Hcb2 Hd2].
  pose proof (update_process_sentStatuses (update_sendStaged c1 time status)
                time) as Hp.
  destruct (update_process_send_state (update_sendStaged c1 time status) time)
    as [_ Hpn].
  assert (Hpcb : mOnDataSentCallback
                   (fst (update_process (update_sendStaged c1 time status)
                           time))
                 = mOnDataSentCallback (update_sendStaged c1 time status)).
  { unfold update_process, processMessage.
    destruct (_ && _); [|reflexivity]. simpl.
    destruct (RECIEVED_DATA_ACCESS_MUTEX _); [reflexivity|].
    now destruct (RECEIVED_DATA _). }
  destruct (update_process _ _) as [c2 ev2]. simpl in Hp, Hpn, Hpcb.
  injection H as <- <-. rewrite sentStatuses_app, Hp, app_nil_r.
  split; [congruence|]. split.
  - intros s' Hs'. rewrite Hpn in Hs'.
    destruct (Hd2 s' Hs') as (s & Hs & Hdest).
    destruct Hn1 as [Hn1 | Hn1]; [congruence|].
    exists s. split; [congruence|exact Hdest].
  - intros Hcb Hk.
    assert (Hk' : stagedForBroadcast (update_newData c))
      by (intros s Hs; apply Hk; congruence).
    rewrite <- Hnc in Hcb.
    destruct (Hk1 Hcb Hk') as [-> | ->]; simpl; tauto.
Qed.

End ClientLink.

Section NodeLink.
Import QuackMeshDevice.

Variable handleForeign : t -> Message.t -> t.
Hypothesis hook : onlyEnqueues handleForeign.

Lemma onMessageSent_mClient (d d' : t) (status : ESPNowSentStatus) :
  onMessageSent d status = Ok d' -> mClient d' = mClient d.
Proof.
  unfold onMessageSent. destruct (mMessageQueue d) as [|front rest];
    [discriminate|]. intros H. injection H as <-.
  destruct (EnqueuedMessage.type front); simpl; try reflexivity.
  destruct (ESPNowSentStatus_eqb status Fail); simpl; [|reflexivity].
  destruct (eraseFirst _ _); simpl; now destruct (mSentStatusCallback d).
Qed.

Lemma handleOwnMessage_mClient (d d' : t) (m : Message.t) :
  handleOwnMessage d m = Ok d' -> mClient d' = mClient d.
Proof.
  unfold handleOwnMessage. intros H.
  destruct (isMessageAlreadySeen d m); [now injection H as <-|].
  destruct (rememberMessage_frame d m) as [Hc _].
  destruct (Message.type m =? 0).
  { injection H as <-. now destruct (mOnMessageCallback _). }
  destruct (Message.type m =? 1).
  { injection H as <-. simpl. now destruct (mOnMessageCallback _). }
  destruct (Message.type m =? 3).
  { injection H as <-.
    now rewrite (proj1 (processReceivedAcknowledgement_frame _ m)). }
  destruct (mOnMessageCallback _); [|discriminate].
  now injection H as <-.
Qed.

Lemma dispatchAll_mClient (es : list ClientEvent) (d d' : t) :
  dispatchAll handleForeign d es = Ok d' -> mClient d' = mClient d.
Proof.
  revert d; induction es as [|e es IH]; simpl; intros d H.
  - now injection H as <-.
  - destruct (dispatch handleForeign d e) as [d1|] eqn:He; [|discriminate].
    simpl in H. rewrite (IH d1 H).
    destruct e as [status|data]; simpl in He.
    + exact (onMessageSent_mClient _ _ _ He).
    + unfold onMessageReceived in He.
      destruct (isAddressMatching _ _).
      * exact (handleOwnMessage_mClient _ _ _ He).
      * injection He as <-. apply (hook d).
Qed.

Lemma processNextMessage_linkIsBroadcast (d : t) :
  linkIsBroadcast d -> linkIsBroadcast (processNextMessage d).
Proof.
  intros Hd. pose proof Hd as [Hcb Hk]. unfold processNextMessage.
  destruct (mMessageSendingInProgress d); [exact Hd|].
  destruct (mMessageQueue d) as [|next rest]; [exact Hd|].
  unfold ESPNowClient.sendingPossible, ESPNowClient.send.
  destruct (ESPNowClient.WAITING_FOR_DATA_SENT_MUTEX (mClient d));
    simpl; [exact Hd|].
  destruct (EnqueuedMessage.type next); simpl;
    (split; [exact Hcb|]); intros s Hs; simpl in Hs; injection Hs as <-;
    reflexivity.
Qed.

Lemma update_linkIsBroadcast (d d' : t) (now status : Z) :
  update handleForeign d now status = Ok d' ->
  linkIsBroadcast d -> linkIsBroadcast d'.
Proof.
  unfold update. intros H [Hcb Hk].
  destruct (ESPNowClient.update (mClient d) now status) as [[c es]|] eqn:Hu;
    [|discriminate].
  simpl in H.
  destruct (dispatchAll handleForeign (set_mClient c d) es) as [d1|] eqn:H1;
    [|discriminate].
  simpl in H. injection H as <-.
  apply processNextMessage_linkIsBroadcast.
  destruct (update_link _ _ _ _ _ Hu) as (Hcb' & Hkeep & _).
  unfold linkIsBroadcast.
  rewrite (proj1 (checkForConfirmationTimeout_frame _ now)).
  rewrite (proj1 (updateSeenMessages_frame d1 now)).
  rewrite (dispatchAll_mClient _ _ _ H1). simpl.
  split; [congruence|].
  intros s' Hs'. destruct (Hkeep s' Hs') as (s & Hs & ->). now apply Hk.
Qed.

Lemma step_linkIsBroadcast (d d' : t) (i : Input) :
  step handleForeign d i = Ok d' ->
  linkIsBroadcast d -> linkIsBroadcast d'.
Proof.
  intros H Hd. destruct i; simpl in H.
  - exact (update_linkIsBroadcast _ _ _ _ H Hd).
  - injection H as <-. exact Hd.
  - injection H as <-. destruct Hd as [Hcb Hk].
    unfold linkIsBroadcast, stagedForBroadcast,
      ESPNowClient.onDataReceived, ESPNowClient.processReceivedData. simpl.
    destruct (ESPNowClient.RECIEVED_DATA_ACCESS_MUTEX _); [now split|].
    destruct (_ <? 18); now split.
  - injection H as <-. exact Hd.
  - injection H as <-. exact Hd.
Qed.

Lemma run_linkIsBroadcast (inputs : list Input) (d d' : t) :
  run handleForeign d inputs = Ok d' ->
  linkIsBroadcast d -> linkIsBroadcast d'.
Proof.
  revert d; induction inputs as [|i rest IH]; simpl; intros d H Hd.
  - now injection H as <-.
  - destruct (step handleForeign d i) as [d1|] eqn:Hi; [|discriminate].
    simpl in H. apply (IH d1 H). exact (step_linkIsBroadcast _ _ _ Hi Hd).
Qed.

End NodeLink.

(** *** Status callbacks and confirmed sends *)

Section NodeBudget.
Import QuackMeshDevice.

Variable handleForeign : t -> Message.t -> t.
Hypothesis hook : onlyEnqueues handleForeign.

Lemma filter_tl_nil {A : Type} (p : A -> bool) (l : list A) :
  filter p l = [] -> filter p (tl l) = [].
Proof.
  destruct l as [|x l]; simpl; [trivial|]. now destruct (p x).
Qed.

Lemma filter_tl_length {A : Type} (p : A -> bool) (l : list A) :
  (length (filter p (tl l)) <= length (filter p l))%nat.
Proof.
  destruct l as [|x l]; simpl; [lia|]. destruct (p x); simpl; lia.
Qed.

Lemma waiting_app (b : bool) (queue extra : list EnqueuedMessage.t) :
  filter isConfirmedEntry extra = [] ->
  (length (filter isConfirmedEntry
             (if b then tl (queue ++ extra) else queue ++ extra))
   <= length (filter isConfirmedEntry (if b then tl queue else queue)))%nat.
Proof.
  intros H. destruct b.
  - destruct queue as [|x queue]; simpl.
    + now rewrite (filter_tl_nil _ _ H).
    + rewrite filter_app, H, app_nil_r. lia.
  - rewrite filter_app, H, app_nil_r. lia.
Qed.

Lemma budget_same (d d' : t) :
  app_trace d' = app_trace d ->
  mMessagesLeftToConfirm d' = mMessagesLeftToConfirm d ->
  mMessageQueue d' = mMessageQueue d ->
  mMessageSendingInProgress d' = mMessageSendingInProgress d ->
  confirmationBudget d' = confirmationBudget d.
Proof.
  unfold confirmationBudget, confirmedWaiting. now intros -> -> -> ->.
Qed.

Lemma budget_enqueue (d d' : t) (extra : list EnqueuedMessage.t) :
  statusCalls (app_trace d') = statusCalls (app_trace d) ->
  mMessagesLeftToConfirm d' = mMessagesLeftToConfirm d ->
  mMessageQueue d' = mMessageQueue d ++ extra ->
  filter isConfirmedEntry extra = [] ->
  mMessageSendingInProgress d' = mMessageSendingInProgress d ->
  (confirmationBudget d' <= confirmationBudget d)%nat.
Proof.
  unfold confirmationBudget, confirmedWaiting. intros -> -> -> He ->.
  pose proof (waiting_app (mMessageSendingInProgress d) (mMessageQueue d)
                extra He).
  lia.
Qed.

Lemma rememberMessage_budget (d : t) (m : Message.t) :
  confirmationBudget (rememberMessage d m) = confirmationBudget d.
Proof.
  apply budget_same.
  - apply rememberMessage_app_trace.
  - apply rememberMessage_mMessagesLeftToConfirm.
  - apply rememberMessage_mMessageQueue.
  - apply rememberMessage_frame.
Qed.

Lemma onMessageSent_budget (d d' : t) (status : ESPNowSentStatus) :
  status <> Fail ->
  onMessageSent d status = Ok d' ->
  (confirmationBudget d' <= confirmationBudget d)%nat.
Proof.
  intros Hs. unfold onMessageSent.
  destruct (mMessageQueue d) as [|front rest] eqn:Hq; [discriminate|].
  intros H. injection H as <-.
  assert (Hf : ESPNowSentStatus_eqb status Fail = false)
    by (destruct status; try reflexivity; congruence).
  rewrite Hf.
  unfold confirmationBudget, confirmedWaiting.
  assert (Hw : (length (filter isConfirmedEntry rest)
                <= length (filter isConfirmedEntry
                             (if mMessageSendingInProgress d
                              then tl (mMessageQueue d)
                              else mMessageQueue d)))%nat).
  { rewrite Hq. destruct (mMessageSendingInProgress d); simpl; [lia|].
    destruct (isConfirmedEntry front); simpl; lia. }
  destruct (EnqueuedMessage.type front); simpl; lia.
Qed.

Lemma handleOwnMessage_budget (d d' : t) (m : Message.t) :
  handleOwnMessage d m = Ok d' ->
  (confirmationBudget d' <= confirmationBudget d)%nat.
Proof.
  unfold handleOwnMessage. intros H.
  destruct (isMessageAlreadySeen d m); [injection H as <-; lia|].
  rewrite <- (rememberMessage_budget d m).
  set (d0 := rememberMessage d m) in *.
  assert (Hdeliver : forall ty x,
             (confirmationBudget x <= confirmationBudget d0)%nat ->
             (confirmationBudget (deliver ty m x)
              <= confirmationBudget d0)%nat).
  { intros ty x Hx.
    assert (He : confirmationBudget (deliver ty m x) = confirmationBudget x).
    { unfold confirmationBudget, confirmedWaiting, deliver, invoke.
      cbn [app_trace set_app_trace mMessagesLeftToConfirm mMessageQueue
           mMessageSendingInProgress].
      rewrite statusCalls_app.
      match goal with
      | |- context [statusCalls [?e]] => change (statusCalls [e]) with 0%nat
      end.
      lia. }
    lia. }
  assert (Hack : (confirmationBudget (sendAcknowledgement d0 m)
                  <= confirmationBudget d0)%nat)
    by (apply budget_enqueue
          with (extra := [EnqueuedMessage.mk Acknowledgement 0
                            (acknowledgementFor d0 m)]); reflexivity).
  destruct (Message.type m =? 0).
  { injection H as <-. destruct (mOnMessageCallback _); [|lia].
    apply Hdeliver. lia. }
  destruct (Message.type m =? 1).
  { injection H as <-.
    destruct (mOnMessageCallback _); [now apply Hdeliver|exact Hack]. }
  destruct (Message.type m =? 3).
  { injection H as <-.
    pose proof (processReceivedAcknowledgement_once_per_entry d0 m) as Ho.
    destruct (processReceivedAcknowledgement_frame d0 m) as (_ & _ & Hq & Hp).
    unfold confirmationBudget, confirmedWaiting. rewrite Hq, Hp. lia. }
  destruct (mOnMessageCallback _); [|discriminate].
  injection H as <-. apply Hdeliver. lia.
Qed.

Lemma In_sentStatuses (status : ESPNowSentStatus) (es : list ClientEvent) :
  In (SentCallback status) es -> In status (sentStatuses es).
Proof.
  intros H. unfold sentStatuses. apply in_flat_map.
  exists (SentCallback status). split; [exact H|now left].
Qed.

Lemma dispatchAll_budget (es : list ClientEvent) (d d' : t) :
  (forall status, In (SentCallback status) es -> status <> Fail) ->
  dispatchAll handleForeign d es = Ok d' ->
  (confirmationBudget d' <= confirmationBudget d)%nat.
Proof.
  revert d; induction es as [|e es IH]; simpl; intros d Hes H.
  - injection H as <-. lia.
  - destruct (dispatch handleForeign d e) as [d1|] eqn:He; [|discriminate].
    simpl in H.
    assert (H1 : (confirmationBudget d1 <= confirmationBudget d)%nat).
    { destruct e as [status|data]; simpl in He.
      - apply (onMessageSent_budget d d1 status); [|exact He].
        apply Hes. now left.
      - unfold onMessageReceived in He.
        destruct (isAddressMatching _ _).
        + exact (handleOwnMessage_budget _ _ _ He).
        + injection He as <-.
          destruct (hook d
                      (Message.of_bytes
                         (firstn (Z.to_nat (ReceivedData.dataLength data))
                            (ReceivedData.data data))))
            as ((extra & Hq & Hx) & _ & _ & _ & Ht & Hp & Hi).
          apply budget_enqueue with (extra := extra); congruence. }
    assert (H2 : (confirmationBudget d' <= confirmationBudget d1)%nat)
      by (apply (IH d1); [intros st Hst; apply Hes; now right|exact H]).
    lia.
Qed.

Lemma processNextMessage_budget (d : t) :
  (confirmationBudget (processNextMessage d) <= confirmationBudget d)%nat.
Proof.
  unfold processNextMessage.
  destruct (mMessageSendingInProgress d) eqn:Hp; [lia|].
  destruct (mMessageQueue d) as [|next rest] eqn:Hq; [lia|].
  destruct (negb _); [lia|].
  destruct (ESPNowClient.send _ _ _ _ _ _) as [c sent].
  unfold confirmationBudget, confirmedWaiting. rewrite Hp, Hq.
  destruct (sent =? 0).
  - cbn [filter]. unfold isConfirmedEntry at 2.
    destruct (EnqueuedMessage.type next);
      cbn [EnqueuedMessageType_eqb app_trace mMessagesLeftToConfirm
           mMessageQueue mMessageSendingInProgress set_mMessagesLeftToConfirm
           set_mMessageSendingInProgress set_mClient tl length];
      rewrite ?length_app, ?Hq; cbn [tl length]; lia.
  - cbn [filter app_trace mMessagesLeftToConfirm mMessageQueue
         mMessageSendingInProgress set_mMessageQueue
         set_mMessageSendingInProgress set_mClient].
    destruct (isConfirmedEntry next); cbn [length]; lia.
Qed.

Lemma update_budget (d d' : t) (now status : Z) :
  linkIsBroadcast d ->
  update handleForeign d now status = Ok d' ->
  (confirmationBudget d' <= confirmationBudget d)%nat.
Proof.
  unfold update. intros [Hcb Hk] H.
  destruct (ESPNowClient.update (mClient d) now status) as [[c es]|] eqn:Hu;
    [|discriminate].
  simpl in H.
  destruct (dispatchAll handleForeign (set_mClient c d) es) as [d1|] eqn:H1;
    [|discriminate].
  simpl in H. injection H as <-.
  destruct (update_link _ _ _ _ _ Hu) as (_ & _ & Hst).
  assert (Hes : forall st, In (SentCallback st) es -> st <> Fail).
  { intros st Hin. apply In_sentStatuses in Hin.
    destruct (Hst Hcb Hk) as [He | He]; rewrite He in Hin; simpl in Hin;
      [contradiction|]. destruct Hin as [<- | []]. discriminate. }
  pose proof (dispatchAll_budget es _ _ Hes H1) as Hb1.
  assert (Hb0 : confirmationBudget (set_mClient c d) = confirmationBudget d)
    by reflexivity.
  assert (Hb2 : confirmationBudget (updateSeenMessages d1 now)
                = confirmationBudget d1).
  { destruct (updateSeenMessages_frame d1 now) as (_ & _ & Hi & Hp).
    apply budget_same; auto using updateSeenMessages_app_trace,
      updateSeenMessages_mMessageQueue. }
  assert (Hb3 : (confirmationBudget
                   (checkForConfirmationTimeout (updateSeenMessages d1 now) now)
                 <= confirmationBudget (updateSeenMessages d1 now))%nat).
  { pose proof (checkForConfirmationTimeout_once_per_entry
                  (updateSeenMessages d1 now) now) as Ho.
    destruct (checkForConfirmationTimeout_frame (updateSeenMessages d1 now) now)
      as (_ & _ & Hq & Hi).
    unfold confirmationBudget, confirmedWaiting. rewrite Hq, Hi. lia. }
  pose proof (processNextMessage_budget
                (checkForConfirmationTimeout (updateSeenMessages d1 now) now)).
  lia.
Qed.

Lemma enqueueNewMessage_budget (d : t) (data : list Z) (dataLength : Z)
    (destination : address) (confirmed : bool) :
  (confirmationBudget (enqueueNewMessage d data dataLength destination confirmed)
   <= confirmationBudget d + (if confirmed then 1 else 0))%nat.
Proof.
  unfold confirmationBudget, confirmedWaiting, enqueueNewMessage. simpl.
  destruct (mMessageSendingInProgress d).
  - destruct (mMessageQueue d) as [|x queue]; simpl.
    + destruct confirmed; lia.
    + rewrite filter_app, length_app. destruct confirmed; simpl; lia.
  - rewrite filter_app, length_app. destruct confirmed; simpl; lia.
Qed.

Lemma run_budget (inputs : list Input) (d d' : t) :
  linkIsBroadcast d ->
  run handleForeign d inputs = Ok d' ->
  (confirmationBudget d' <= confirmationBudget d + confirmedSends inputs)%nat.
Proof.
  revert d; induction inputs as [|i rest IH]; simpl; intros d Hd H.
  - injection H as <-. unfold confirmedSends. simpl. lia.
  - destruct (step handleForeign d i) as [d1|] eqn:Hi; [|discriminate].
    simpl in H.
    pose proof (step_linkIsBroadcast handleForeign hook _ _ _ Hi Hd) as Hd1.
    specialize (IH d1 Hd1 H).
    assert (H1 : (confirmationBudget d1
                  <= confirmationBudget d + confirmedSends [i])%nat).
    { destruct i; simpl in Hi; unfold confirmedSends; simpl.
      - pose proof (update_budget _ _ _ _ Hd Hi). lia.
      - injection Hi as <-.
        change (confirmationBudget d <= confirmationBudget d + 0)%nat. lia.
      - injection Hi as <-.
        change (confirmationBudget d <= confirmationBudget d + 0)%nat. lia.
      - injection Hi as <-.
        pose proof (enqueueNewMessage_budget d data dataLength destination
                      false) as Hb.
        cbv iota in Hb. unfold sendMessage. lia.
      - injection Hi as <-.
        pose proof (enqueueNewMessage_budget d data dataLength destination
                      true) as Hb.
        cbv iota in Hb. unfold sendConfirmedMessage. lia. }
    unfold confirmedSends in *. simpl in *.
    destruct i; simpl in *; lia.
Qed.

End NodeBudget.

(** *** Routers *)

Section RouterRuns.
Import QuackMeshDevice.

Lemma updateRoutingTable_base (r : QuackMeshRouter.t) (now : Z) :
  QuackMeshRouter.base (QuackMeshRouter.updateRoutingTable r now)
  = QuackMeshRouter.base r.
Proof.
  unfold QuackMeshRouter.updateRoutingTable. now destruct (_ <? _).
Qed.

Lemma routerStep_base (r : QuackMeshRouter.t) (i : Input) :
  match step QuackMeshRouter.handleForeignMessage (QuackMeshRouter.base r) i
  with
  | Ok d' => exists r', routerStep r i = Ok r' /\ QuackMeshRouter.base r' = d'
  | Fault f => routerStep r i = Fault f
  end.
Proof.
  destruct i; simpl;
    try (eexists; split; reflexivity).
  unfold QuackMeshRouter.update.
  destruct (update _ _ _ _) as [d'|f]; simpl; [|reflexivity].
  eexists. split; [reflexivity|]. now rewrite updateRoutingTable_base.
Qed.

(** A run of a router is a run of its device part with the router's
    [handleForeignMessage]. *)
Lemma routerRun_base (inputs : list Input) (r : QuackMeshRouter.t) :
  match run QuackMeshRouter.handleForeignMessage (QuackMeshRouter.base r)
          inputs with
  | Ok d' => exists r', routerRun r inputs = Ok r'
                        /\ QuackMeshRouter.base r' = d'
  | Fault f => routerRun r inputs = Fault f
  end.
Proof.
  revert r; induction inputs as [|i rest IH]; intros r; simpl.
  - now exists r.
  - pose proof (routerStep_base r i) as Hs.
    destruct (step _ _ i) as [d1|f]; simpl.
    + destruct Hs as (r1 & -> & <-). simpl. apply IH.
    + now rewrite Hs.
Qed.

Lemma routerRun_run (inputs : list Input) (r r' : QuackMeshRouter.t) :
  routerRun r inputs = Ok r' ->
  run QuackMeshRouter.handleForeignMessage (QuackMeshRouter.base r) inputs
  = Ok (QuackMeshRouter.base r').
Proof.
  intros H. pose proof (routerRun_base inputs r) as Hb.
  destruct (run _ _ _) as [d'|f].
  - destruct Hb as (r'' & Hr & <-). congruence.
  - congruence.
Qed.


Lemma exampleDevice_nodeSound : nodeSound exampleDevice.
Proof.
  unfold nodeSound, clientSound; simpl. repeat split; intros H; congruence.
Qed.


(** X11. Every frame a node hands to the driver is addressed to the
    broadcast address: once the sent callback is bound and the client
    holds no frame for another address, this stays so in every run of a
    device and of a router, whatever the routing table of the router
    holds (the table is not consulted when a frame is sent). *)
Theorem link_address_is_always_broadcast :
  (forall d inputs d',
      linkIsBroadcast d ->
      run handleForeignMessage d inputs = Ok d' ->
      linkIsBroadcast d')
  /\ (forall r inputs r',
         linkIsBroadcast (QuackMeshRouter.base r) ->
         routerRun r inputs = Ok r' ->
         linkIsBroadcast (QuackMeshRouter.base r')).
Proof.
  split.
  - intros d inputs d' Hd H.
    exact (run_linkIsBroadcast handleForeignMessage
             handleForeignMessage_onlyEnqueues inputs d d' H Hd).
  - intros r inputs r' Hd H.
    exact (run_linkIsBroadcast QuackMeshRouter.handleForeignMessage
             forwardMessage_onlyEnqueues inputs _ _ (routerRun_run _ _ _ H) Hd).
Qed.

Lemma exampleDevice_linkIsBroadcast : linkIsBroadcast exampleDevice.
Proof. split; [reflexivity|]. intros s H. discriminate H. Qed.

Lemma link_address_is_always_broadcast_witness :
  QuackMeshRouter.getMACAddressForDestination routingRouter
    [1; 0; 0; 0; 0; 3] = [2; 0; 0; 0; 0; 1]
  /\ exists r',
       routerRun routingRouter routedSend = Ok r'
       /\ ESPNowClient.mNextDataToSend (mClient (QuackMeshRouter.base r'))
          <> None
       /\ linkIsBroadcast (QuackMeshRouter.base r').
Proof.
  split; [reflexivity|].
  let r := eval vm_compute in (routerRun routingRouter routedSend) in
  match r with
  | Ok ?r' =>
      assert (H : routerRun routingRouter routedSend = Ok r')
        by (vm_compute; reflexivity);
      exists r'; split; [exact H|]; split; [discriminate|];
      exact (proj2 link_address_is_always_broadcast routingRouter
               routedSend r' exampleDevice_linkIsBroadcast H)
  end.
Defined.

(** X12. Status callbacks are covered by confirmed sends.  In every run
    of a device or router whose frames go to the broadcast address, the
    number of status callbacks made, plus the confirmations pending, plus
    the Confirmed frames waiting in the queue, grows by at most the
    number of calls of [sendConfirmedMessage]; a node that starts with an
    empty log, queue and pending set never makes more status callbacks
    than it was asked for confirmed sends. *)
Theorem status_callbacks_within_confirmed_sends :
  (forall d inputs d',
      linkIsBroadcast d ->
      run handleForeignMessage d inputs = Ok d' ->
      (confirmationBudget d'
       <= confirmationBudget d + confirmedSends inputs)%nat)
  /\ (forall r inputs r',
         linkIsBroadcast (QuackMeshRouter.base r) ->
         routerRun r inputs = Ok r' ->
         (confirmationBudget (QuackMeshRouter.base r')
          <= confirmationBudget (QuackMeshRouter.base r)
             + confirmedSends inputs)%nat).
Proof.
  split.
  - intros d inputs d'.
    apply (run_budget handleForeignMessage handleForeignMessage_onlyEnqueues).
  - intros r inputs r' Hd H.
    exact (run_budget QuackMeshRouter.handleForeignMessage
             forwardMessage_onlyEnqueues inputs _ _ Hd (routerRun_run _ _ _ H)).
Qed.

Lemma status_callbacks_within_confirmed_sends_witness :
  exists d',
    run handleForeignMessage exampleDevice unacknowledgedBroadcast = Ok d'
    /\ (statusCalls (app_trace d') <= 1)%nat.
Proof.
  destruct (run_nodeSound handleForeignMessage
              handleForeignMessage_onlyEnqueues unacknowledgedBroadcast
              exampleDevice exampleDevice_nodeSound
              ltac:(vm_compute; repeat split))
    as (d' & Hrun & _).
  exists d'. split; [exact Hrun|].
  pose proof (proj1 status_callbacks_within_confirmed_sends exampleDevice
                unacknowledgedBroadcast d' exampleDevice_linkIsBroadcast Hrun)
    as Hb.
  change (confirmationBudget exampleDevice) with 0%nat in Hb.
  change (confirmedSends unacknowledgedBroadcast) with 1%nat in Hb.
  unfold confirmationBudget in Hb. lia.
Defined.



(** X13. The seen set stays within its cap in every run of a device and
    of a router. *)
Theorem seen_set_within_cap_in_every_run :
  (forall d inputs d',
      seenWithinCap d ->
      run handleForeignMessage d inputs = Ok d' ->
      seenWithinCap d')
  /\ (forall r inputs r',
         seenWithinCap (QuackMeshRouter.base r) ->
         routerRun r inputs = Ok r' ->
         seenWithinCap (QuackMeshRouter.base r')).
Proof.
  split.
  - intros d inputs d' Hd H.
    apply (run_seenWithinCap handleForeignMessage) with (2 := H); auto.
  - intros r inputs r' Hd H.
    apply (run_seenWithinCap QuackMeshRouter.handleForeignMessage)
      with (2 := routerRun_run _ _ _ H); [|exact Hd].
    exact forwardMessage_seenWithinCap.
Qed.

Lemma seen_set_within_cap_in_every_run_witness :
  exists r',
    routerRun routingRouter routedSend = Ok r'
    /\ seenWithinCap (QuackMeshRouter.base r').
Proof.
  let r := eval vm_compute in (routerRun routingRouter routedSend) in
  match r with
  | Ok ?r' =>
      assert (H : routerRun routingRouter routedSend = Ok r')
        by (vm_compute; reflexivity);
      exists r'; split; [exact H|];
      apply (proj2 seen_set_within_cap_in_every_run routingRouter routedSend
               r'); [|exact H];
      split; vm_compute; discriminate
  end.
Defined.

End RouterRuns.

(** ** Confirmations, forwarding and the window of the seen set *)

Section Confirmations.
Import QuackMeshDevice.

(** X14. With the status callback bound, an acknowledgement and a
    timeout check report every pending confirmation they erase exactly
    once: the number of status callbacks made plus the number of pending
    confirmations is the same before and after
    [processReceivedAcknowledgement] and [checkForConfirmationTimeout].
    In particular an acknowledgement that matches no pending
    confirmation calls nothing. *)
Theorem erased_confirmation_is_reported_once
    (d : t) (m : Message.t) (now : Z) :
  mSentStatusCallback d = true ->
  (statusCalls (app_trace (processReceivedAcknowledgement d m))
   + length (mMessagesLeftToConfirm (processReceivedAcknowledgement d m))
   = statusCalls (app_trace d) + length (mMessagesLeftToConfirm d))%nat
  /\ (statusCalls (app_trace (checkForConfirmationTimeout d now))
      + length (mMessagesLeftToConfirm (checkForConfirmationTimeout d now))
      = statusCalls (app_trace d) + length (mMessagesLeftToConfirm d))%nat.
Proof.
  intros Hcb. split.
  - unfold processReceivedAcknowledgement.
    destruct (eraseFirst _ _) as [remaining|] eqn:H; [|reflexivity].
    apply eraseFirst_length in H.
    cbn [mSentStatusCallback set_mMessagesLeftToConfirm]. rewrite Hcb.
    cbn [invoke app_trace mMessagesLeftToConfirm set_app_trace
         set_mMessagesLeftToConfirm].
    rewrite statusCalls_app.
    change (statusCalls [OnMessageStatus SendSuccess]) with 1%nat. lia.
  - unfold checkForConfirmationTimeout.
    cbn [mMessagesLeftToConfirm mLastTimeoutCheckTs set_mLastTimeoutCheckTs].
    pose proof (ageConfirmations_length (u_long (now - mLastTimeoutCheckTs d))
                  (mMessagesLeftToConfirm d)) as H.
    destruct (ageConfirmations _ _) as [kept erased]. cbn [fst snd] in H.
    cbn [mSentStatusCallback set_mMessagesLeftToConfirm
         set_mLastTimeoutCheckTs].
    rewrite Hcb.
    cbn [app_trace mMessagesLeftToConfirm set_app_trace
         set_mMessagesLeftToConfirm set_mLastTimeoutCheckTs].
    rewrite statusCalls_app.
    assert (statusCalls (repeat (OnMessageStatus Fail) erased) = erased)
      by (clear; induction erased; [reflexivity|];
          change (S (statusCalls (repeat (OnMessageStatus Fail) erased))
                  = S erased); now f_equal).
    lia.
Qed.

Lemma erased_confirmation_is_reported_once_witness :
  app_trace (processReceivedAcknowledgement senderDevice
               (acknowledgementFor receiverDevice sentFrame))
  = [OnMessageStatus SendSuccess]
  /\ (statusCalls
        (app_trace (processReceivedAcknowledgement senderDevice
                      (acknowledgementFor receiverDevice sentFrame)))
      + length
          (mMessagesLeftToConfirm
             (processReceivedAcknowledgement senderDevice
                (acknowledgementFor receiverDevice sentFrame)))
      = 1)%nat.
Proof.
  split; [reflexivity|].
  exact (proj1 (erased_confirmation_is_reported_once senderDevice
                  (acknowledgementFor receiverDevice sentFrame) 0 eq_refl)).
Defined.

(** X15. What a router changes in a frame it forwards.  For a frame that
    fits the struct, with type and id in the range of a byte and a hop
    count from 2 to 255, not seen before, [forwardMessage] enqueues one
    frame of kind Forwarded on channel 0: the received frame with the hop
    count lowered by one and the network id set to zero; type, id,
    addresses, length and payload are the received ones. *)
Theorem forwardMessage_keeps_the_frame (d : t) (m : Message.t) :
  frameFits m ->
  0 <= Message.type m < 256 ->
  0 <= Message.id m < 256 ->
  2 <= Message.hopCount m <= 255 ->
  isMessageAlreadySeen d m = false ->
  mMessageQueue (QuackMeshRouter.forwardMessage d m)
  = mMessageQueue d
      ++ [EnqueuedMessage.mk Forwarded 0
            (Message.mk [0; 0] (Message.type m) (Message.id m)
               (Message.hopCount m - 1) (Message.srcAddress m)
               (Message.destAddress m) (Message.len m) (Message.data m))].
Proof.
  intros (_ & _ & _ & Hlen & Hdata) Hty Hid Hhop Hseen.
  unfold QuackMeshRouter.forwardMessage.
  destruct (Z.eqb_spec (Message.hopCount m - 1) 0); [lia|].
  rewrite Hseen.
  cbn [mMessageQueue set_mMessageQueue]. rewrite rememberMessage_mMessageQueue.
  unfold Message.make, u8, wrap.
  rewrite !Z.mod_small by lia.
  now rewrite firstn_exact by exact Hdata.
Qed.

Lemma forwardMessage_keeps_the_frame_witness :
  mMessageQueue (QuackMeshRouter.forwardMessage exampleDevice
                   (Message.mk [5; 5] 1 7 3 [11; 0; 0; 0; 0; 2]
                      [12; 0; 0; 0; 0; 3] 2 [222; 173]))
  = [EnqueuedMessage.mk Forwarded 0
       (Message.mk [0; 0] 1 7 2 [11; 0; 0; 0; 0; 2] [12; 0; 0; 0; 0; 3] 2
          [222; 173])].
Proof.
  apply (forwardMessage_keeps_the_frame exampleDevice
           (Message.mk [5; 5] 1 7 3 [11; 0; 0; 0; 0; 2] [12; 0; 0; 0; 0; 3] 2
              [222; 173]));
    try reflexivity; try (simpl; lia).
  unfold frameFits; simpl. repeat split; try reflexivity; lia.
Defined.

End Confirmations.

Section Window.
Import QuackMeshDevice.

Lemma rememberMessage_mSeenMessagesCleanupTimeout (d : t) (m : Message.t) :
  mSeenMessagesCleanupTimeout (rememberMessage d m)
  = mSeenMessagesCleanupTimeout d.
Proof. unfold rememberMessage. now destruct (isMessageAlreadySeen d m). Qed.

Lemma rememberMessage_skipn (d : t) (m : Message.t) :
  isMessageAlreadySeen d m = false ->
  1 <= mMaxSeenMessagesQueueSize d ->
  Z.of_nat (length (mSeenMessages d)) <= mMaxSeenMessagesQueueSize d ->
  mSeenMessages (rememberMessage d m)
  = skipn (length (mSeenMessages d) + 1
           - Z.to_nat (mMaxSeenMessagesQueueSize d))
      (mSeenMessages d ++ [seenEntryOf d m]).
Proof.
  intros Hseen Hmax Hlen. unfold rememberMessage. rewrite Hseen.
  cbn [mSeenMessages set_mSeenMessages]. fold (seenEntryOf d m).
  destruct (Z.geb_spec (Z.of_nat (length (mSeenMessages d)))
              (mMaxSeenMessagesQueueSize d)) as [Hfull | Hroom].
  - replace (length (mSeenMessages d) + 1
             - Z.to_nat (mMaxSeenMessagesQueueSize d))%nat with 1%nat by lia.
    destruct (mSeenMessages d); simpl in *; [lia|reflexivity].
  - replace (length (mSeenMessages d) + 1
             - Z.to_nat (mMaxSeenMessagesQueueSize d))%nat with 0%nat by lia.
    reflexivity.
Qed.

Lemma rememberAll_skipn (ms : list Message.t) (d : t) :
  allNew d ms = true ->
  1 <= mMaxSeenMessagesQueueSize d ->
  Z.of_nat (length (mSeenMessages d)) <= mMaxSeenMessagesQueueSize d ->
  mSeenMessages (rememberAll d ms)
  = skipn (length (mSeenMessages d) + length ms
           - Z.to_nat (mMaxSeenMessagesQueueSize d))
      (mSeenMessages d ++ map (seenEntryOf d) ms).
Proof.
  revert d; induction ms as [|m rest IH]; intros d Hnew Hmax Hlen.
  - simpl. rewrite app_nil_r.
    replace (length (mSeenMessages d) + 0
             - Z.to_nat (mMaxSeenMessagesQueueSize d))%nat with 0%nat by lia.
    reflexivity.
  - simpl in Hnew. apply andb_true_iff in Hnew as [Hm Hrest].
    apply negb_true_iff in Hm.
    pose proof (rememberMessage_skipn d m Hm Hmax Hlen) as Hs.
    pose proof (rememberMessage_bounded d m Hmax Hlen) as Hb.
    pose proof (rememberMessage_mMaxSeenMessagesQueueSize d m) as HM.
    change (rememberAll d (m :: rest))
      with (rememberAll (rememberMessage d m) rest).
    rewrite (IH (rememberMessage d m) Hrest)
      by (first [exact Hb | rewrite HM; exact Hmax]).
    rewrite HM.
    assert (He : map (seenEntryOf (rememberMessage d m)) rest
                 = map (seenEntryOf d) rest).
    { apply map_ext. intros x. unfold seenEntryOf.
      now rewrite rememberMessage_mSeenMessagesCleanupTimeout. }
    rewrite He, Hs.
    set (M := Z.to_nat (mMaxSeenMessagesQueueSize d)) in *.
    set (s := mSeenMessages d) in *.
    set (e := seenEntryOf d m) in *.
    assert (Hl : (length s <= M)%nat) by (unfold M; lia).
    assert (HM1 : (1 <= M)%nat) by (unfold M; lia).
    rewrite length_skipn, length_app. cbn [length map].
    replace (skipn (length s + 1 - M) (s ++ [e]) ++ map (seenEntryOf d) rest)
      with (skipn (length s + 1 - M) ((s ++ [e]) ++ map (seenEntryOf d) rest)).
    + rewrite skipn_skipn. rewrite <- app_assoc. cbn [app].
      f_equal. lia.
    + rewrite skipn_app, length_app. cbn [length].
      replace (length s + 1 - M - (length s + 1))%nat with 0%nat by lia.
      reflexivity.
Qed.

Lemma existsb_skipn_false {A : Type} (p : A -> bool) (n : nat) (l : list A) :
  existsb p l = false -> existsb p (skipn n l) = false.
Proof.
  revert l; induction n as [|n IH]; intros l H; [exact H|].
  destruct l as [|x l]; [reflexivity|]. simpl in *.
  apply orb_false_iff in H as [_ H]. now apply IH.
Qed.

(** X16. The seen set forgets by count.  Once
    [mMaxSeenMessagesQueueSize] frames that were new to the seen set have
    been remembered, a frame that is none of them is no longer reported
    as seen, whatever time its entry had left: a further copy of it is
    treated as a new frame. *)
Theorem seen_set_forgets_after_cap_new_frames
    (d : t) (ms : list Message.t) (m0 : Message.t) :
  1 <= mMaxSeenMessagesQueueSize d ->
  Z.of_nat (length (mSeenMessages d)) <= mMaxSeenMessagesQueueSize d ->
  allNew d ms = true ->
  mMaxSeenMessagesQueueSize d <= Z.of_nat (length ms) ->
  existsb (seenMatches m0) (map (seenEntryOf d) ms) = false ->
  isMessageAlreadySeen (rememberAll d ms) m0 = false.
Proof.
  intros Hmax Hlen Hnew Hmany Hother.
  unfold isMessageAlreadySeen.
  rewrite (rememberAll_skipn ms d Hnew Hmax Hlen).
  rewrite skipn_app.
  rewrite existsb_app.
  replace (skipn (length (mSeenMessages d) + length ms
                  - Z.to_nat (mMaxSeenMessagesQueueSize d))
             (mSeenMessages d)) with (@nil SeenMessageEntry.t)
    by (symmetry; apply skipn_all2; lia).
  simpl. now apply existsb_skipn_false.
Qed.

Lemma seen_set_forgets_after_cap_new_frames_witness :
  isMessageAlreadySeen (rememberMessage exampleDevice exampleFrame)
    exampleFrame = true
  /\ isMessageAlreadySeen
       (rememberAll (rememberMessage exampleDevice exampleFrame) tenFrames)
       exampleFrame = false.
Proof.
  split; [reflexivity|].
  apply (seen_set_forgets_after_cap_new_frames
           (rememberMessage exampleDevice exampleFrame) tenFrames exampleFrame);
    try reflexivity; vm_compute; discriminate.
Defined.

End Window.

Section TimeoutsAndIds.
Import QuackMeshDevice.

Lemma ageConfirmations_filter (diff : Z) (pending : list ConfirmedMessage.t) :
  0 <= diff <= 32768 ->
  forallb confirmationAlive pending = true ->
  ageConfirmations diff pending
  = (map (agedConfirmation diff)
       (filter (fun it => diff <? ConfirmedMessage.timestamp it) pending),
     length (filter (fun it => ConfirmedMessage.timestamp it <=? diff)
               pending)).
Proof.
  intros Hd. induction pending as [|it rest IH]; [reflexivity|].
  cbn [forallb]. rewrite andb_true_iff. unfold confirmationAlive at 1.
  rewrite andb_true_iff, Z.ltb_lt, Z.leb_le. intros [[H0 H1] Hrest].
  cbn [ageConfirmations filter]. rewrite (IH Hrest).
  rewrite i16_u_long_small by lia.
  destruct (Z.leb_spec (ConfirmedMessage.timestamp it - diff) 0);
    destruct (Z.ltb_spec diff (ConfirmedMessage.timestamp it)); try lia;
    destruct (Z.leb_spec (ConfirmedMessage.timestamp it) diff); try lia;
    reflexivity.
Qed.

(** X17. The confirmation timeout.  When at most 32768 ms have passed
    since the previous check and every pending confirmation has a
    positive remaining time, [checkForConfirmationTimeout] erases exactly
    the confirmations with no more than the elapsed time left, calls the
    status callback (if bound) with [Fail] once for each of them, and
    takes the elapsed time off the others, which keep their order and a
    positive remaining time. *)
Theorem checkForConfirmationTimeout_ages (d : t) (now : Z) :
  let diff := u_long (now - mLastTimeoutCheckTs d) in
  diff <= 32768 ->
  forallb confirmationAlive (mMessagesLeftToConfirm d) = true ->
  mMessagesLeftToConfirm (checkForConfirmationTimeout d now)
  = map (agedConfirmation diff)
      (filter (fun it => diff <? ConfirmedMessage.timestamp it)
         (mMessagesLeftToConfirm d))
  /\ app_trace (checkForConfirmationTimeout d now)
     = app_trace d
         ++ (if mSentStatusCallback d
             then repeat (OnMessageStatus Fail)
                    (length
                       (filter
                          (fun it => ConfirmedMessage.timestamp it <=? diff)
                          (mMessagesLeftToConfirm d)))
             else [])
  /\ forallb confirmationAlive
       (mMessagesLeftToConfirm (checkForConfirmationTimeout d now)) = true.
Proof.
  intros diff Hd Halive.
  pose proof (u_long_range (now - mLastTimeoutCheckTs d)) as Hr.
  assert (Hage : ageConfirmations diff (mMessagesLeftToConfirm d)
                 = (map (agedConfirmation diff)
                      (filter (fun it => diff <? ConfirmedMessage.timestamp it)
                         (mMessagesLeftToConfirm d)),
                    length
                      (filter
                         (fun it => ConfirmedMessage.timestamp it <=? diff)
                         (mMessagesLeftToConfirm d))))
    by (apply ageConfirmations_filter; [fold diff; lia|exact Halive]).
  assert (Hp : mMessagesLeftToConfirm (checkForConfirmationTimeout d now)
               = map (agedConfirmation diff)
                   (filter (fun it => diff <? ConfirmedMessage.timestamp it)
                      (mMessagesLeftToConfirm d))).
  { unfold checkForConfirmationTimeout.
    cbn [mMessagesLeftToConfirm mLastTimeoutCheckTs set_mLastTimeoutCheckTs].
    fold diff. rewrite Hage.
    cbn [mSentStatusCallback set_mMessagesLeftToConfirm
         set_mLastTimeoutCheckTs].
    now destruct (mSentStatusCallback d). }
  split; [exact Hp|]. split.
  - unfold checkForConfirmationTimeout.
    cbn [mMessagesLeftToConfirm mLastTimeoutCheckTs set_mLastTimeoutCheckTs].
    fold diff. rewrite Hage.
    cbn [mSentStatusCallback set_mMessagesLeftToConfirm
         set_mLastTimeoutCheckTs].
    destruct (mSentStatusCallback d); [reflexivity|].
    now rewrite app_nil_r.
  - rewrite Hp. clear Hp Hage.
    induction (mMessagesLeftToConfirm d) as [|it rest IH]; [reflexivity|].
    cbn [forallb] in Halive. apply andb_true_iff in Halive as [Hit Hrest].
    cbn [filter]. destruct (Z.ltb_spec diff (ConfirmedMessage.timestamp it)).
    + cbn [map forallb]. rewrite (IH Hrest), andb_true_r.
      unfold confirmationAlive in *. cbn [agedConfirmation
        ConfirmedMessage.timestamp].
      apply andb_true_iff in Hit as [_ Hle]. apply Z.leb_le in Hle.
      apply andb_true_iff. split; [apply Z.ltb_lt|apply Z.leb_le]; lia.
    + exact (IH Hrest).
Qed.

Lemma checkForConfirmationTimeout_ages_witness :
  map ConfirmedMessage.timestamp
    (mMessagesLeftToConfirm (checkForConfirmationTimeout senderDevice 400))
  = [600]
  /\ app_trace (checkForConfirmationTimeout
                  (checkForConfirmationTimeout senderDevice 400) 1000)
     = [OnMessageStatus Fail].
Proof.
  destruct (checkForConfirmationTimeout_ages senderDevice 400
              ltac:(vm_compute; discriminate) eq_refl) as (Hp & _ & _).
  destruct (checkForConfirmationTimeout_ages
              (checkForConfirmationTimeout senderDevice 400) 1000
              ltac:(vm_compute; discriminate) eq_refl) as (_ & Ht & _).
  split; [rewrite Hp; reflexivity|rewrite Ht; reflexivity].
Defined.

Lemma u8_add_u8 (a b : Z) : u8 (u8 a + b) = u8 (a + b).
Proof. unfold u8, wrap. apply Zplus_mod_idemp_l. Qed.

Lemma enqueueAll_ids (requests : list (list Z * Z * address * bool)) (d : t) :
  mMessageQueue (enqueueAll d requests)
  = mMessageQueue d
      ++ skipn (length (mMessageQueue d))
           (mMessageQueue (enqueueAll d requests))
  /\ map (fun e => Message.id (EnqueuedMessage.message e))
       (skipn (length (mMessageQueue d))
          (mMessageQueue (enqueueAll d requests)))
     = map (fun k => u8 (idid d + Z.of_nat k)) (seq 0 (length requests))
  /\ idid (enqueueAll d requests)
     = match requests with
       | [] => idid d
       | _ => u8 (idid d + Z.of_nat (length requests))
       end.
Proof.
  revert d; induction requests as [|[[[data len] dst] conf] rest IH];
    intros d.
  - cbn [enqueueAll fold_left length seq map].
    rewrite skipn_all. now rewrite app_nil_r.
  - change (enqueueAll d ((data, len, dst, conf) :: rest))
      with (enqueueAll (enqueueNewMessage d data len dst conf) rest).
    destruct (IH (enqueueNewMessage d data len dst conf))
      as (Hq & Hids & Hid).
    set (d1 := enqueueNewMessage d data len dst conf) in *.
    assert (Hq1 : mMessageQueue d1
                  = mMessageQueue d
                      ++ [EnqueuedMessage.mk
                            (if conf then Confirmed else Unconfirmed) 0
                            (Message.make [0; 0] (if conf then 1 else 0)
                               (idid d) 3 (getMACAddress d) dst len data)])
      by reflexivity.
    assert (Hi1 : idid d1 = u8 (idid d + 1)) by reflexivity.
    rewrite Hq1, length_app in Hq, Hids. cbn [length] in Hq, Hids.
    set (q := mMessageQueue (enqueueAll d1 rest)) in *.
    assert (Hs : skipn (length (mMessageQueue d)) q
                 = EnqueuedMessage.mk
                     (if conf then Confirmed else Unconfirmed) 0
                     (Message.make [0; 0] (if conf then 1 else 0)
                        (idid d) 3 (getMACAddress d) dst len data)
                   :: skipn (length (mMessageQueue d) + 1) q).
    { rewrite Hq at 1. rewrite <- app_assoc.
      rewrite skipn_app, skipn_all, Nat.sub_diag. reflexivity. }
    split; [|split].
    + rewrite Hs. rewrite Hq at 1. now rewrite <- app_assoc.
    + rewrite Hs. cbn [map length seq]. rewrite Hids.
      f_equal; [cbn [EnqueuedMessage.message Message.make Message.id];
                now rewrite Z.add_0_r|].
      rewrite <- seq_shift, map_map. apply map_ext. intros k.
      rewrite Hi1, u8_add_u8. f_equal. lia.
    + rewrite Hid, Hi1. destruct rest as [|r rest'].
      * cbn [length]. f_equal.
      * rewrite u8_add_u8. f_equal. cbn [length]. lia.
Qed.

(** X18. Message ids.  The frames that consecutive calls of
    [sendMessage] and [sendConfirmedMessage] append to the outbound queue
    carry the ids [idid], [idid + 1], ... taken modulo 256, in the order
    of the calls: the id of a frame repeats after 256 sends. *)
Theorem message_ids_count_modulo_256
    (d : t) (requests : list (list Z * Z * address * bool)) :
  map (fun e => Message.id (EnqueuedMessage.message e))
    (skipn (length (mMessageQueue d)) (mMessageQueue (enqueueAll d requests)))
  = map (fun k => (idid d + Z.of_nat k) mod 256) (seq 0 (length requests)).
Proof. exact (proj1 (proj2 (enqueueAll_ids requests d))). Qed.

End TimeoutsAndIds.
